(** * ConvoX: the real-time delivery and message-mutation core

    A shallow embedding of the server side of ConvoX
    ([server/src/services/socketService.ts], [models/message.ts],
    [models/group.ts], [controllers/messageController.ts] and
    [controllers/groupController.ts]) together with the properties of
    the message store, the presence registry and the fan-out that the
    specification states.

    Conventions of the embedding:
    - a MongoDB [ObjectId] and a Socket.IO socket id are numbers ([N]);
      the 24-digit hexadecimal rendering of an ObjectId has fixed width,
      so the lexicographic order of the rendered ids is the numeric one;
    - a [Date] is its number of milliseconds since the epoch ([Z]);
    - a JavaScript string is the list of its UTF-16 code units;
    - a collection is the list of its documents in insertion order, each
      as it is stored; where Mongoose fills a default of the schema into
      a document it loads, the embedding says so at the place
      ([withDefaults] for a message, [loadedMember] for a member entry);
    - every handler is a function from the world (collections, presence
      registry, live sockets) and its input to the new world and the list
      of events it emitted, in emission order. *)

From stdpp Require Import base numbers list option gmap strings sorting.

Set Default Proof Using "Type".

(** ** Primitive data *)

Definition ObjectId := N.

Definition SocketId := N.

Definition Date := Z.

(** A JavaScript string: UTF-16 code units. *)
Definition JsString := list N.

Definition js (s : string) : JsString :=
  (λ a, Ascii.N_of_ascii a) <$> String.list_ascii_of_string s.

(** [String.prototype.trim]: the code units of WhiteSpace and
    LineTerminator are stripped from both ends. *)
Definition isWhiteSpace (c : N) : bool :=
  ((9 <=? c) && (c <=? 13) || (c =? 32) || (c =? 160) || (c =? 5760)
   || (8192 <=? c) && (c <=? 8202) || (c =? 8232) || (c =? 8233)
   || (c =? 8239) || (c =? 8287) || (c =? 12288) || (c =? 65279))%N.

Fixpoint trimStart (s : JsString) : JsString :=
  match s with
  | c :: s' => if isWhiteSpace c then trimStart s' else s
  | [] => []
  end.

Definition trim (s : JsString) : JsString :=
  reverse (trimStart (reverse (trimStart s))).

(** ** The message model ([models/message.ts]) *)

Inductive MessageType := text_t | image_t | video_t | system_t.

Global Instance MessageType_eq_dec : EqDecision MessageType.
Proof. solve_decision. Defined.

Record Message := mkMessage {
  _id : ObjectId;
  sender : ObjectId;
  receiver : option ObjectId;
  group : option ObjectId;
  text : option JsString;
  imageUrl : option JsString;
  videoUrl : option JsString;
  messageType : MessageType;
  isRead : bool;
  isEdited : bool;
  editedAt : option Date;
  deletedForSender : bool;
  deletedForReceiver : bool;
  deletedForEveryone : bool;
  deletedForUsers : option (list ObjectId);
  deletedAt : option Date;
  removedMemberId : option ObjectId;
  createdAt : Date
}.

Global Instance Message_eq_dec : EqDecision Message.
Proof. solve_decision. Defined.

(** Field assignments [message.f = v] of the handlers. *)
Definition set_text (v : option JsString) (m : Message) : Message :=
  let 'mkMessage a b c d _ f g h i j k l n o p q r s := m in
  mkMessage a b c d v f g h i j k l n o p q r s.

Definition set_isRead (v : bool) (m : Message) : Message :=
  let 'mkMessage a b c d e f g h _ j k l n o p q r s := m in
  mkMessage a b c d e f g h v j k l n o p q r s.

Definition set_isEdited (v : bool) (m : Message) : Message :=
  let 'mkMessage a b c d e f g h i _ k l n o p q r s := m in
  mkMessage a b c d e f g h i v k l n o p q r s.

Definition set_editedAt (v : option Date) (m : Message) : Message :=
  let 'mkMessage a b c d e f g h i j _ l n o p q r s := m in
  mkMessage a b c d e f g h i j v l n o p q r s.

Definition set_deletedForSender (v : bool) (m : Message) : Message :=
  let 'mkMessage a b c d e f g h i j k _ n o p q r s := m in
  mkMessage a b c d e f g h i j k v n o p q r s.

Definition set_deletedForReceiver (v : bool) (m : Message) : Message :=
  let 'mkMessage a b c d e f g h i j k l _ o p q r s := m in
  mkMessage a b c d e f g h i j k l v o p q r s.

Definition set_deletedForEveryone (v : bool) (m : Message) : Message :=
  let 'mkMessage a b c d e f g h i j k l n _ p q r s := m in
  mkMessage a b c d e f g h i j k l n v p q r s.

Definition set_deletedForUsers (v : option (list ObjectId)) (m : Message) : Message :=
  let 'mkMessage a b c d e f g h i j k l n o _ q r s := m in
  mkMessage a b c d e f g h i j k l n o v q r s.

Definition set_deletedAt (v : option Date) (m : Message) : Message :=
  let 'mkMessage a b c d e f g h i j k l n o p _ r s := m in
  mkMessage a b c d e f g h i j k l n o p v r s.

(** [new Message(fields)]: the schema defaults fill what the caller left
    out ([isRead], [isEdited] and the deletion flags default to [false],
    [deletedForUsers] to the empty array); [timestamps: true] stamps
    [createdAt] when the document is first saved. *)
Definition newMessage_doc (id : ObjectId) (snd : ObjectId)
    (rcv grp : option ObjectId) (txt img vid : option JsString)
    (ty : MessageType) (read : bool) (removed : option ObjectId)
    (now : Date) : Message :=
  {| _id := id; sender := snd; receiver := rcv; group := grp;
     text := txt; imageUrl := img; videoUrl := vid; messageType := ty;
     isRead := read; isEdited := false; editedAt := None;
     deletedForSender := false; deletedForReceiver := false;
     deletedForEveryone := false; deletedForUsers := Some [];
     deletedAt := None; removedMemberId := removed; createdAt := now |}.

(** The [pre('validate')] hook of the schema, lines 91-99: a message has
    a receiver or a group, and not both. *)
Inductive ValidationError :=
  | EitherReceiverOrGroup
  | CannotSpecifyBoth
  | TextTooLong.

Definition preValidate (m : Message) : option ValidationError :=
  if bool_decide (receiver m = None ∧ group m = None) then Some EitherReceiverOrGroup
  else if bool_decide (receiver m ≠ None ∧ group m ≠ None) then Some CannotSpecifyBoth
  else None.

(** The schema validators that can fail on a well-typed document:
    [text: { maxlength: 1000 }]. *)
Definition maxlength : nat := 1000.

Definition schemaValidate (m : Message) : option ValidationError :=
  match text m with
  | Some t => if bool_decide (length t ≤ maxlength) then None else Some TextTooLong
  | None => None
  end.

Definition validate (m : Message) : option ValidationError :=
  match preValidate m with
  | Some e => Some e
  | None => schemaValidate m
  end.

(** A document that Mongoose has loaded carries the defaults of the
    schema for the paths the stored row lacks, and [save()] writes them
    with the rest: a row stored without [deletedForUsers] comes back
    from a save with the empty array. *)
Definition withDefaults (m : Message) : Message :=
  set_deletedForUsers (Some (default [] (deletedForUsers m))) m.

(** [doc.save()]. Mongoose runs the [pre('validate')] hook on every save
    and the validators of the paths that were set or modified. A new
    document is inserted; a loaded one replaces the stored document with
    its [_id], the defaults filled in. The flag [textModified] says
    whether the handler assigned [text] before saving. *)
Definition replaceDoc (m : Message) (store : list Message) : list Message :=
  (λ d, if bool_decide (_id d = _id m) then m else d) <$> store.

Definition saveNew (m : Message) (store : list Message)
    : ValidationError + list Message :=
  match validate m with
  | Some e => inl e
  | None => inr (store ++ [m])
  end.

Definition saveLoaded (textModified : bool) (m : Message) (store : list Message)
    : ValidationError + list Message :=
  match (if textModified then validate m else preValidate m) with
  | Some e => inl e
  | None => inr (replaceDoc (withDefaults m) store)
  end.

(** [Message.findById] and [Message.findOne({ _id, sender })]. *)
Definition findById (id : ObjectId) (store : list Message) : option Message :=
  snd <$> list_find (λ d, _id d = id) store.

Definition findOneByIdAndSender (id u : ObjectId) (store : list Message)
    : option Message :=
  snd <$> list_find (λ d, _id d = id ∧ sender d = u) store.

(** ** Users, groups, presence and sockets *)

(** Modelled from the spec: the user document of [models/user.ts], whose
    schema is not among the sources. The specification gives an identity
    a username and a directional block list; these are the two fields
    the handlers read. *)
Record User := mkUser {
  username : string;
  blockedUsers : list ObjectId
}.

(** [models/group.ts]: the member entries and the fields the handlers
    read or write. *)
Inductive Role := admin | member.

Record Member := mkMember {
  m_user : ObjectId;
  m_role : Role;
  m_joinedAt : Date;
  m_unreadCount : nat;
  m_lastReadAt : option Date
}.

Record LatestMessage := mkLatest {
  l_messageId : ObjectId;
  l_text : option JsString;
  l_messageType : MessageType;
  l_sender : ObjectId;
  l_senderUsername : string;
  l_createdAt : Date
}.

Record Group := mkGroup {
  members : list Member;
  leftMembers : list (ObjectId * Date);
  removedMembers : list (ObjectId * Date * ObjectId);
  latestMessage : option LatestMessage;
  isActive : bool
}.

(** The rooms of Socket.IO that the handlers name: [chat_<a>_<b>] with
    the two ids sorted, and [group_<id>]. *)
Inductive Room :=
  | chat_room (a b : ObjectId)
  | group_room (g : ObjectId).

Global Instance Room_eq_dec : EqDecision Room.
Proof. solve_decision. Defined.

(** [[x, y].sort().join('_')] *)
Definition chatRoomOf (x y : ObjectId) : Room :=
  chat_room (N.min x y) (N.max x y).

(** A live socket after [socketAuthMiddleware]: the identity it was
    authenticated as and the rooms it has joined. *)
Record CustomSocket := mkSocket {
  s_id : SocketId;
  s_userId : ObjectId;
  s_username : string;
  s_rooms : list Room
}.

(** An entry of the [onlineUsers] map. *)
Record OnlineUser := mkOnline {
  o_userId : ObjectId;
  o_socketId : SocketId;
  o_username : string
}.

(** A JavaScript [Map] keeps its keys in insertion order; [set] on a key
    that is present overwrites the value in place. *)
Section JsMap.

Context {V : Type}.

Fixpoint jsmap_set (k : ObjectId) (v : V) (m : list (ObjectId * V))
    : list (ObjectId * V) :=
  match m with
  | [] => [(k, v)]
  | (k', v') :: m' =>
      if bool_decide (k' = k) then (k, v) :: m' else (k', v') :: jsmap_set k v m'
  end.

Definition jsmap_delete (k : ObjectId) (m : list (ObjectId * V))
    : list (ObjectId * V) :=
  filter (λ e, e.1 ≠ k) m.

Definition jsmap_get (k : ObjectId) (m : list (ObjectId * V)) : option V :=
  snd <$> (snd <$> list_find (λ e, e.1 = k) m).

Definition jsmap_values (m : list (ObjectId * V)) : list V := snd <$> m.

End JsMap.

Record World := mkWorld {
  messages : list Message;                    (* the Message collection *)
  users : gmap ObjectId User;                 (* the User collection *)
  groups : gmap ObjectId Group;               (* the Group collection *)
  onlineUsers : list (ObjectId * OnlineUser); (* the presence registry *)
  sockets : gmap SocketId CustomSocket;       (* io.sockets.sockets *)
  userRooms : list (ObjectId * list Room);    (* group-room bookkeeping *)
  nextObjectId : ObjectId                     (* new ObjectId() *)
}.

Definition set_messages (v : list Message) (w : World) : World :=
  mkWorld v (users w) (groups w) (onlineUsers w) (sockets w) (userRooms w)
          (nextObjectId w).

Definition set_groups (v : gmap ObjectId Group) (w : World) : World :=
  mkWorld (messages w) (users w) v (onlineUsers w) (sockets w) (userRooms w)
          (nextObjectId w).

Definition set_onlineUsers (v : list (ObjectId * OnlineUser)) (w : World) : World :=
  mkWorld (messages w) (users w) (groups w) v (sockets w) (userRooms w)
          (nextObjectId w).

Definition set_sockets (v : gmap SocketId CustomSocket) (w : World) : World :=
  mkWorld (messages w) (users w) (groups w) (onlineUsers w) v (userRooms w)
          (nextObjectId w).

Definition set_userRooms (v : list (ObjectId * list Room)) (w : World) : World :=
  mkWorld (messages w) (users w) (groups w) (onlineUsers w) (sockets w) v
          (nextObjectId w).

Definition bumpObjectId (w : World) : World :=
  mkWorld (messages w) (users w) (groups w) (onlineUsers w) (sockets w)
          (userRooms w) (N.succ (nextObjectId w)).

(** ** Events *)

Inductive EventName :=
  | receiveMessage | messageSent | messagesRead | newMessage
  | messageEdited | messageDeletedForMe | messageDeletedForEveryone
  | onlineUsersEv | userOnline | userOffline | errorEv.

Global Instance EventName_eq_dec : EqDecision EventName.
Proof. solve_decision. Defined.

(** What an event carries: a stored message, the echo object built for
    a suppressed direct send, a reader id, a presence notice, the
    presence snapshot, or an error text. *)
Inductive Body :=
  | doc (m : Message)
  | echo (id sender receiver : ObjectId) (text : JsString)
         (messageType : MessageType) (isRead : bool) (createdAt : Date)
  | reader (senderId : ObjectId)
  | presence (userId : ObjectId) (username : string)
  | snapshot (l : list OnlineUser)
  | failure (message : string).

(** [socket.emit] and [io.to(socketId).emit] address one socket;
    [io.to(room).emit] addresses the sockets joined to a room. *)
Inductive Target :=
  | to_socket (s : SocketId)
  | to_room (r : Room).

Record Event := mkEvent {
  e_target : Target;
  e_name : EventName;
  e_body : Body
}.

Definition Out : Type := World * list Event.

(** [Array.from(onlineUsers.values()).find(user => user.userId === id)] *)
Definition findOnline (id : ObjectId) (w : World) : option OnlineUser :=
  snd <$> list_find (λ o, o_userId o = id) (jsmap_values (onlineUsers w)).

(** [u.blockedUsers?.includes(id)] on a user that may be missing. *)
Definition hasBlocked (u : option User) (id : ObjectId) : bool :=
  match u with
  | Some u => bool_decide (id ∈ blockedUsers u)
  | None => false
  end.

(** ** The socket handlers ([services/socketService.ts]) *)

(** The content kinds a client may declare. *)
Inductive ClientMessageType := c_text | c_image | c_video.

Definition kindOf (t : ClientMessageType) : MessageType :=
  match t with c_text => text_t | c_image => image_t | c_video => video_t end.

Record SendData := mkSend {
  receiverId : ObjectId;
  d_text : option JsString;
  d_imageData : option JsString;
  d_videoData : option JsString;
  d_messageType : option ClientMessageType
}.

Definition emit (sock : CustomSocket) (n : EventName) (b : Body) : Event :=
  mkEvent (to_socket (s_id sock)) n b.

Definition emitTo (s : SocketId) (n : EventName) (b : Body) : Event :=
  mkEvent (to_socket s) n b.

Definition emitError (sock : CustomSocket) (msg : string) : list Event :=
  [emit sock errorEv (failure msg)].

(** [data.text || ''] *)
Definition orEmpty (t : option JsString) : JsString := default [] t.

(** Lines 225-237: the receiver is taken from the presence registry and
    its registered socket is asked whether it has joined the room of
    the pair. *)
Definition receiverViewing (w : World) (senderId rcvId : ObjectId) : bool :=
  match findOnline rcvId w with
  | Some receiverUser =>
      match sockets w !! o_socketId receiverUser with
      | Some receiverSocketInstance =>
          bool_decide (chatRoomOf senderId rcvId ∈ s_rooms receiverSocketInstance)
      | None => false
      end
  | None => false
  end.

(** Lines 239-254: the fields of the document by content kind. *)
Definition directMessageData (id senderId rcvId : ObjectId)
    (ty : ClientMessageType) (txt img vid : option JsString)
    (read : bool) (now : Date) : Message :=
  match ty with
  | c_text =>
      newMessage_doc id senderId (Some rcvId) None (Some (orEmpty txt)) None None
                     text_t read None now
  | c_image =>
      newMessage_doc id senderId (Some rcvId) None (Some []) img None
                     image_t read None now
  | c_video =>
      newMessage_doc id senderId (Some rcvId) None (Some []) None vid
                     video_t read None now
  end.

Definition handleSendMessage (w : World) (socket : CustomSocket)
    (data : SendData) (now : Date) : Out :=
  let senderId := s_userId socket in
  let rcvId := receiverId data in
  let ty := default c_text (d_messageType data) in
  let receiver := users w !! rcvId in
  let sender := users w !! senderId in
  let suppressed :=
    (bumpObjectId w,
     [emit socket messageSent
        (echo (nextObjectId w) senderId rcvId (orEmpty (d_text data))
              (kindOf ty) false now)]) in
  if hasBlocked receiver senderId then suppressed
  else if hasBlocked sender rcvId then suppressed
  else
    let receiverUser := findOnline rcvId w in
    let isRead := receiverViewing w senderId rcvId in
    let message :=
      directMessageData (nextObjectId w) senderId rcvId ty (d_text data)
                        (d_imageData data) (d_videoData data) isRead now in
    match saveNew message (messages w) with
    | inl _ => (bumpObjectId w, emitError socket "Failed to send message")
    | inr store =>
        (set_messages store (bumpObjectId w),
         match findOnline rcvId w with
         | Some receiverSocket =>
             [emitTo (o_socketId receiverSocket) receiveMessage (doc message)]
         | None => []
         end
         ++ [emit socket messageSent (doc message)]
         ++ (if isRead && bool_decide (is_Some receiverUser)
             then [emit socket messagesRead (reader rcvId)] else []))
    end.

(** [Message.updateMany({ sender, receiver, isRead: false }, { isRead: true })] *)
Definition markRead (senderId rcvId : ObjectId) (store : list Message)
    : list Message :=
  (λ d, if bool_decide (sender d = senderId ∧ receiver d = Some rcvId
                        ∧ isRead d = false)
        then set_isRead true d else d) <$> store.

Definition handleMarkMessagesAsRead (w : World) (socket : CustomSocket)
    (senderId : ObjectId) : Out :=
  (set_messages (markRead senderId (s_userId socket) (messages w)) w,
   match findOnline senderId w with
   | Some senderSocket =>
       [emitTo (o_socketId senderSocket) messagesRead (reader senderId)]
   | None => []
   end).

(** [socket.join] and [socket.leave] act on the rooms of the live socket. *)
Definition joinRoom (r : Room) (s : CustomSocket) : CustomSocket :=
  mkSocket (s_id s) (s_userId s) (s_username s)
           (if bool_decide (r ∈ s_rooms s) then s_rooms s else s_rooms s ++ [r]).

Definition leaveRoom (r : Room) (s : CustomSocket) : CustomSocket :=
  mkSocket (s_id s) (s_userId s) (s_username s) (filter (λ r', r' ≠ r) (s_rooms s)).

Definition handleJoinChat (w : World) (socket : CustomSocket)
    (rcvId : ObjectId) : World :=
  set_sockets (alter (joinRoom (chatRoomOf (s_userId socket) rcvId))
                     (s_id socket) (sockets w)) w.

Definition handleLeaveChat (w : World) (socket : CustomSocket)
    (rcvId : ObjectId) : World :=
  set_sockets (alter (leaveRoom (chatRoomOf (s_userId socket) rcvId))
                     (s_id socket) (sockets w)) w.

(** The 12-hour window of edit and delete-for-everyone. *)
Definition twelveHoursInMs : Z := 12 * 60 * 60 * 1000.

Definition messageAge (now : Date) (m : Message) : Z := now - createdAt m.

(** Lines 371-398: the fan-out of an edited message. [populate] leaves
    [null] where the referenced user or group no longer exists, and the
    branches test the populated fields. *)
Definition fanoutToParties (w : World) (socket : CustomSocket)
    (n : EventName) (m : Message) : list Event :=
  [emit socket n (doc m)]
  ++ match receiver m with
     | Some r =>
         match users w !! r, findOnline r w with
         | Some _, Some receiverSocket =>
             [emitTo (o_socketId receiverSocket) n (doc m)]
         | _, _ => []
         end
     | None => []
     end
  ++ match group m with
     | Some g =>
         match groups w !! g with
         | Some _ => [mkEvent (to_room (group_room g)) n (doc m)]
         | None => []
         end
     | None => []
     end.

Definition handleEditMessage (w : World) (socket : CustomSocket)
    (messageId : ObjectId) (newText : JsString) (now : Date) : Out :=
  match findOneByIdAndSender messageId (s_userId socket) (messages w) with
  | None =>
      (w, emitError socket
            "Message not found or you don't have permission to edit it")
  | Some message =>
      if bool_decide (messageAge now message > twelveHoursInMs)%Z then
        (w, emitError socket "Cannot edit message older than 12 hours")
      else if bool_decide (messageType message ≠ text_t) then
        (w, emitError socket "Only text messages can be edited")
      else
        let message' :=
          set_editedAt (Some now)
            (set_isEdited true (set_text (Some (trim newText)) message)) in
        match saveLoaded true message' (messages w) with
        | inl _ => (w, emitError socket "Failed to edit message")
        | inr store =>
            (set_messages store w,
             fanoutToParties w socket messageEdited message')
        end
  end.

(** [Group.findOne({ _id, 'members.user': userId, isActive: true })] *)
Definition isMemberOf (u : ObjectId) (g : Group) : bool :=
  bool_decide (u ∈ m_user <$> members g).

Definition findActiveGroupOfMember (g u : ObjectId) (w : World) : option Group :=
  match groups w !! g with
  | Some grp => if isActive grp && isMemberOf u grp then Some grp else None
  | None => None
  end.

(** [Group.findOne({ _id, 'removedMembers.user': userId, isActive: true })] *)
Definition findActiveGroupOfRemoved (g u : ObjectId) (w : World) : option Group :=
  match groups w !! g with
  | Some grp =>
      if isActive grp && bool_decide (u ∈ (λ e, e.1.1) <$> removedMembers grp)
      then Some grp else None
  | None => None
  end.

(** Lines 449-461: the flag a group member flips. *)
Definition pushDeletedForUser (u : ObjectId) (m : Message) : Message :=
  let l := default [] (deletedForUsers m) in
  set_deletedForUsers (Some (if bool_decide (u ∈ l) then l else l ++ [u])) m.

Definition handleGroupMessageDeleteForMe (w : World) (socket : CustomSocket)
    (message : Message) (g : ObjectId) (now : Date) : Out :=
  match findActiveGroupOfMember g (s_userId socket) w with
  | None =>
      (w, emitError socket "You don't have permission to delete this message")
  | Some _ =>
      let flagged :=
        if bool_decide (sender message = s_userId socket)
        then set_deletedForSender true message
        else pushDeletedForUser (s_userId socket) message in
      let message' := set_deletedAt (Some now) flagged in
      match saveLoaded false message' (messages w) with
      | inl _ => (w, emitError socket "Failed to delete message")
      | inr store =>
          (set_messages store w, [emit socket messageDeletedForMe (doc message')])
      end
  end.

Definition handleNormalMessageDeleteForMe (w : World) (socket : CustomSocket)
    (message : Message) (now : Date) : Out :=
  let isSender := bool_decide (sender message = s_userId socket) in
  let isReceiver := bool_decide (receiver message = Some (s_userId socket)) in
  if negb isSender && negb isReceiver then
    (w, emitError socket "You don't have permission to delete this message")
  else
    let flagged :=
      if isSender then set_deletedForSender true message
      else set_deletedForReceiver true message in
    let message' := set_deletedAt (Some now) flagged in
    match saveLoaded false message' (messages w) with
    | inl _ => (w, emitError socket "Failed to delete message")
    | inr store =>
        (set_messages store w, [emit socket messageDeletedForMe (doc message')])
    end.

Definition handleDeleteMessageForMe (w : World) (socket : CustomSocket)
    (messageId : ObjectId) (now : Date) : Out :=
  match findById messageId (messages w) with
  | None => (w, emitError socket "Message not found")
  | Some message =>
      match group message with
      | Some g => handleGroupMessageDeleteForMe w socket message g now
      | None => handleNormalMessageDeleteForMe w socket message now
      end
  end.

(** The fixed text of a message deleted for everyone. *)
Definition tombstone : JsString := js "This message was deleted".

(** Lines 547-550 and 580-583, the same four assignments. *)
Definition tombstoned (now : Date) (m : Message) : Message :=
  set_isEdited true
    (set_deletedAt (Some now)
       (set_deletedForEveryone true (set_text (Some tombstone) m))).

(** Lines 561-568: the cached latest message of the group follows the
    rewrite. *)
Definition tombstoneLatest (grp : Group) (m : Message) (senderName : string)
    : Group :=
  mkGroup (members grp) (leftMembers grp) (removedMembers grp)
    (Some (mkLatest (_id m) (Some tombstone) (messageType m) (sender m)
             senderName (createdAt m)))
    (isActive grp).

(** The handlers dereference the populated sender and group after the
    save; when one of them no longer exists the dereference throws and
    the [catch] of the caller reports the failure, the message staying
    rewritten. [latestMessage] is a nested path of the group schema:
    [group.latestMessage] is an object on every group, and on a group
    that caches no message its [messageId] is undefined, so that
    [group.latestMessage.messageId.toString()] of line 559 throws as
    well, before the announcement to the room. *)
Definition handleGroupMessageDeleteForEveryone (w : World)
    (socket : CustomSocket) (message : Message) (g : ObjectId) (now : Date)
    : Out :=
  let message' := tombstoned now message in
  match saveLoaded true message' (messages w) with
  | inl _ => (w, emitError socket "Failed to delete message")
  | inr store =>
      let w1 := set_messages store w in
      match groups w !! g with
      | None => (w1, emitError socket "Failed to delete message")
      | Some grp =>
          let broadcast :=
            [mkEvent (to_room (group_room g)) messageDeletedForEveryone
                     (doc message')] in
          match latestMessage grp with
          | Some lm =>
              if bool_decide (l_messageId lm = _id message') then
                match users w !! sender message' with
                | None => (w1, emitError socket "Failed to delete message")
                | Some u =>
                    (set_groups
                       (<[g := tombstoneLatest grp message' (username u)]>
                          (groups w)) w1,
                     broadcast)
                end
              else (w1, broadcast)
          | None => (w1, emitError socket "Failed to delete message")
          end
      end
  end.

Definition handleNormalMessageDeleteForEveryone (w : World)
    (socket : CustomSocket) (message : Message) (now : Date) : Out :=
  let message' := tombstoned now message in
  match saveLoaded true message' (messages w) with
  | inl _ => (w, emitError socket "Failed to delete message")
  | inr store =>
      let w1 := set_messages store w in
      match users w !! sender message' with
      | None => (w1, emitError socket "Failed to delete message")
      | Some _ =>
          (w1,
           match findOnline (sender message') w with
           | Some senderSocket =>
               [emitTo (o_socketId senderSocket) messageDeletedForEveryone
                       (doc message')]
           | None => []
           end
           ++ match receiver message' with
              | Some r =>
                  match users w !! r, findOnline r w with
                  | Some _, Some receiverSocket =>
                      [emitTo (o_socketId receiverSocket)
                              messageDeletedForEveryone (doc message')]
                  | _, _ => []
                  end
              | None => []
              end)
      end
  end.

Definition handleDeleteMessageForEveryone (w : World) (socket : CustomSocket)
    (messageId : ObjectId) (now : Date) : Out :=
  match findOneByIdAndSender messageId (s_userId socket) (messages w) with
  | None =>
      (w, emitError socket
            "Message not found or you don't have permission to delete it")
  | Some message =>
      if bool_decide (messageAge now message > twelveHoursInMs)%Z then
        (w, emitError socket "Cannot delete message older than 12 hours")
      else
        match group message with
        | Some g => handleGroupMessageDeleteForEveryone w socket message g now
        | None => handleNormalMessageDeleteForEveryone w socket message now
        end
  end.

(** [a || b] on strings: the empty string is falsy. *)
Definition orElse (a b : string) : string :=
  if bool_decide (a = "") then b else a.

(** Lines 646-665: the members the sender has blocked and the members
    who have blocked the sender, the sender left out. *)
Definition blockedMembers (w : World) (senderId : ObjectId) (sender : User)
    (grp : Group) : list ObjectId :=
  filter (λ memberId, memberId ≠ senderId ∧ memberId ∈ blockedUsers sender)
         (m_user <$> members grp).

Definition blockingMembers (w : World) (senderId : ObjectId) (grp : Group)
    : list ObjectId :=
  filter (λ memberId, memberId ≠ senderId
                      ∧ hasBlocked (users w !! memberId) senderId = true)
         (m_user <$> members grp).

Record GroupSendData := mkGroupSend {
  groupId : ObjectId;
  g_text : option JsString;
  g_imageData : option JsString;
  g_videoData : option JsString;
  g_messageType : option ClientMessageType
}.

(** Lines 716-724: one [newMessage] per member found in the presence
    registry, in member order. *)
Definition fanoutToMembers (w : World) (grp : Group) (m : Message)
    : list Event :=
  omap (λ memberId,
          (λ onlineUser, emitTo (o_socketId onlineUser) newMessage (doc m))
            <$> findOnline memberId w)
       (m_user <$> members grp).

Definition handleSendGroupMessage (w : World) (socket : CustomSocket)
    (data : GroupSendData) (now : Date) : Out :=
  let senderId := s_userId socket in
  let ty := default c_text (g_messageType data) in
  match findActiveGroupOfMember (groupId data) senderId w with
  | None =>
      match findActiveGroupOfRemoved (groupId data) senderId w with
      | Some _ => (w, emitError socket "You were removed from this group")
      | None => (w, emitError socket "Group not found or access denied")
      end
  | Some grp =>
      match users w !! senderId with
      | None => (w, emitError socket "Sender not found")
      | Some sender =>
          let blocked := blockedMembers w senderId sender grp in
          let blocking := blockingMembers w senderId grp in
          let message :=
            newMessage_doc (nextObjectId w) senderId None (Some (groupId data))
              (g_text data) (g_imageData data) (g_videoData data) (kindOf ty)
              false None now in
          match saveNew message (messages w) with
          | inl _ => (bumpObjectId w, emitError socket "Failed to send message")
          | inr store =>
              let latest :=
                mkLatest (_id message) (text message) (messageType message)
                         senderId
                         (orElse (username sender)
                                 (orElse (s_username socket) "Unknown"))
                         (createdAt message) in
              let grp' :=
                mkGroup (members grp) (leftMembers grp) (removedMembers grp)
                        (Some latest) (isActive grp) in
              (set_groups (<[groupId data := grp']> (groups w))
                 (set_messages store (bumpObjectId w)),
               fanoutToMembers w grp message
               ++ [emit socket messageSent (doc message)])
          end
      end
  end.

(** ** Group rooms and the group read marker *)

Definition handleJoinGroupChat (w : World) (socket : CustomSocket)
    (g : ObjectId) : Out :=
  let u := s_userId socket in
  match findActiveGroupOfMember g u w with
  | None =>
      match findActiveGroupOfRemoved g u w with
      | Some _ => (w, emitError socket "You were removed from this group")
      | None => (w, emitError socket "You are not a member of this group")
      end
  | Some _ =>
      let userRoomSet := default [] (jsmap_get u (userRooms w)) in
      if bool_decide (group_room g ∈ userRoomSet) then
        (set_userRooms (jsmap_set u userRoomSet (userRooms w)) w, [])
      else
        (set_userRooms (jsmap_set u (userRoomSet ++ [group_room g]) (userRooms w))
           (set_sockets (alter (joinRoom (group_room g)) (s_id socket)
                               (sockets w)) w),
         [])
  end.

Definition handleLeaveGroupChat (w : World) (socket : CustomSocket)
    (g : ObjectId) : World :=
  let u := s_userId socket in
  let w1 :=
    set_sockets (alter (leaveRoom (group_room g)) (s_id socket) (sockets w)) w in
  match jsmap_get u (userRooms w) with
  | Some rooms =>
      set_userRooms (jsmap_set u (filter (λ r, r ≠ group_room g) rooms)
                             (userRooms w)) w1
  | None => w1
  end.

(** [{ $set: { 'members.$.lastReadAt': now, 'members.$.unreadCount': 0 } }]
    on the first member entry of the user. *)
Fixpoint markMemberRead (u : ObjectId) (now : Date) (ms : list Member)
    : list Member :=
  match ms with
  | [] => []
  | m :: ms' =>
      if bool_decide (m_user m = u)
      then mkMember (m_user m) (m_role m) (m_joinedAt m) 0 (Some now) :: ms'
      else m :: markMemberRead u now ms'
  end.

Definition handleMarkGroupMessagesAsRead (w : World) (socket : CustomSocket)
    (g : ObjectId) (now : Date) : World :=
  match groups w !! g with
  | Some grp =>
      if isMemberOf (s_userId socket) grp then
        set_groups
          (<[g := mkGroup (markMemberRead (s_userId socket) now (members grp))
                          (leftMembers grp) (removedMembers grp)
                          (latestMessage grp) (isActive grp)]> (groups w)) w
      else w
  | None => w
  end.

(** ** Presence: connection and disconnection *)

(** [socket.userId && socket.username]: an authenticated socket always
    has an id; the name is truthy when it is not empty. *)
Definition named (socket : CustomSocket) : bool :=
  negb (bool_decide (s_username socket = "")).

(** Lines 111-149. *)
Definition notifyUserOnlineStatus (w : World) (userId : ObjectId)
    (name : string) (isOnline : bool) : list Event :=
  match users w !! userId with
  | None => []
  | Some user =>
      omap (λ onlineUser,
              if bool_decide (o_userId onlineUser = userId) then None
              else
                match users w !! o_userId onlineUser with
                | None => None
                | Some otherUser =>
                    let isBlockedByThem :=
                      bool_decide (userId ∈ blockedUsers otherUser) in
                    let isBlockedByMe :=
                      bool_decide (o_userId onlineUser ∈ blockedUsers user) in
                    if negb isBlockedByThem && negb isBlockedByMe then
                      match sockets w !! o_socketId onlineUser with
                      | Some _ =>
                          Some (emitTo (o_socketId onlineUser)
                                  (if isOnline then userOnline else userOffline)
                                  (presence userId name))
                      | None => None
                      end
                    else None
                end)
           (jsmap_values (onlineUsers w))
  end.

(** Lines 71-108. *)
Definition shownOnline (w : World) (currentUserId : ObjectId)
    (currentUser : User) (onlineUser : OnlineUser) : bool :=
  if bool_decide (o_userId onlineUser = currentUserId) then true
  else
    match users w !! o_userId onlineUser with
    | None => false
    | Some otherUser =>
        let isBlockedByMe :=
          bool_decide (o_userId onlineUser ∈ blockedUsers currentUser) in
        let isBlockedByThem :=
          bool_decide (currentUserId ∈ blockedUsers otherUser) in
        negb isBlockedByMe && negb isBlockedByThem
    end.

Definition getFilteredOnlineUsers (w : World) (currentUserId : ObjectId)
    (allOnlineUsers : list OnlineUser) : list OnlineUser :=
  match users w !! currentUserId with
  | None => allOnlineUsers
  | Some currentUser =>
      filter (λ onlineUser, shownOnline w currentUserId currentUser onlineUser = true)
             allOnlineUsers
  end.

(** Socket.IO registers the socket before the connection handler runs
    (lines 829-847) and unregisters it before the [disconnect] listener
    runs (lines 864-878). *)
Definition handleSocketConnection (w : World) (socket : CustomSocket) : Out :=
  let w1 := set_sockets (<[s_id socket := socket]> (sockets w)) w in
  let w2 :=
    set_onlineUsers
      (jsmap_set (s_userId socket)
               (mkOnline (s_userId socket) (s_id socket) (s_username socket))
               (onlineUsers w1)) w1 in
  (w2,
   (if named socket
    then notifyUserOnlineStatus w2 (s_userId socket) (s_username socket) true
    else [])
   ++ [emit socket onlineUsersEv
         (snapshot (getFilteredOnlineUsers w2 (s_userId socket)
                      (jsmap_values (onlineUsers w2))))]).

Definition handleDisconnect (w : World) (socket : CustomSocket) : Out :=
  let w1 := set_sockets (delete (s_id socket) (sockets w)) w in
  let w2 := set_onlineUsers (jsmap_delete (s_userId socket) (onlineUsers w1)) w1 in
  let w3 := set_userRooms (jsmap_delete (s_userId socket) (userRooms w2)) w2 in
  (w3,
   if named socket
   then notifyUserOnlineStatus w3 (s_userId socket) (s_username socket) false
   else []).

(** ** The HTTP controllers ([controllers/messageController.ts]) *)

Inductive Json :=
  | j_message (text : string)
  | j_doc (m : Message)
  | j_done (text : string) (messageId : ObjectId)
  | j_modified (modifiedCount : nat).

Record Response := mkResponse {
  status : nat;
  json : Json
}.

Definition Reply : Type := World * Response.

(** [s.startsWith(p)] *)
Fixpoint startsWith (p s : JsString) : bool :=
  match p, s with
  | [], _ => true
  | c :: p', d :: s' => bool_decide (c = d) && startsWith p' s'
  | _ :: _, [] => false
  end.

(** [!x] on an optional string: missing or empty. *)
Definition blank (x : option JsString) : bool :=
  match x with Some (_ :: _) => false | _ => true end.

(** [!text?.trim()] *)
Definition blankAfterTrim (x : option JsString) : bool :=
  blank (trim <$> x).

Record SendBody := mkSendBody {
  b_receiverId : option ObjectId;
  b_text : option JsString;
  b_imageData : option JsString;
  b_videoData : option JsString;
  b_messageType : option ClientMessageType  (* [None]: missing or not listed *)
}.

Definition sendMessage (w : World) (userId : option ObjectId) (body : SendBody)
    (now : Date) : Reply :=
  match userId, b_receiverId body, b_messageType body with
  | None, _, _ => (w, mkResponse 401 (j_message "User not authenticated"))
  | Some _, None, _ => (w, mkResponse 400 (j_message "Receiver ID is required"))
  | Some _, Some _, None => (w, mkResponse 400 (j_message "Invalid message type"))
  | Some senderId, Some rcvId, Some ty =>
      if match ty with c_text => blankAfterTrim (b_text body) | _ => false end then
        (w, mkResponse 400 (j_message "Text message cannot be empty"))
      else if match ty with c_image => blank (b_imageData body) | _ => false end then
        (w, mkResponse 400 (j_message "Image data is required for image messages"))
      else if match ty with c_video => blank (b_videoData body) | _ => false end then
        (w, mkResponse 400 (j_message "Video data is required for video messages"))
      else if match ty with
              | c_image => negb (startsWith (js "data:image/")
                                            (orEmpty (b_imageData body)))
              | _ => false
              end then
        (w, mkResponse 400 (j_message "Invalid image format"))
      else if match ty with
              | c_video => negb (startsWith (js "data:video/")
                                            (orEmpty (b_videoData body)))
              | _ => false
              end then
        (w, mkResponse 400 (j_message "Invalid video format"))
      else if hasBlocked (users w !! rcvId) senderId then
        (w, mkResponse 403 (j_message "You are blocked by this user"))
      else if hasBlocked (users w !! senderId) rcvId then
        (w, mkResponse 403 (j_message "You have blocked this user"))
      else
        let message :=
          directMessageData (nextObjectId w) senderId rcvId ty
            (trim <$> b_text body) (b_imageData body) (b_videoData body)
            false now in
        match saveNew message (messages w) with
        | inl _ => (bumpObjectId w, mkResponse 500 (j_message "Internal server error"))
        | inr store =>
            (set_messages store (bumpObjectId w), mkResponse 201 (j_doc message))
        end
  end.

Definition markMessagesAsRead (w : World) (userId : option ObjectId)
    (senderId : ObjectId) : Reply :=
  match userId with
  | None => (w, mkResponse 401 (j_message "User not authenticated"))
  | Some rcvId =>
      (set_messages (markRead senderId rcvId (messages w)) w,
       mkResponse 200
         (j_modified
            (length (filter (λ d, sender d = senderId ∧ receiver d = Some rcvId
                                  ∧ isRead d = false) (messages w)))))
  end.

Definition editMessage (w : World) (userId : option ObjectId)
    (messageId : option ObjectId) (newText : option JsString) (now : Date)
    : Reply :=
  match userId, messageId with
  | None, _ => (w, mkResponse 401 (j_message "User not authenticated"))
  | Some _, None => (w, mkResponse 400 (j_message "Message ID is required"))
  | Some u, Some id =>
      if blankAfterTrim newText then
        (w, mkResponse 400 (j_message "Text cannot be empty"))
      else
        match findOneByIdAndSender id u (messages w) with
        | None =>
            (w, mkResponse 404
                  (j_message
                     "Message not found or you don't have permission to edit it"))
        | Some message =>
            if bool_decide (messageAge now message > twelveHoursInMs)%Z then
              (w, mkResponse 400
                    (j_message "Cannot edit message older than 12 hours"))
            else if bool_decide (messageType message ≠ text_t) then
              (w, mkResponse 400 (j_message "Only text messages can be edited"))
            else
              let message' :=
                set_editedAt (Some now)
                  (set_isEdited true
                     (set_text (Some (trim (orEmpty newText))) message)) in
              match saveLoaded true message' (messages w) with
              | inl _ => (w, mkResponse 500 (j_message "Internal server error"))
              | inr store => (set_messages store w, mkResponse 200 (j_doc message'))
              end
        end
  end.

Definition deleteMessageForMe (w : World) (userId : option ObjectId)
    (messageId : option ObjectId) (now : Date) : Reply :=
  match userId, messageId with
  | None, _ => (w, mkResponse 401 (j_message "User not authenticated"))
  | Some _, None => (w, mkResponse 400 (j_message "Message ID is required"))
  | Some u, Some id =>
      match findById id (messages w) with
      | None => (w, mkResponse 404 (j_message "Message not found"))
      | Some message =>
          let isSender := bool_decide (sender message = u) in
          let isReceiver := bool_decide (receiver message = Some u) in
          let isGroupMember :=
            match group message with
            | Some g => bool_decide (is_Some (findActiveGroupOfMember g u w))
            | None => false
            end in
          if negb isSender && negb isReceiver && negb isGroupMember then
            (w, mkResponse 403
                  (j_message "You don't have permission to delete this message"))
          else
            let flagged :=
              if isSender then set_deletedForSender true message
              else if isReceiver then set_deletedForReceiver true message
              else pushDeletedForUser u message in
            let message' := set_deletedAt (Some now) flagged in
            match saveLoaded false message' (messages w) with
            | inl _ => (w, mkResponse 500 (j_message "Internal server error"))
            | inr store =>
                (set_messages store w,
                 mkResponse 200 (j_done "Message deleted for you" id))
            end
      end
  end.

(** Lines 431-475 of the controller. *)
Definition deleteMessageForEveryone (w : World) (userId : option ObjectId)
    (messageId : option ObjectId) (now : Date) : Reply :=
  match userId, messageId with
  | None, _ => (w, mkResponse 401 (j_message "User not authenticated"))
  | Some _, None => (w, mkResponse 400 (j_message "Message ID is required"))
  | Some u, Some id =>
      match findOneByIdAndSender id u (messages w) with
      | None =>
          (w, mkResponse 404
                (j_message
                   "Message not found or you don't have permission to delete it"))
      | Some message =>
          if bool_decide (messageAge now message > twelveHoursInMs)%Z then
            (w, mkResponse 400
                  (j_message "Cannot delete message older than 12 hours"))
          else
            let message' :=
              set_deletedAt (Some now) (set_deletedForEveryone true message) in
            match saveLoaded false message' (messages w) with
            | inl _ => (w, mkResponse 500 (j_message "Internal server error"))
            | inr store =>
                (set_messages store w,
                 mkResponse 200 (j_done "Message deleted for everyone" id))
            end
      end
  end.

(** The query of [getConversations], lines 54-83: the direct messages of
    the user that the user has not deleted on their own side, oldest
    first. *)
Definition inConversationsOf (u : ObjectId) (m : Message) : Prop :=
  receiver m ≠ None
  ∧ (sender m = u ∨ receiver m = Some u)
  ∧ (sender m ≠ u ∨ deletedForSender m ≠ true)
  ∧ (receiver m ≠ Some u ∨ deletedForReceiver m ≠ true).

Global Instance inConversationsOf_dec u m : Decision (inConversationsOf u m).
Proof. unfold inConversationsOf. apply _. Defined.

Fixpoint insertByCreatedAt (m : Message) (l : list Message) : list Message :=
  match l with
  | [] => [m]
  | d :: l' =>
      if bool_decide (createdAt m < createdAt d)%Z then m :: l
      else d :: insertByCreatedAt m l'
  end.

Definition sortByCreatedAt (l : list Message) : list Message :=
  foldr insertByCreatedAt [] (reverse l).

Definition getConversations_find (w : World) (u : ObjectId) : list Message :=
  sortByCreatedAt (filter (inConversationsOf u) (messages w)).

(** ** The group controller ([controllers/groupController.ts]) *)

(** The system message that [createGroup], [addMembersToGroup],
    [removeMemberFromGroup] and [leaveGroup] save: sender, group, a text
    and the kind [system]; the removal adds [removedMemberId]. *)
Definition saveSystemMessage (w : World) (userId g : ObjectId) (txt : JsString)
    (removed : option ObjectId) (now : Date) : ValidationError + World :=
  let systemMessage :=
    newMessage_doc (nextObjectId w) userId None (Some g) (Some txt) None None
                   system_t false removed now in
  match saveNew systemMessage (messages w) with
  | inl e => inl e
  | inr store => inr (set_messages store (bumpObjectId w))
  end.

(** The unread count of [getUserGroups], lines 143-181. The filter of
    [countDocuments], clause by clause; [$nin] also matches a document
    without the field. *)
Definition nin (u : ObjectId) (field : option (list ObjectId)) : Prop :=
  match field with
  | Some l => u ∉ l
  | None => True
  end.

Global Instance nin_dec u field : Decision (nin u field).
Proof. destruct field; apply _. Defined.

Definition unreadFilter (g : ObjectId) (lastReadAt : Date) (userId : ObjectId)
    (m : Message) : Prop :=
  group m = Some g
  ∧ (createdAt m > lastReadAt)%Z
  ∧ sender m ≠ userId
  ∧ (nin userId (deletedForUsers m) ∨ deletedForUsers m = None)
  ∧ (sender m ≠ userId ∨ deletedForSender m ≠ true).

Global Instance unreadFilter_dec g t u m : Decision (unreadFilter g t u m).
Proof. unfold unreadFilter. apply _. Defined.

Definition countDocuments (P : Message → Prop) `{!∀ m, Decision (P m)}
    (store : list Message) : nat :=
  length (filter P store).

(** [group.members.find(member => member.user.toString() === userId)] *)
Definition userMember (grp : Group) (userId : ObjectId) : option Member :=
  snd <$> list_find (λ mem, m_user mem = userId) (members grp).

(** The member entry as [Group.find] hands it to the controller at the
    time [now]: the schema gives [lastReadAt] the default [Date.now],
    which Mongoose fills in when it loads an entry stored without one. *)
Definition loadedMember (now : Date) (mem : Member) : Member :=
  mkMember (m_user mem) (m_role mem) (m_joinedAt mem) (m_unreadCount mem)
           (Some (default now (m_lastReadAt mem))).

(** Lines 143-181, on the group loaded at the time [now];
    [userMember.lastReadAt || new Date(0)] of line 152. *)
Definition unreadCount (w : World) (g : ObjectId) (grp : Group)
    (userId : ObjectId) (now : Date) : nat :=
  match userMember grp userId with
  | Some mem =>
      let lastReadAt := default 0%Z (m_lastReadAt (loadedMember now mem)) in
      countDocuments (unreadFilter g lastReadAt userId) (messages w)
  | None => 0
  end.

(** [getUserGroups], lines 128-181: the active groups that list the user
    as a member, as one who left or as one who was removed, each with
    its unread count. *)
Definition listsUser (userId : ObjectId) (grp : Group) : bool :=
  isMemberOf userId grp
  || bool_decide (userId ∈ (λ e, e.1) <$> leftMembers grp)
  || bool_decide (userId ∈ (λ e, e.1.1) <$> removedMembers grp).


(** [result.modifiedCount] of the [updateOne] of the read marker: the
    write modifies the group unless the entry of the user already holds
    both values (an entry read at this very instant was written at this
    instant, when [timestamps: true] stamped the group with it too). *)
Definition markReadModifiedCount (grp : Group) (userId : ObjectId) (now : Date)
    : nat :=
  match userMember grp userId with
  | Some mem =>
      if bool_decide (m_lastReadAt mem = Some now ∧ m_unreadCount mem = 0)
      then 0 else 1
  | None => 0
  end.

(** [markGroupMessagesAsRead], lines 766-803. *)
Definition markGroupMessagesAsRead (w : World) (userId g : ObjectId) (now : Date)
    : Reply :=
  match findActiveGroupOfMember g userId w with
  | None => (w, mkResponse 404 (j_message "Group not found or access denied"))
  | Some grp =>
      (set_groups
         (<[g := mkGroup (markMemberRead userId now (members grp))
                         (leftMembers grp) (removedMembers grp)
                         (latestMessage grp) (isActive grp)]> (groups w)) w,
       mkResponse 200 (j_modified (markReadModifiedCount grp userId now)))
  end.

(** * The vocabulary of the properties *)

(** ** Concrete worlds *)

Definition alice : ObjectId := 1%N.

Definition bob : ObjectId := 2%N.

Definition carol : ObjectId := 3%N.

Definition aliceSocket : CustomSocket := mkSocket 11%N alice "alice" [].

Definition bobSocket : CustomSocket := mkSocket 12%N bob "bob" [].

Definition carolSocket : CustomSocket := mkSocket 13%N carol "carol" [].

Definition online (s : CustomSocket) : ObjectId * OnlineUser :=
  (s_userId s, mkOnline (s_userId s) (s_id s) (s_username s)).

(** The group of Alice, Bob and Carol. *)
Definition team : Group :=
  mkGroup [mkMember alice admin 0%Z 0 (Some 0%Z);
           mkMember bob member 0%Z 0 (Some 0%Z);
           mkMember carol member 0%Z 0 (Some 0%Z)]
          [] [] None true.

(** Alice, Bob and Carol are connected; nobody has blocked anybody. *)
Definition friendly : World :=
  {| messages := [];
     users := {[ alice := mkUser "alice" []; bob := mkUser "bob" [];
                 carol := mkUser "carol" [] ]};
     groups := {[ 7%N := team ]};
     onlineUsers := [online aliceSocket; online bobSocket; online carolSocket];
     sockets := {[ 11%N := aliceSocket; 12%N := bobSocket; 13%N := carolSocket ]};
     userRooms := [];
     nextObjectId := 100%N |}.

(** The same, except that Bob has blocked Alice. *)
Definition bobBlocksAlice : World :=
  mkWorld (messages friendly)
          (<[bob := mkUser "bob" [alice]]> (users friendly))
          (groups friendly) (onlineUsers friendly) (sockets friendly)
          (userRooms friendly) (nextObjectId friendly).

(** The same, except that Alice has blocked Bob. *)
Definition aliceBlocksBob : World :=
  mkWorld (messages friendly)
          (<[alice := mkUser "alice" [bob]]> (users friendly))
          (groups friendly) (onlineUsers friendly) (sockets friendly)
          (userRooms friendly) (nextObjectId friendly).

Definition hi : SendData := mkSend bob (Some (js "hi")) None None (Some c_text).

Definition noon : Date := 1000000%Z.

(** ** Traces *)


(** ** Group delivery *)

(** The deliverable set in the words of the specification: the members
    of the group, without those the sender has blocked and without those
    who have blocked the sender. *)
Definition deliverable (w : World) (senderId : ObjectId) (sender : User)
    (grp : Group) : list ObjectId :=
  filter (λ u, (u ∉ blockedMembers w senderId sender grp)
               ∧ (u ∉ blockingMembers w senderId grp))
         (m_user <$> members grp).

(** The sockets that are handed [newMessage]. *)
Definition newMessageTargets (evs : list Event) : list Target :=
  e_target <$> filter (λ e, e_name e = newMessage) evs.

Definition hello : GroupSendData :=
  mkGroupSend 7%N (Some (js "hello")) None None (Some c_text).

(** Alice has sent "hi" to Bob. *)
Definition afterHi : World := (handleSendMessage friendly aliceSocket hi noon).1.

(** ** Unread messages of a group *)

(** The count in the words of the specification. A message is
    individually deleted for a user when the user is listed in
    [deletedForUsers], or sent it and deleted it on the sender side. *)
Definition individuallyDeletedFor (u : ObjectId) (m : Message) : Prop :=
  u ∈ default [] (deletedForUsers m) ∨ (sender m = u ∧ deletedForSender m = true).

Definition countsAsUnread (g : ObjectId) (lastReadAt : Date) (u : ObjectId)
    (m : Message) : Prop :=
  group m = Some g
  ∧ (lastReadAt < createdAt m)%Z
  ∧ sender m ≠ u
  ∧ ¬ individuallyDeletedFor u m.

Global Instance countsAsUnread_dec g t u m : Decision (countsAsUnread g t u m).
Proof. unfold countsAsUnread, individuallyDeletedFor. apply _. Defined.

(** Alice has sent "hello" to the group. *)
Definition afterHello : World :=
  (handleSendGroupMessage friendly aliceSocket hello noon).1.

(** ** The message store: identities and the receiver/group invariant *)

(** [_id] is the unique key of the collection. *)
Definition uniqueIds (store : list Message) : Prop := NoDup (_id <$> store).

(** Exactly one of the receiver and the group is set. *)
Definition exactlyOne (m : Message) : Prop :=
  (receiver m ≠ None ∧ group m = None) ∨ (receiver m = None ∧ group m ≠ None).

Global Instance exactlyOne_dec m : Decision (exactlyOne m).
Proof. unfold exactlyOne. apply _. Defined.

(** ** Edits *)

(** The three assignments of an edit. *)
Definition edited (newText : JsString) (now : Date) (m : Message) : Message :=
  set_editedAt (Some now) (set_isEdited true (set_text (Some (trim newText)) m)).

(** The conditions under which the code accepts an edit: the message
    exists, the caller sent it, it is a text message, it is at most 12
    hours old, and the trimmed new text fits the schema. *)
Definition editable (w : World) (u id : ObjectId) (newText : JsString)
    (now : Date) : Prop :=
  ∃ m, findById id (messages w) = Some m
       ∧ sender m = u
       ∧ messageType m = text_t
       ∧ (messageAge now m ≤ twelveHoursInMs)%Z
       ∧ length (trim newText) ≤ maxlength.

(** 11 hours 59 minutes and 12 hours 1 second, in milliseconds. *)
Definition elevenFiftyNine : Z := (11 * 60 + 59) * 60 * 1000.

Definition twelveAndOneSecond : Z := twelveHoursInMs + 1000.

(** ** The passive read path *)

(** The receiver's registered connection is live and has joined the room
    of the pair. *)
Definition viewingChat (w : World) (senderId rcvId : ObjectId) : Prop :=
  ∃ entry conn,
    findOnline rcvId w = Some entry
    ∧ sockets w !! o_socketId entry = Some conn
    ∧ chatRoomOf senderId rcvId ∈ s_rooms conn.


(** Bob has opened the chat with Alice. *)
Definition bobViewing : World := handleJoinChat friendly bobSocket alice.



(** ** Deletion on one side *)

(** What delete-for-me writes on a direct message, by role of the
    caller. *)
Definition deletedFor (u : ObjectId) (now : Date) (m : Message) : Message :=
  set_deletedAt (Some now)
    (if bool_decide (sender m = u) then set_deletedForSender true m
     else set_deletedForReceiver true m).

(** The message that Alice sent to Bob. *)
Definition hiMessage : Message :=
  directMessageData 100%N alice bob c_text (Some (js "hi")) None None false noon.

(** ** Actions and runs *)

(** Everything a client or a controller can do to the world. *)
Inductive Action :=
  | SocketSend (socket : CustomSocket) (data : SendData) (now : Date)
  | SocketGroupSend (socket : CustomSocket) (data : GroupSendData) (now : Date)
  | HttpSend (userId : option ObjectId) (body : SendBody) (now : Date)
  | SystemNotice (userId g : ObjectId) (txt : JsString)
                 (removed : option ObjectId) (now : Date)
  | SocketEdit (socket : CustomSocket) (id : ObjectId) (txt : JsString)
               (now : Date)
  | HttpEdit (userId messageId : option ObjectId) (txt : option JsString)
             (now : Date)
  | SocketDeleteForMe (socket : CustomSocket) (id : ObjectId) (now : Date)
  | HttpDeleteForMe (userId messageId : option ObjectId) (now : Date)
  | SocketDeleteForEveryone (socket : CustomSocket) (id : ObjectId) (now : Date)
  | HttpDeleteForEveryone (userId messageId : option ObjectId) (now : Date)
  | SocketMarkRead (socket : CustomSocket) (senderId : ObjectId)
  | HttpMarkRead (userId : option ObjectId) (senderId : ObjectId)
  | SocketMarkGroupRead (socket : CustomSocket) (g : ObjectId) (now : Date)
  | HttpMarkGroupRead (userId g : ObjectId) (now : Date)
  | JoinChat (socket : CustomSocket) (other : ObjectId)
  | LeaveChat (socket : CustomSocket) (other : ObjectId)
  | JoinGroupChat (socket : CustomSocket) (g : ObjectId)
  | LeaveGroupChat (socket : CustomSocket) (g : ObjectId)
  | Connect (socket : CustomSocket)
  | Disconnect (socket : CustomSocket).

Definition perform (a : Action) (w : World) : World :=
  match a with
  | SocketSend s d t => (handleSendMessage w s d t).1
  | SocketGroupSend s d t => (handleSendGroupMessage w s d t).1
  | HttpSend u b t => (sendMessage w u b t).1
  | SystemNotice u g txt r t =>
      match saveSystemMessage w u g txt r t with inr w' => w' | inl _ => w end
  | SocketEdit s id txt t => (handleEditMessage w s id txt t).1
  | HttpEdit u id txt t => (editMessage w u id txt t).1
  | SocketDeleteForMe s id t => (handleDeleteMessageForMe w s id t).1
  | HttpDeleteForMe u id t => (deleteMessageForMe w u id t).1
  | SocketDeleteForEveryone s id t => (handleDeleteMessageForEveryone w s id t).1
  | HttpDeleteForEveryone u id t => (deleteMessageForEveryone w u id t).1
  | SocketMarkRead s from => (handleMarkMessagesAsRead w s from).1
  | HttpMarkRead u from => (markMessagesAsRead w u from).1
  | SocketMarkGroupRead s g t => handleMarkGroupMessagesAsRead w s g t
  | HttpMarkGroupRead u g t => (markGroupMessagesAsRead w u g t).1
  | JoinChat s other => handleJoinChat w s other
  | LeaveChat s other => handleLeaveChat w s other
  | JoinGroupChat s g => (handleJoinGroupChat w s g).1
  | LeaveGroupChat s g => handleLeaveGroupChat w s g
  | Connect s => (handleSocketConnection w s).1
  | Disconnect s => (handleDisconnect w s).1
  end.

Definition run (actions : list Action) (w : World) : World :=
  foldl (λ w a, perform a w) w actions.

Definition storeOk (w : World) : Prop := Forall exactlyOne (messages w).

(** A session: Alice writes to Bob and to the group, edits, deletes on
    her side, Bob marks the chat read, Alice deletes for everyone. *)
Definition session : list Action :=
  [ SocketSend aliceSocket hi noon;
    SocketGroupSend aliceSocket hello (noon + 1)%Z;
    SocketEdit aliceSocket 100%N (js "hi Bob") (noon + 2)%Z;
    SocketDeleteForMe aliceSocket 100%N (noon + 3)%Z;
    SocketMarkRead bobSocket alice;
    HttpDeleteForEveryone (Some alice) (Some 101%N) (noon + 4)%Z ].

(** ** Reconnection *)

(** Alice reconnects on a second socket, which replaces her entry; then
    her first socket disconnects. *)
Definition aliceSocket2 : CustomSocket := mkSocket 21%N alice "alice" [].

Definition reconnected : World := (handleSocketConnection friendly aliceSocket2).1.

(** * The rest of the server *)

(** ** Blocking ([controllers/authController.ts], lines 147-248) *)

Definition set_users (v : gmap ObjectId User) (w : World) : World :=
  mkWorld (messages w) v (groups w) (onlineUsers w) (sockets w) (userRooms w)
          (nextObjectId w).

(** [{ $addToSet: { blockedUsers: userId } }] and
    [{ $pull: { blockedUsers: userId } }] *)
Definition addToSet (x : ObjectId) (l : list ObjectId) : list ObjectId :=
  if bool_decide (x ∈ l) then l else l ++ [x].

Definition pull (x : ObjectId) (l : list ObjectId) : list ObjectId :=
  filter (λ y, y ≠ x) l.

Definition withBlocked (f : list ObjectId → list ObjectId) (u : User) : User :=
  mkUser (username u) (f (blockedUsers u)).

(** [User.findByIdAndUpdate] changes nothing when the user is missing.
    The second update of each controller writes [blockedBy] on the other
    user, a field that no handler or controller reads; the embedding
    keeps the block list only. *)
Definition blockUser (w : World) (currentUserId : option ObjectId)
    (userId : ObjectId) : Reply :=
  match currentUserId with
  | None => (w, mkResponse 401 (j_message "User not authenticated"))
  | Some me =>
      if bool_decide (userId = me) then
        (w, mkResponse 400 (j_message "Cannot block yourself"))
      else
        (set_users (alter (withBlocked (addToSet userId)) me (users w)) w,
         mkResponse 200 (j_message "User blocked successfully"))
  end.

Definition unblockUser (w : World) (currentUserId : option ObjectId)
    (userId : ObjectId) : Reply :=
  match currentUserId with
  | None => (w, mkResponse 401 (j_message "User not authenticated"))
  | Some me =>
      (set_users (alter (withBlocked (pull userId)) me (users w)) w,
       mkResponse 200 (j_message "User unblocked successfully"))
  end.


(** The answer of a read-only controller: the value, or a status with a
    message. *)
Inductive Answer (A : Type) :=
  | answer (a : A)
  | refusal (status : nat) (message : string).
Arguments answer {A} a.
Arguments refusal {A} status message.


(** ** Invariants of the world *)

(** The presence registry has one entry per key, filed under the user it
    names. *)
Definition registryOk (w : World) : Prop :=
  NoDup ((λ e, e.1) <$> onlineUsers w)
  ∧ Forall (λ e, o_userId e.2 = e.1) (onlineUsers w).

(** The stored ids are pairwise different and older than the next id
    that [new ObjectId()] hands out. *)
Definition idsOk (w : World) : Prop :=
  uniqueIds (messages w)
  ∧ Forall (λ m, (_id m < nextObjectId w)%N) (messages w).

(** ** Group membership ([controllers/groupController.ts]) *)

Global Instance Role_eq_dec : EqDecision Role.
Proof. solve_decision. Defined.

(** [Group.findOne({ _id, 'members.user': userId, 'members.role': 'admin',
    isActive: true })]. The two conditions on [members] are separate
    conditions on the array: some entry names the user, and some entry,
    the same or another, has the role [admin]. *)
Definition findGroupForAdmin (g u : ObjectId) (w : World) : option Group :=
  match groups w !! g with
  | Some grp =>
      if isActive grp && isMemberOf u grp
         && bool_decide (admin ∈ m_role <$> members grp)
      then Some grp else None
  | None => None
  end.

(** The events of the group controllers. *)
Inductive GroupEventName :=
  | groupCreated | memberRemovedFromGroup | groupMemberRemoved | groupMemberLeft.

Global Instance GroupEventName_eq_dec : EqDecision GroupEventName.
Proof. solve_decision. Defined.

(** What the server emits during a controller call: an event of the
    socket handlers, or a group event with its group, the member id it
    carries and the system message it carries. *)
Inductive Notice :=
  | plain (e : Event)
  | about (target : Target) (name : GroupEventName) (g : ObjectId)
          (who : option ObjectId) (message : option Message).

(** [removeUserFromGroupRoom], lines 47-68 of the socket service. *)
Definition removeUserFromGroupRoom (w : World) (userId g : ObjectId)
    : World * list Notice :=
  match findOnline userId w with
  | Some onlineUser =>
      match sockets w !! o_socketId onlineUser with
      | Some socket =>
          let w1 :=
            set_sockets (alter (leaveRoom (group_room g)) (o_socketId onlineUser)
                               (sockets w)) w in
          let w2 :=
            match jsmap_get userId (userRooms w1) with
            | Some rooms =>
                set_userRooms
                  (jsmap_set userId (filter (λ r, r ≠ group_room g) rooms)
                             (userRooms w1)) w1
            | None => w1
            end in
          (w2, [plain (emitTo (o_socketId onlineUser) errorEv
                         (failure "You were removed from this group"))])
      | None => (w, [])
      end
  | None => (w, [])
  end.

(** [emitGroupCreated], lines 31-44 of the socket service. *)
Definition emitGroupCreated (w : World) (g : ObjectId) (grp : Group)
    : list Notice :=
  omap (λ memberId,
          (λ onlineUser,
             about (to_socket (o_socketId onlineUser)) groupCreated g None None)
            <$> findOnline memberId w)
       (m_user <$> members grp).

(** [group.members.findIndex(m => m.user.equals(memberObjectId))] on the
    members populated with their user documents: a member whose user
    document is gone is [null], and the call on [null] throws ([None]). *)
Fixpoint findMemberIndex (w : World) (memberId : ObjectId) (ms : list Member)
    : option (option nat) :=
  match ms with
  | [] => Some None
  | m :: ms' =>
      match users w !! m_user m with
      | None => None
      | Some _ =>
          if bool_decide (m_user m = memberId) then Some (Some 0)
          else match findMemberIndex w memberId ms' with
               | Some (Some i) => Some (Some (S i))
               | r => r
               end
      end
  end.

(** Lines 547-561: the loop over the remaining members stops with an
    exception at the first member whose user document is gone. The event
    carries the loop variable [memberId], which shadows the parameter:
    each member is sent their own id as [removedMemberId]. *)
Fixpoint notifyRemaining (w : World) (g : ObjectId) (message : Message)
    (ms : list Member) : list Notice * bool :=
  match ms with
  | [] => ([], true)
  | m :: ms' =>
      match users w !! m_user m with
      | None => ([], false)
      | Some _ =>
          let here :=
            match findOnline (m_user m) w with
            | Some onlineUser =>
                [about (to_socket (o_socketId onlineUser)) groupMemberRemoved g
                       (Some (m_user m)) (Some message)]
            | None => []
            end in
          let rest := notifyRemaining w g message ms' in
          (here ++ rest.1, rest.2)
      end
  end.

Definition withLatest (lm : LatestMessage) (grp : Group) : Group :=
  mkGroup (members grp) (leftMembers grp) (removedMembers grp) (Some lm)
          (isActive grp).

(** [removeMemberFromGroup], lines 460-569. [reqUsername] is the name in
    the token of the caller. *)
Definition removeMemberFromGroup (w : World) (userId : ObjectId)
    (reqUsername : string) (g memberId : ObjectId) (now : Date)
    : World * list Notice * Answer Group :=
  match findGroupForAdmin g userId w with
  | None => (w, [], refusal 404 "Group not found or insufficient permissions")
  | Some grp =>
      match findMemberIndex w memberId (members grp) with
      | None => (w, [], refusal 500 "Internal server error")
      | Some None => (w, [], refusal 404 "Member not found in group")
      | Some (Some memberIndex) =>
          let removedMemberUsername :=
            default "" (username <$> users w !! memberId) in
          let grp1 :=
            mkGroup (delete memberIndex (members grp)) (leftMembers grp)
                    (removedMembers grp ++ [(memberId, now, userId)])
                    (latestMessage grp) (isActive grp) in
          let w1 := set_groups (<[g := grp1]> (groups w)) w in
          let txt := js removedMemberUsername ++ js " was removed from this group" in
          let removalMessage :=
            newMessage_doc (nextObjectId w1) userId None (Some g) (Some txt)
                           None None system_t false (Some memberId) now in
          match saveSystemMessage w1 userId g txt (Some memberId) now with
          | inl _ => (w1, [], refusal 500 "Internal server error")
          | inr w2 =>
              let grp2 :=
                withLatest (mkLatest (_id removalMessage) (Some txt) system_t
                                     userId reqUsername now) grp1 in
              let w3 := set_groups (<[g := grp2]> (groups w2)) w2 in
              let evicted :=
                match findOnline memberId w3 with
                | Some removedMemberSocket =>
                    (set_sockets
                       (alter (leaveRoom (group_room g))
                              (o_socketId removedMemberSocket) (sockets w3)) w3,
                     [about (to_socket (o_socketId removedMemberSocket))
                            memberRemovedFromGroup g None (Some removalMessage)])
                | None => (w3, [])
                end in
              let cleaned := removeUserFromGroupRoom evicted.1 memberId g in
              let told := notifyRemaining cleaned.1 g removalMessage (members grp2) in
              (cleaned.1, evicted.2 ++ cleaned.2 ++ told.1,
               if told.2 then answer grp2
               else refusal 500 "Internal server error")
          end
      end
  end.

(** The group document has fields that the socket handlers never touch.
    One of them decides a controller: [createdBy]. It is kept beside the
    world, group by group. *)
Record Server := mkServer {
  world : World;
  creators : gmap ObjectId ObjectId
}.

(** The member entry that [new Group] and [addMembersToGroup] build. *)
Definition newMember (u : ObjectId) (r : Role) (now : Date) : Member :=
  mkMember u r now 0 (Some now).

(** [leaveGroup], lines 572-648. *)
Definition leaveGroup (s : Server) (userId g : ObjectId) (now : Date)
    : Server * list Notice * Response :=
  let w := world s in
  match findActiveGroupOfMember g userId w with
  | None => (s, [], mkResponse 404 (j_message "Group not found"))
  | Some grp =>
      if bool_decide (creators s !! g = Some userId) then
        (s, [], mkResponse 400 (j_message "Group creator cannot leave the group"))
      else
        let grp1 :=
          mkGroup (filter (λ m, m_user m ≠ userId) (members grp))
                  (leftMembers grp ++ [(userId, now)]) (removedMembers grp)
                  (latestMessage grp) (isActive grp) in
        let w1 := set_groups (<[g := grp1]> (groups w)) w in
        match users w !! userId with
        | None =>
            (mkServer w1 (creators s), [],
             mkResponse 200 (j_message "Left group successfully"))
        | Some leavingUser =>
            let txt := js (username leavingUser) ++ js " left the group" in
            let systemMessage :=
              newMessage_doc (nextObjectId w1) userId None (Some g) (Some txt)
                             None None system_t false None now in
            match saveSystemMessage w1 userId g txt None now with
            | inl _ =>
                (mkServer w1 (creators s), [],
                 mkResponse 500 (j_message "Internal server error"))
            | inr w2 =>
                let grp2 :=
                  withLatest (mkLatest (_id systemMessage) (Some txt) system_t
                                       userId (username leavingUser) now) grp1 in
                (mkServer (set_groups (<[g := grp2]> (groups w2)) w2) (creators s),
                 [about (to_room (group_room g)) groupMemberLeft g (Some userId)
                        (Some systemMessage)],
                 mkResponse 200 (j_message "Left group successfully"))
            end
        end
  end.

(** [User.find({ _id: { $in: memberIds } })] returns each existing user
    once, however often the id is listed. The query names no sort: the
    documents come as the scan of the [_id] index yields them, in
    ascending order of [_id]. *)
Definition validMembers (w : World) (memberIds : list ObjectId) : list ObjectId :=
  filter (λ u, is_Some (users w !! u)) (merge_sort N.le (remove_dups memberIds)).

(** Lines 32-48 and 361-384: the listed users the caller has blocked and
    the listed users who have blocked the caller. *)
Definition blockedAmong (currentUser : User) (memberIds : list ObjectId)
    : list ObjectId :=
  filter (λ u, u ∈ blockedUsers currentUser) memberIds.

Definition blockingAmong (w : World) (userId : ObjectId)
    (memberIds : list ObjectId) : list ObjectId :=
  filter (λ u, hasBlocked (users w !! u) userId = true) memberIds.

(** The validators of the group schema that can fail: [name] is required
    and at most 50 long, [description] at most 200 long, both after
    [trim: true]. *)
Definition groupFieldsValid (name : JsString) (description : option JsString)
    : bool :=
  negb (bool_decide (trim name = []))
  && bool_decide (length (trim name) ≤ 50)
  && bool_decide (length (trim (orEmpty description)) ≤ 200).

Record CreateBody := mkCreateBody {
  cg_name : option JsString;
  cg_description : option JsString;
  cg_memberIds : option (list ObjectId)   (* [None]: missing or not an array *)
}.

(** [createGroup], lines 10-121. The answer carries the id of the new
    group. *)
Definition createGroup (s : Server) (userId : ObjectId) (body : CreateBody)
    (now : Date) : Server * list Notice * Answer ObjectId :=
  let w := world s in
  match cg_name body, cg_memberIds body with
  | Some (c :: name'), Some memberIds =>
      let name := c :: name' in
      if negb (bool_decide (length (validMembers w memberIds) = length memberIds))
      then (s, [], refusal 400 "Some member IDs are invalid")
      else
        match users w !! userId with
        | None => (s, [], refusal 404 "User not found")
        | Some currentUser =>
            if negb (bool_decide (blockedAmong currentUser memberIds = []
                                  ∧ blockingAmong w userId memberIds = []))
            then (s, [], refusal 400 "Cannot create group with blocked users")
            else
              let g := nextObjectId w in
              let w0 := bumpObjectId w in
              if negb (groupFieldsValid name (cg_description body)) then
                (mkServer w0 (creators s), [],
                 refusal 500 "Internal server error")
              else
                let grp :=
                  mkGroup (newMember userId admin now
                           :: ((λ u, newMember u member now) <$> memberIds))
                          [] [] None true in
                let w1 := set_groups (<[g := grp]> (groups w0)) w0 in
                let s1 := mkServer w1 (<[g := userId]> (creators s)) in
                let txt := js "Group created by " ++ js (username currentUser) in
                let systemMessage :=
                  newMessage_doc (nextObjectId w1) userId None (Some g)
                                 (Some txt) None None system_t false None now in
                match saveSystemMessage w1 userId g txt None now with
                | inl _ => (s1, [], refusal 500 "Internal server error")
                | inr w2 =>
                    let grp2 :=
                      withLatest (mkLatest (_id systemMessage) (Some txt)
                                    system_t userId (username currentUser) now)
                                 grp in
                    let w3 := set_groups (<[g := grp2]> (groups w2)) w2 in
                    (mkServer w3 (creators s1), emitGroupCreated w3 g grp2,
                     answer g)
                end
        end
  | _, _ => (s, [], refusal 400 "Group name and member IDs are required")
  end.

(** [leftMembers.findIndex(...)] and [splice(index, 1)]: the first entry
    of the user goes. *)
Fixpoint dropFirstLeft (u : ObjectId) (l : list (ObjectId * Date))
    : list (ObjectId * Date) :=
  match l with
  | [] => []
  | e :: l' => if bool_decide (e.1 = u) then l' else e :: dropFirstLeft u l'
  end.

(** [names.join(', ')] *)
Fixpoint joinNames (names : list string) : JsString :=
  match names with
  | [] => []
  | [n] => js n
  | n :: rest => js n ++ js ", " ++ joinNames rest
  end.

(** [addMembersToGroup], lines 332-457. The names of the system message
    are those of [validMembers], in the order in which [User.find]
    returned them. *)
Definition addMembersToGroup (w : World) (userId g : ObjectId)
    (memberIds : list ObjectId) (now : Date)
    : World * Answer Group :=
  match findGroupForAdmin g userId w with
  | None => (w, refusal 404 "Group not found or insufficient permissions")
  | Some grp =>
      if negb (bool_decide (length (validMembers w memberIds) = length memberIds))
      then (w, refusal 400 "Some member IDs are invalid")
      else
        match users w !! userId with
        | None => (w, refusal 404 "User not found")
        | Some currentUser =>
            let alreadyInGroupMembers :=
              filter (λ u, u ∈ m_user <$> members grp) memberIds in
            let others := filter (λ u, u ∉ m_user <$> members grp) memberIds in
            if negb (bool_decide (blockedAmong currentUser others = []
                                  ∧ blockingAmong w userId others = []
                                  ∧ alreadyInGroupMembers = []))
            then
              (w, refusal 400
                    "Cannot add blocked users, users who blocked you, or users already in group")
            else
              let grp1 :=
                mkGroup (members grp
                         ++ ((λ u, newMember u member now) <$> memberIds))
                        (foldl (λ l u, dropFirstLeft u l) (leftMembers grp)
                               memberIds)
                        (removedMembers grp) (latestMessage grp) (isActive grp) in
              let w1 := set_groups (<[g := grp1]> (groups w)) w in
              let names :=
                omap (λ u, username <$> users w !! u) (validMembers w memberIds) in
              let txt :=
                joinNames names
                ++ js (if bool_decide (length memberIds = 1)
                       then " was" else " were")
                ++ js " added to the group" in
              let systemMessage :=
                newMessage_doc (nextObjectId w1) userId None (Some g) (Some txt)
                               None None system_t false None now in
              match saveSystemMessage w1 userId g txt None now with
              | inl _ => (w1, refusal 500 "Internal server error")
              | inr w2 =>
                  let grp2 :=
                    withLatest (mkLatest (_id systemMessage) (Some txt) system_t
                                  userId
                                  (orElse (username currentUser) "System") now)
                               grp1 in
                  (set_groups (<[g := grp2]> (groups w2)) w2, answer grp2)
              end
        end
  end.

(** ** Reading a group ([getGroupMessages], lines 651-763) *)

(** How the user stands in the group: a current member with the date of
    joining, or one who left or was removed, with the date of leaving. *)
Inductive Standing :=
  | current (joinedAt : Date)
  | departed (until : Date).

Definition standing (grp : Group) (userId : ObjectId) : option Standing :=
  match userMember grp userId with
  | Some mem => Some (current (m_joinedAt mem))
  | None =>
      match list_find (λ e, e.1 = userId) (leftMembers grp) with
      | Some (_, e) => Some (departed e.2)
      | None =>
          match list_find (λ e, e.1.1 = userId) (removedMembers grp) with
          | Some (_, e) => Some (departed e.1.2)
          | None => None
          end
      end
  end.

(** [messageDateFilter]: system messages whatever their date, the others
    from the date of joining, or up to the date of leaving. *)
Definition inWindow (st : Standing) (m : Message) : Prop :=
  messageType m = system_t
  ∨ (messageType m ≠ system_t
     ∧ match st with
       | current joinedAt => (joinedAt ≤ createdAt m)%Z
       | departed until => (createdAt m ≤ until)%Z
       end).

Global Instance inWindow_dec st m : Decision (inWindow st m).
Proof. unfold inWindow. destruct st; apply _. Defined.

(** The two deletion clauses of the query, as in [getUserGroups]. *)
Definition notDeletedFor (userId : ObjectId) (m : Message) : Prop :=
  (nin userId (deletedForUsers m) ∨ deletedForUsers m = None)
  ∧ (sender m ≠ userId ∨ deletedForSender m ≠ true).

Global Instance notDeletedFor_dec u m : Decision (notDeletedFor u m).
Proof. unfold notDeletedFor. apply _. Defined.

(** [.sort({ createdAt: -1 })] *)
Fixpoint insertNewestFirst (m : Message) (l : list Message) : list Message :=
  match l with
  | [] => [m]
  | d :: l' =>
      if bool_decide (createdAt d < createdAt m)%Z then m :: l
      else d :: insertNewestFirst m l'
  end.

Definition sortNewestFirst (l : list Message) : list Message :=
  foldr insertNewestFirst [] (reverse l).

(** [parseInt(x) || d] on a parameter that is absent, not a number
    ([None]) or a natural number; negative numbers are not modelled. *)
Definition parsedOr (d : nat) (x : option nat) : nat :=
  match x with
  | Some (S n) => S n
  | _ => d
  end.

Definition getGroupMessages (w : World) (userId g : ObjectId)
    (page limit : option nat) : Answer (list Message) :=
  let page := parsedOr 1 page in
  let limit := parsedOr 50 limit in
  match groups w !! g with
  | Some grp =>
      if listsUser userId grp && isActive grp then
        match standing grp userId with
        | None => refusal 404 "User not found in group"
        | Some st =>
            let found :=
              filter (λ m, group m = Some g ∧ inWindow st m
                           ∧ notDeletedFor userId m) (messages w) in
            answer (reverse (take limit (drop ((page - 1) * limit)
                                              (sortNewestFirst found))))
        end
      else refusal 404 "Group not found or access denied"
  | None => refusal 404 "Group not found or access denied"
  end.

(** ** Reading a direct chat ([controllers/messageController.ts]) *)

(** [.select(...)] of [getMessages] leaves out [group], [deletedForUsers]
    and [removedMemberId]. *)
Definition selectDirect (m : Message) : Message :=
  {| _id := _id m; sender := sender m; receiver := receiver m; group := None;
     text := text m; imageUrl := imageUrl m; videoUrl := videoUrl m;
     messageType := messageType m; isRead := isRead m; isEdited := isEdited m;
     editedAt := editedAt m; deletedForSender := deletedForSender m;
     deletedForReceiver := deletedForReceiver m;
     deletedForEveryone := deletedForEveryone m; deletedForUsers := None;
     deletedAt := deletedAt m; removedMemberId := None;
     createdAt := createdAt m |}.

Definition between (a b : ObjectId) (m : Message) : Prop :=
  ((sender m = a ∧ receiver m = Some b) ∨ (sender m = b ∧ receiver m = Some a))
  ∧ receiver m ≠ None.

Global Instance between_dec a b m : Decision (between a b m).
Proof. unfold between. apply _. Defined.

(** [getMessages], lines 9-38. *)
Definition getMessages (w : World) (senderId receiverId : option ObjectId)
    : Answer (list Message) :=
  match senderId, receiverId with
  | None, _ => refusal 401 "User not authenticated"
  | Some _, None => refusal 400 "Receiver ID is required"
  | Some a, Some b =>
      answer (selectDirect <$> sortByCreatedAt (filter (between a b) (messages w)))
  end.

(** An entry of the conversation list. The last message is the stored
    message from which the summary object of lines 129-151 is copied. *)
Record Conversation := mkConversation {
  c_id : ObjectId;
  c_username : string;
  c_lastMessage : option Message;
  c_unreadCount : nat
}.

(** Lines 105-107: the partner of the user in a direct message. *)
Definition otherUserId (userId : ObjectId) (m : Message) (rcv : ObjectId)
    : ObjectId :=
  if bool_decide (sender m = userId) then rcv else sender m.

(** Lines 127-157: the last message moves forward on a strictly later
    date; a message received and not read counts as unread. *)
Definition summarize (userId : ObjectId) (m : Message) (c : Conversation)
    : Conversation :=
  let last :=
    match c_lastMessage c with
    | None => Some m
    | Some l => if bool_decide (createdAt l < createdAt m)%Z then Some m else Some l
    end in
  let unread :=
    if bool_decide (receiver m = Some userId) && negb (isRead m)
    then S (c_unreadCount c) else c_unreadCount c in
  mkConversation (c_id c) (c_username c) last unread.

(** The body of the [forEach] of lines 93-158. After [populate], a
    receiver whose user document is gone is [null], and the message is
    skipped. *)
Definition addToConversations (w : World) (userId : ObjectId)
    (conversationMap : list (ObjectId * Conversation)) (m : Message)
    : list (ObjectId * Conversation) :=
  match receiver m with
  | None => conversationMap
  | Some rcv =>
      match users w !! rcv, users w !! sender m with
      | Some receiverUser, Some senderUser =>
          if negb (bool_decide (sender m = userId))
             && negb (bool_decide (rcv = userId))
          then conversationMap
          else
            let other := otherUserId userId m rcv in
            let otherUser :=
              if bool_decide (sender m = userId) then receiverUser
              else senderUser in
            let conversation :=
              default (mkConversation other (username otherUser) None 0)
                      (jsmap_get other conversationMap) in
            jsmap_set other (summarize userId m conversation) conversationMap
      | _, _ => conversationMap
      end
  end.

(** [.sort((a, b) => time(b.lastMessage) - time(a.lastMessage))]: newest
    first, and stable. *)
Definition lastTime (c : Conversation) : Date :=
  default 0%Z (createdAt <$> c_lastMessage c).

Fixpoint insertConversation (c : Conversation) (l : list Conversation)
    : list Conversation :=
  match l with
  | [] => [c]
  | d :: l' =>
      if bool_decide (lastTime d < lastTime c)%Z then c :: l
      else d :: insertConversation c l'
  end.

Definition sortConversations (l : list Conversation) : list Conversation :=
  foldl (λ acc c, insertConversation c acc) [] l.

(** [getConversations], lines 41-175. The log of lines 86-88 reads
    [msg.sender._id] of every message found: a sender whose user
    document is gone makes the request fail. *)
Definition getConversations (w : World) (userId : option ObjectId)
    : Answer (list Conversation) :=
  match userId with
  | None => refusal 401 "User not authenticated"
  | Some u =>
      let found := getConversations_find w u in
      if bool_decide (Forall (λ m, is_Some (users w !! sender m)) found) then
        let conversationMap := foldl (addToConversations w u) [] found in
        answer (sortConversations
                  (filter (λ c, is_Some (c_lastMessage c))
                          (jsmap_values conversationMap)))
      else refusal 500 "Internal server error"
  end.

(** ** Concrete servers *)

(** The friendly world, with Alice as the creator of the team. *)
Definition friendlyServer : Server := mkServer friendly {[ 7%N := alice ]}.

(** The request that makes a second group of Alice, Bob and Carol. *)
Definition bookClub : CreateBody :=
  mkCreateBody (Some (js "book club")) None (Some [bob; carol]).

(** Alice has removed nobody; Bob has left the team at noon. *)
Definition afterBobLeft : World :=
  world (leaveGroup friendlyServer bob 7%N noon).1.1.

(** ** Order *)

(** The keys of a list never increase, or never decrease, from the head
    to the tail. *)
Fixpoint descendingBy {A : Type} (key : A → Z) (l : list A) : Prop :=
  match l with
  | [] => True
  | x :: l' => Forall (λ y, (key y ≤ key x)%Z) l' ∧ descendingBy key l'
  end.

Fixpoint ascendingBy {A : Type} (key : A → Z) (l : list A) : Prop :=
  match l with
  | [] => True
  | x :: l' => Forall (λ y, (key x ≤ key y)%Z) l' ∧ ascendingBy key l'
  end.

(** ** Rewriting one stored message *)

(** [findById(id)], the assignments [f] and [save()], seen on the whole
    store: the document with the id is rewritten, the others stay. *)
Definition updateOne (id : ObjectId) (f : Message → Message) (d : Message)
    : Message :=
  if bool_decide (_id d = id) then f d else d.

(** What delete-for-me writes on a group message, by role of the caller
    (lines 449-461). *)
Definition deletedInGroupFor (u : ObjectId) (now : Date) (m : Message)
    : Message :=
  set_deletedAt (Some now)
    (if bool_decide (sender m = u) then set_deletedForSender true m
     else pushDeletedForUser u m).

(** ** The history *)

(** The fields of a message that no handler and no controller assigns
    after the message was created. *)
Definition core (m : Message)
    : ObjectId * ObjectId * option ObjectId * option ObjectId * MessageType
      * Date :=
  (_id m, sender m, receiver m, group m, messageType m, createdAt m).

(** ** The conversation list *)

(** The conversation under which [getConversations] files a message of
    the user (lines 95-107), if it files it at all. *)
Definition partnerOf (w : World) (userId : ObjectId) (m : Message)
    : option ObjectId :=
  match receiver m with
  | None => None
  | Some rcv =>
      match users w !! rcv, users w !! sender m with
      | Some _, Some _ =>
          if negb (bool_decide (sender m = userId))
             && negb (bool_decide (rcv = userId))
          then None
          else Some (otherUserId userId m rcv)
      | _, _ => None
      end
  end.

(** The messages that the user received in the conversation with [k] and
    has not read. *)
Definition unreadFrom (userId k : ObjectId) (m : Message) : Prop :=
  sender m = k ∧ receiver m = Some userId ∧ isRead m = false.

Global Instance unreadFrom_dec u k m : Decision (unreadFrom u k m).
Proof. unfold unreadFrom. apply _. Defined.

(** The request by which Alice sends " hi " to Bob over HTTP. *)
Definition hiBody : SendBody :=
  mkSendBody (Some bob) (Some (js " hi ")) None None (Some c_text).

(** * Properties *)

(** ** C1: a direct send across a block *)

Lemma handleSendMessage_suppressed (w : World) (socket : CustomSocket)
    (data : SendData) (now : Date) :
  hasBlocked (users w !! receiverId data) (s_userId socket) = true
  ∨ hasBlocked (users w !! s_userId socket) (receiverId data) = true →
  handleSendMessage w socket data now =
    (bumpObjectId w,
     [emit socket messageSent
        (echo (nextObjectId w) (s_userId socket) (receiverId data)
              (orEmpty (d_text data))
              (kindOf (default c_text (d_messageType data))) false now)]).
Proof.
  intros H. unfold handleSendMessage.
  destruct (hasBlocked (users w !! receiverId data) (s_userId socket)); [done|].
  destruct H as [H|H]; [done|]. by rewrite H.
Qed.

(** C1, as the code has it: when the receiver has blocked the sender, or
    the sender the receiver, a direct send over the socket writes nothing
    to the message store; no [receiveMessage] is emitted to anybody; and
    the only event is a [messageSent] echo to the sender's own socket,
    built on the spot with a fresh id and [isRead = false]. *)
Theorem C1_blocked_send_not_persisted (w : World) (socket : CustomSocket)
    (data : SendData) (now : Date) :
  hasBlocked (users w !! receiverId data) (s_userId socket) = true
  ∨ hasBlocked (users w !! s_userId socket) (receiverId data) = true →
  let out := handleSendMessage w socket data now in
  messages out.1 = messages w
  ∧ (∀ e, e ∈ out.2 → e_name e ≠ receiveMessage)
  ∧ ∃ id txt ty,
      out.2 = [mkEvent (to_socket (s_id socket)) messageSent
                 (echo id (s_userId socket) (receiverId data) txt ty false now)].
Proof.
  intros H out. subst out. rewrite (handleSendMessage_suppressed _ _ _ _ H).
  simpl. split; [done|]. split; [|by eauto].
  intros e He. apply list_elem_of_singleton in He. by subst e.
Qed.

Lemma C1_blocked_send_not_persisted_witness :
  hasBlocked (users bobBlocksAlice !! receiverId hi) (s_userId aliceSocket) = true
  ∧ messages (handleSendMessage bobBlocksAlice aliceSocket hi noon).1
    = messages bobBlocksAlice.
Proof.
  split; [vm_compute; reflexivity|].
  apply (C1_blocked_send_not_persisted bobBlocksAlice aliceSocket hi noon).
  left. vm_compute. reflexivity.
Defined.

(** As the specification states it, C1 fails: Bob has blocked Alice,
    Alice sends "hi" to Bob, and afterwards the store holds no message
    from Alice to Bob. *)
Lemma C1_blocked_send_counterexample :
  hasBlocked (users bobBlocksAlice !! bob) alice = true
  ∧ ¬ ∃ m, m ∈ messages (handleSendMessage bobBlocksAlice aliceSocket hi noon).1
           ∧ sender m = alice ∧ receiver m = Some bob.
Proof.
  split; [vm_compute; reflexivity|].
  intros (m & Hm & _). vm_compute in Hm. by apply elem_of_nil in Hm.
Qed.

(** The HTTP controller refuses the same sends: whatever else the reply
    is, no message is written across a block. *)
Lemma sendMessage_blocked (w : World) (senderId rcvId : ObjectId)
    (body : SendBody) (now : Date) :
  b_receiverId body = Some rcvId →
  hasBlocked (users w !! rcvId) senderId = true
  ∨ hasBlocked (users w !! senderId) rcvId = true →
  (sendMessage w (Some senderId) body now).1 = w
  ∧ status (sendMessage w (Some senderId) body now).2 ≠ 201.
Proof.
  intros Hr Hb. unfold sendMessage. rewrite Hr.
  destruct (b_messageType body) as [ty|]; [|done].
  repeat case_match; simpl; try done; destruct Hb; congruence.
Qed.

(** ** C4: the fan-out of an accepted send *)











(** ** C5: the recipients of a group send *)

(** C5 at a failing input: Alice has blocked Bob, both are members of
    the group and connected. The handler computes that Bob is blocked,
    Bob is not in the deliverable set, and Bob's socket is handed
    [newMessage] all the same, as is every connected member. *)
Theorem C5_blocked_member_still_receives :
  users aliceBlocksBob !! alice = Some (mkUser "alice" [bob])
  ∧ findActiveGroupOfMember 7%N alice aliceBlocksBob = Some team
  ∧ blockedMembers aliceBlocksBob alice (mkUser "alice" [bob]) team = [bob]
  ∧ deliverable aliceBlocksBob alice (mkUser "alice" [bob]) team = [alice; carol]
  ∧ newMessageTargets (handleSendGroupMessage aliceBlocksBob aliceSocket hello noon).2
    = [to_socket (s_id aliceSocket); to_socket (s_id bobSocket);
       to_socket (s_id carolSocket)].
Proof. repeat split; vm_compute; reflexivity. Qed.

(** For every group send that is accepted, the sockets handed
    [newMessage] are those of the connected members, whatever the block
    lists say. *)
Lemma handleSendGroupMessage_targets (w : World) (socket : CustomSocket)
    (data : GroupSendData) (now : Date) (grp : Group) (sender : User)
    (store : list Message) (m : Message) :
  findActiveGroupOfMember (groupId data) (s_userId socket) w = Some grp →
  users w !! s_userId socket = Some sender →
  saveNew m (messages w) = inr store →
  m = newMessage_doc (nextObjectId w) (s_userId socket) None
        (Some (groupId data)) (g_text data) (g_imageData data)
        (g_videoData data) (kindOf (default c_text (g_messageType data)))
        false None now →
  newMessageTargets (handleSendGroupMessage w socket data now).2
  = omap (λ memberId, (λ o, to_socket (o_socketId o)) <$> findOnline memberId w)
         (m_user <$> members grp).
Proof.
  intros Hg Hu Hs ->. unfold handleSendGroupMessage.
  rewrite Hg, Hu, Hs. simpl. unfold newMessageTargets, fanoutToMembers.
  rewrite filter_app, fmap_app.
  change (e_target <$> filter _ [_]) with (@nil Target). rewrite app_nil_r.
  induction (m_user <$> members grp) as [|u l IH]; [done|].
  simpl. destruct (findOnline u w) as [o|]; simpl; [|done].
  f_equal. exact IH.
Qed.

(** ** C2: delete for everyone *)


Lemma validate_tombstoned (now : Date) (m : Message) :
  preValidate m = None → validate (tombstoned now m) = None.
Proof.
  intros H. unfold validate.
  replace (preValidate (tombstoned now m)) with (preValidate m) by by destruct m.
  rewrite H. by destruct m.
Qed.

(** What [withDefaults] leaves alone: everything but the array. *)
Lemma withDefaults_fields (m : Message) :
  _id (withDefaults m) = _id m
  ∧ sender (withDefaults m) = sender m
  ∧ receiver (withDefaults m) = receiver m
  ∧ group (withDefaults m) = group m
  ∧ text (withDefaults m) = text m
  ∧ messageType (withDefaults m) = messageType m
  ∧ isRead (withDefaults m) = isRead m
  ∧ isEdited (withDefaults m) = isEdited m
  ∧ editedAt (withDefaults m) = editedAt m
  ∧ deletedForSender (withDefaults m) = deletedForSender m
  ∧ deletedForReceiver (withDefaults m) = deletedForReceiver m
  ∧ deletedForEveryone (withDefaults m) = deletedForEveryone m
  ∧ deletedAt (withDefaults m) = deletedAt m
  ∧ createdAt (withDefaults m) = createdAt m
  ∧ deletedForUsers (withDefaults m) = Some (default [] (deletedForUsers m)).
Proof. by destruct m. Qed.

Lemma withDefaults_id (m : Message) : _id (withDefaults m) = _id m.
Proof. by destruct m. Qed.

(** A document that carries the array is its own loaded form. *)
Lemma withDefaults_Some (m : Message) (l : list ObjectId) :
  deletedForUsers m = Some l → withDefaults m = m.
Proof. destruct m. simpl. by intros ->. Qed.

Lemma withDefaults_idemp (m : Message) :
  withDefaults (withDefaults m) = withDefaults m.
Proof. by destruct m. Qed.

(** Over the socket, for direct and group messages alike, the stored
    message becomes its tombstone. *)
Lemma handleDeleteMessageForEveryone_store (w : World) (socket : CustomSocket)
    (id : ObjectId) (now : Date) (m : Message) :
  findOneByIdAndSender id (s_userId socket) (messages w) = Some m →
  (messageAge now m ≤ twelveHoursInMs)%Z →
  preValidate m = None →
  messages (handleDeleteMessageForEveryone w socket id now).1
  = replaceDoc (withDefaults (tombstoned now m)) (messages w).
Proof.
  intros Hfind Hage Hvalid. unfold handleDeleteMessageForEveryone.
  rewrite Hfind. rewrite bool_decide_eq_false_2 by lia.
  unfold handleGroupMessageDeleteForEveryone,
    handleNormalMessageDeleteForEveryone, saveLoaded.
  rewrite (validate_tombstoned now m Hvalid).
  repeat case_match; done.
Qed.

(** Over HTTP the stored message gets the flag and the time, and keeps
    its text and its [isEdited]. *)
Lemma deleteMessageForEveryone_store (w : World) (u id : ObjectId)
    (now : Date) (m : Message) :
  findOneByIdAndSender id u (messages w) = Some m →
  (messageAge now m ≤ twelveHoursInMs)%Z →
  preValidate m = None →
  let m' :=
    withDefaults (set_deletedAt (Some now) (set_deletedForEveryone true m)) in
  messages (deleteMessageForEveryone w (Some u) (Some id) now).1
  = replaceDoc m' (messages w)
  ∧ text m' = text m ∧ isEdited m' = isEdited m.
Proof.
  intros Hfind Hage Hvalid m'. unfold deleteMessageForEveryone.
  rewrite Hfind. rewrite bool_decide_eq_false_2 by lia.
  unfold saveLoaded.
  replace (preValidate (set_deletedAt (Some now) (set_deletedForEveryone true m)))
    with (preValidate m) by by destruct m.
  rewrite Hvalid. simpl. by destruct m.
Qed.

(** C2 at a failing input: one second after sending it, Alice deletes
    her message for everyone through the HTTP controller. The request is
    answered 200, the flag and [deletedAt] are set, and the stored text
    is still "hi" with [isEdited = false]: the tombstone rewrite of the
    socket handlers is missing on this interface. *)
Theorem C2_http_delete_keeps_text :
  let reply :=
    deleteMessageForEveryone afterHi (Some alice) (Some 100%N) (noon + 1000)%Z in
  status reply.2 = 200
  ∧ ∃ m, findById 100%N (messages reply.1) = Some m
       ∧ sender m = alice
       ∧ (messageAge (noon + 1000)%Z m ≤ twelveHoursInMs)%Z
       ∧ deletedForEveryone m = true
       ∧ deletedAt m = Some (noon + 1000)%Z
       ∧ text m = Some (js "hi")
       ∧ text m ≠ Some tombstone
       ∧ isEdited m = false.
Proof.
  simpl. split; [vm_compute; reflexivity|].
  eexists. split; [vm_compute; reflexivity|].
  simpl. repeat split; done.
Qed.

(** The same request over the socket leaves the tombstone. *)
Example socket_delete_tombstones :
  ∃ m, findById 100%N
         (messages (handleDeleteMessageForEveryone afterHi aliceSocket 100%N
                      (noon + 1000)%Z).1) = Some m
       ∧ text m = Some tombstone ∧ isEdited m = true
       ∧ deletedForEveryone m = true ∧ deletedAt m = Some (noon + 1000)%Z.
Proof. eexists. split; [vm_compute; reflexivity|]. by vm_compute. Qed.

(** ** C3: the unread count of a group member *)

Lemma unreadFilter_countsAsUnread (g : ObjectId) (t : Date) (u : ObjectId)
    (m : Message) :
  unreadFilter g t u m ↔ countsAsUnread g t u m.
Proof.
  unfold unreadFilter, countsAsUnread, individuallyDeletedFor, nin.
  destruct (deletedForUsers m) as [l|]; simpl.
  - split.
    + intros (Hg & Ht & Hs & [Hl|?] & _); [|done].
      split_and!; [done|lia|done|]. intros [?|[? _]]; done.
    + intros (Hg & Ht & Hs & Hd). split_and!; [done|lia|done| |by left].
      left. intros ?. apply Hd. by left.
  - split.
    + intros (Hg & Ht & Hs & _ & _). split_and!; [done|lia|done|].
      intros [H|[? _]]; [by apply elem_of_nil in H|done].
    + intros (Hg & Ht & Hs & _). split_and!; [done|lia|done|by left|by left].
Qed.

(** What [unreadFilter] looks at is untouched by the tombstone rewrite. *)
Lemma unreadFilter_tombstoned (g : ObjectId) (t : Date) (u : ObjectId)
    (now : Date) (m : Message) :
  unreadFilter g t u (tombstoned now m) ↔ unreadFilter g t u m.
Proof. by destruct m. Qed.

Lemma length_filter_fmap {A B : Type} (f : A → B) (P : B → Prop)
    `{!∀ y, Decision (P y)} (l : list A) :
  length (filter P (f <$> l)) = length (filter (P ∘ f) l).
Proof.
  induction l as [|x l IH]; [done|]. csimpl.
  rewrite !filter_cons. simpl. case_decide; simpl; by rewrite IH.
Qed.

(** C3: for a current member of a group, the unread count that
    [getUserGroups] computes at the time [now] is the number of messages
    of the group created strictly after the member's [lastReadAt], not
    sent by the member and not individually deleted for the member;
    rewriting any of the messages to the tombstone of
    delete-for-everyone leaves the count as it is. The [lastReadAt] is
    the one of the loaded entry: the stored one, and the time of the
    request for an entry stored without one, so that such a member has
    nothing unread among the messages created up to the request. *)
Theorem C3_group_unread_count (w : World) (g : ObjectId) (grp : Group)
    (u : ObjectId) (mem : Member) (now : Date) :
  userMember grp u = Some mem →
  unreadCount w g grp u now
  = length (filter (countsAsUnread g (default now (m_lastReadAt mem)) u)
                   (messages w))
  ∧ (∀ (chosen : Message → bool) (t : Date),
       unreadCount
         (set_messages
            ((λ m, if chosen m then tombstoned t m else m) <$> messages w) w)
         g grp u now
       = unreadCount w g grp u now)
  ∧ (m_lastReadAt mem = None →
     Forall (λ m, (createdAt m ≤ now)%Z) (messages w) →
     unreadCount w g grp u now = 0).
Proof.
  intros Hmem. unfold unreadCount, countDocuments. rewrite Hmem.
  cbn [loadedMember m_lastReadAt from_option id]. split_and!.
  - f_equal. apply list_filter_iff. intros m.
    apply unreadFilter_countsAsUnread.
  - intros chosen t. simpl. rewrite length_filter_fmap. f_equal.
    apply list_filter_iff. intros m. simpl.
    destruct (chosen m); [apply unreadFilter_tombstoned|done].
  - intros -> Hold. cbn [from_option id].
    induction Hold as [|m l Hm _ IH]; [done|].
    rewrite filter_cons_False; [done|].
    unfold unreadFilter. intros (_ & ? & _). lia.
Qed.


Lemma C3_group_unread_count_witness :
  userMember team bob = Some (mkMember bob member 0%Z 0 (Some 0%Z))
  ∧ unreadCount afterHello 7%N team bob (noon + 1)%Z = 1
  ∧ unreadCount afterHello 7%N team alice (noon + 1)%Z = 0.
Proof.
  split; [reflexivity|]. split.
  - rewrite (proj1 (C3_group_unread_count afterHello 7%N team bob _
                      (noon + 1)%Z eq_refl)).
    vm_compute. reflexivity.
  - vm_compute. reflexivity.
Defined.



(** ** The message store: identities and the receiver/group invariant *)

Lemma preValidate_exactlyOne (m : Message) :
  preValidate m = None ↔ exactlyOne m.
Proof.
  unfold preValidate, exactlyOne.
  destruct (receiver m), (group m); simpl; split; try done.
  - intros [[_ ?]|[? _]]; done.
  - intros _. by left.
  - intros _. by right.
  - intros [[? _]|[_ ?]]; done.
Qed.

Lemma uniqueIds_lookup (store : list Message) (i j : nat) (x y : Message) :
  uniqueIds store → store !! i = Some x → store !! j = Some y →
  _id x = _id y → i = j.
Proof.
  intros Hnd Hi Hj Hid.
  apply (NoDup_lookup (_id <$> store) i j (_id x) Hnd).
  - by rewrite list_lookup_fmap, Hi.
  - by rewrite list_lookup_fmap, Hj, Hid.
Qed.

Lemma findById_Some (id : ObjectId) (store : list Message) (m : Message) :
  findById id store = Some m → m ∈ store ∧ _id m = id.
Proof.
  unfold findById. destruct (list_find _ store) as [[i x]|] eqn:E; [|done].
  simpl. intros [= ->]. apply list_find_Some in E as (Hi & Hid & _).
  split; [by eapply list_elem_of_lookup_2|done].
Qed.

Lemma findOne_findById (id u : ObjectId) (store : list Message) (m : Message) :
  uniqueIds store →
  findOneByIdAndSender id u store = Some m
  ↔ findById id store = Some m ∧ sender m = u.
Proof.
  intros Hnd. unfold findOneByIdAndSender, findById. split.
  - destruct (list_find (λ d, _id d = id ∧ _) store) as [[i x]|] eqn:E; [|done].
    simpl. intros [= ->]. apply list_find_Some in E as (Hi & [Hid Hs] & _).
    split; [|done].
    destruct (list_find_elem_of (λ d, _id d = id) store m) as [[j y] Hj];
      [by eapply list_elem_of_lookup_2|done|].
    rewrite Hj. simpl. f_equal.
    apply list_find_Some in Hj as (Hj & Hy & _).
    assert (i = j) as -> by (eapply uniqueIds_lookup; eauto; congruence).
    congruence.
  - intros [Hf Hs].
    destruct (list_find (λ d, _id d = id) store) as [[i x]|] eqn:E; [|done].
    simpl in Hf. injection Hf as ->.
    apply list_find_Some in E as (Hi & Hid & _).
    destruct (list_find_elem_of (λ d, _id d = id ∧ sender d = u) store m)
      as [[j y] Hj]; [by eapply list_elem_of_lookup_2|done|].
    rewrite Hj. simpl. f_equal.
    apply list_find_Some in Hj as (Hj & [Hy _] & _).
    assert (i = j) as -> by (eapply uniqueIds_lookup; eauto; congruence).
    congruence.
Qed.

Lemma findOne_Some (id u : ObjectId) (store : list Message) (m : Message) :
  findOneByIdAndSender id u store = Some m →
  m ∈ store ∧ _id m = id ∧ sender m = u.
Proof.
  unfold findOneByIdAndSender.
  destruct (list_find _ store) as [[i x]|] eqn:E; [|done].
  simpl. intros [= ->]. apply list_find_Some in E as (Hi & [? ?] & _).
  split; [by eapply list_elem_of_lookup_2|done].
Qed.

(** After [replaceDoc], the message found under the id is the new one. *)
Lemma findById_replaceDoc (store : list Message) (m m' : Message) :
  findById (_id m') store = Some m →
  findById (_id m') (replaceDoc m' store) = Some m'.
Proof.
  unfold findById, replaceDoc. rewrite list_find_fmap.
  rewrite (list_find_ext
             ((λ d, _id d = _id m')
              ∘ (λ d, if bool_decide (_id d = _id m') then m' else d))
             (λ d, _id d = _id m')).
  - destruct (list_find _ store) as [[i x]|] eqn:E; [|done]. simpl.
    intros [= ->]. apply list_find_Some in E as (_ & Hid & _).
    by rewrite bool_decide_eq_true_2.
  - intros d. simpl. case_bool_decide; naive_solver.
Qed.

(** [replaceDoc] touches no document with another id. *)
Lemma findById_replaceDoc_ne (store : list Message) (m' : Message)
    (id : ObjectId) :
  id ≠ _id m' →
  findById id (replaceDoc m' store) = findById id store.
Proof.
  intros Hne. unfold findById, replaceDoc. rewrite list_find_fmap.
  rewrite (list_find_ext
             ((λ d, _id d = id)
              ∘ (λ d, if bool_decide (_id d = _id m') then m' else d))
             (λ d, _id d = id)).
  - destruct (list_find _ store) as [[i x]|] eqn:E; [|done]. simpl.
    apply list_find_Some in E as (_ & Hid & _).
    rewrite bool_decide_eq_false_2; [done|congruence].
  - intros d. simpl. case_bool_decide; naive_solver.
Qed.

Lemma elem_of_replaceDoc (store : list Message) (m' x : Message) :
  x ∈ replaceDoc m' store →
  x = m' ∨ (x ∈ store ∧ _id x ≠ _id m').
Proof.
  unfold replaceDoc. intros (d & -> & Hd)%list_elem_of_fmap.
  case_bool_decide; [by left|by right].
Qed.

(** ** C6: editing a message *)

Lemma edited_fields (newText : JsString) (now : Date) (m : Message) :
  text (edited newText now m) = Some (trim newText)
  ∧ isEdited (edited newText now m) = true
  ∧ editedAt (edited newText now m) = Some now
  ∧ _id (edited newText now m) = _id m
  ∧ receiver (edited newText now m) = receiver m
  ∧ group (edited newText now m) = group m.
Proof. by destruct m. Qed.

Lemma validate_edited (newText : JsString) (now : Date) (m : Message) :
  exactlyOne m →
  validate (edited newText now m)
  = if bool_decide (length (trim newText) ≤ maxlength) then None
    else Some TextTooLong.
Proof.
  intros H%preValidate_exactlyOne. unfold validate.
  replace (preValidate (edited newText now m)) with (preValidate m)
    by by destruct m.
  rewrite H. by destruct m.
Qed.

Lemma handleEditMessage_spec (w : World) (socket : CustomSocket)
    (id : ObjectId) (newText : JsString) (now : Date) :
  uniqueIds (messages w) →
  Forall exactlyOne (messages w) →
  let out := handleEditMessage w socket id newText now in
  (editable w (s_userId socket) id newText now →
   ∃ m, findById id (messages w) = Some m
        ∧ out = (set_messages
                   (replaceDoc (withDefaults (edited newText now m)) (messages w))
                   w,
                 fanoutToParties w socket messageEdited (edited newText now m)))
  ∧ (¬ editable w (s_userId socket) id newText now →
     out.1 = w ∧ ∃ msg, out.2 = emitError socket msg)
  ∧ (∀ m, findById id (messages w) = Some m → sender m = s_userId socket →
          (messageAge now m > twelveHoursInMs)%Z →
          out = (w, emitError socket "Cannot edit message older than 12 hours")).
Proof.
  intros Hnd Hwf out. subst out. unfold handleEditMessage.
  destruct (findOneByIdAndSender id (s_userId socket) (messages w)) as [m|] eqn:E.
  - pose proof (proj1 (findOne_findById _ _ _ _ Hnd) E) as [Hf Hs].
    assert (exactlyOne m) as Hm.
    { apply findById_Some in Hf as [Hin _].
      by apply (proj1 (Forall_forall _ _) Hwf). }
    case_bool_decide as Hage.
    { split_and!.
      - intros (m0 & Hf0 & _ & _ & ? & _). simplify_eq; lia.
      - intros _. eauto.
      - done. }
    case_bool_decide as Hty.
    { split_and!.
      - intros (m0 & Hf0 & _ & ? & _). simplify_eq.
      - intros _. eauto.
      - intros m0 Hf0 _ ?. simplify_eq; lia. }
    unfold saveLoaded. fold (edited newText now m).
    rewrite (validate_edited _ _ _ Hm).
    case_bool_decide as Hlen.
    + split_and!.
      * intros _. eauto.
      * intros []. exists m. split_and!; [done..| |lia|done].
        by destruct (decide (messageType m = text_t)).
      * intros m0 Hf0 _ ?. simplify_eq; lia.
    + split_and!.
      * intros (m0 & Hf0 & _ & _ & _ & ?). done.
      * intros _. eauto.
      * intros m0 Hf0 _ ?. simplify_eq; lia.
  - split_and!.
    + intros (m0 & Hf0 & Hs0 & _).
      rewrite (proj2 (findOne_findById _ _ _ _ Hnd) (conj Hf0 Hs0)) in E. done.
    + intros _. eauto.
    + intros m0 Hf0 Hs0 _.
      rewrite (proj2 (findOne_findById _ _ _ _ Hnd) (conj Hf0 Hs0)) in E. done.
Qed.

Lemma blankAfterTrim_Some (t : JsString) :
  blankAfterTrim (Some t) = bool_decide (trim t = []).
Proof. unfold blankAfterTrim. simpl. by destruct (trim t). Qed.

Lemma editMessage_spec (w : World) (u id : ObjectId) (newText : JsString)
    (now : Date) :
  uniqueIds (messages w) →
  Forall exactlyOne (messages w) →
  let reply := editMessage w (Some u) (Some id) (Some newText) now in
  (editable w u id newText now ∧ trim newText ≠ [] →
   ∃ m, findById id (messages w) = Some m
        ∧ reply = (set_messages
                     (replaceDoc (withDefaults (edited newText now m))
                        (messages w)) w,
                   mkResponse 200 (j_doc (edited newText now m))))
  ∧ (¬ (editable w u id newText now ∧ trim newText ≠ []) →
     reply.1 = w ∧ status reply.2 ≠ 200)
  ∧ (trim newText ≠ [] →
     ∀ m, findById id (messages w) = Some m → sender m = u →
          (messageAge now m > twelveHoursInMs)%Z →
          reply = (w, mkResponse 400
                        (j_message "Cannot edit message older than 12 hours"))).
Proof.
  intros Hnd Hwf reply. subst reply. unfold editMessage.
  rewrite blankAfterTrim_Some. case_bool_decide as Hblank.
  { split_and!; [intros [_ ?]; done|done|done]. }
  destruct (findOneByIdAndSender id u (messages w)) as [m|] eqn:E.
  - pose proof (proj1 (findOne_findById _ _ _ _ Hnd) E) as [Hf Hs].
    assert (exactlyOne m) as Hm.
    { apply findById_Some in Hf as [Hin _].
      by apply (proj1 (Forall_forall _ _) Hwf). }
    case_bool_decide as Hage.
    { split_and!.
      - intros [(m0 & Hf0 & _ & _ & ? & _) _]. simplify_eq; lia.
      - done.
      - done. }
    case_bool_decide as Hty.
    { split_and!.
      - intros [(m0 & Hf0 & _ & ? & _) _]. simplify_eq.
      - done.
      - intros _ m0 Hf0 _ ?. simplify_eq; lia. }
    unfold saveLoaded. simpl orEmpty. fold (edited newText now m).
    rewrite (validate_edited _ _ _ Hm).
    case_bool_decide as Hlen.
    + split_and!.
      * intros _. eauto.
      * intros []. split; [|done]. exists m. split_and!; [done..| |lia|done].
        by destruct (decide (messageType m = text_t)).
      * intros _ m0 Hf0 _ ?. simplify_eq; lia.
    + split_and!.
      * intros [(m0 & Hf0 & _ & _ & _ & ?) _]. done.
      * done.
      * intros _ m0 Hf0 _ ?. simplify_eq; lia.
  - split_and!.
    + intros [(m0 & Hf0 & Hs0 & _) _].
      rewrite (proj2 (findOne_findById _ _ _ _ Hnd) (conj Hf0 Hs0)) in E. done.
    + done.
    + intros _ m0 Hf0 Hs0 _.
      rewrite (proj2 (findOne_findById _ _ _ _ Hnd) (conj Hf0 Hs0)) in E. done.
Qed.

Lemma editable_dec (w : World) (u id : ObjectId) (newText : JsString)
    (now : Date) :
  editable w u id newText now ∨ ¬ editable w u id newText now.
Proof.
  unfold editable. destruct (findById id (messages w)) as [m|].
  - destruct (decide (sender m = u ∧ messageType m = text_t
                      ∧ (messageAge now m ≤ twelveHoursInMs)%Z
                      ∧ length (trim newText) ≤ maxlength)) as [H|H].
    + left. by exists m.
    + right. intros (m0 & [= <-] & ?). by apply H.
  - right. intros (m0 & ? & _). done.
Qed.

(** C6, as the code has it. With [u] the caller: an edit is accepted if
    and only if the message exists, [u] sent it, its kind is text, its
    age does not exceed 12 hours, and the new text, once trimmed, is at
    most 1000 code units long; the HTTP controller moreover wants the
    trimmed text not to be empty. An accepted edit stores the trimmed
    text, [isEdited = true] and [editedAt = now]. A refused edit leaves
    the world as it was, and a message past the window is refused with
    the 12-hour error. *)
Theorem C6_edit_accepted_iff (w : World) (socket : CustomSocket)
    (id : ObjectId) (newText : JsString) (now : Date) :
  uniqueIds (messages w) →
  Forall exactlyOne (messages w) →
  let u := s_userId socket in
  let out := handleEditMessage w socket id newText now in
  let reply := editMessage w (Some u) (Some id) (Some newText) now in
  let stored (w' : World) :=
    ∃ m', findById id (messages w') = Some m'
          ∧ text m' = Some (trim newText)
          ∧ isEdited m' = true
          ∧ editedAt m' = Some now in
  ((∃ m', emit socket messageEdited (doc m') ∈ out.2)
   ↔ editable w u id newText now)
  ∧ (status reply.2 = 200 ↔ editable w u id newText now ∧ trim newText ≠ [])
  ∧ (editable w u id newText now → stored out.1)
  ∧ (status reply.2 = 200 → stored reply.1)
  ∧ (¬ editable w u id newText now → out.1 = w)
  ∧ (status reply.2 ≠ 200 → reply.1 = w)
  ∧ (∀ m, findById id (messages w) = Some m → sender m = u →
          (messageAge now m > twelveHoursInMs)%Z →
          out.2 = emitError socket "Cannot edit message older than 12 hours"
          ∧ (trim newText ≠ [] →
             reply.2 = mkResponse 400
                         (j_message "Cannot edit message older than 12 hours"))).
Proof.
  intros Hnd Hwf u out reply stored.
  destruct (handleEditMessage_spec w socket id newText now Hnd Hwf)
    as (Hok & Hno & Hwin).
  destruct (editMessage_spec w u id newText now Hnd Hwf)
    as (Rok & Rno & Rwin).
  fold out in Hok, Hno, Hwin. fold reply in Rok, Rno, Rwin.
  assert (∀ m, findById id (messages w) = Some m →
               stored (set_messages
                         (replaceDoc (withDefaults (edited newText now m))
                            (messages w)) w))
    as Hstored.
  { intros m Hf. exists (withDefaults (edited newText now m)). simpl.
    destruct (edited_fields newText now m) as (Ht & He & Ha & Hid & _).
    destruct (withDefaults_fields (edited newText now m))
      as (Hid' & _ & _ & _ & Ht' & _ & _ & He' & Ha' & _).
    apply findById_Some in Hf as Hm. destruct Hm as [_ <-].
    rewrite <- Hid, <- Hid'. split_and!; [|congruence..].
    apply (findById_replaceDoc _ m). by rewrite Hid', Hid. }
  assert (editable w u id newText now ∧ trim newText ≠ []
          ∨ ¬ (editable w u id newText now ∧ trim newText ≠ [])) as Rdec.
  { destruct (editable_dec w u id newText now) as [?|?]; [|right; tauto].
    destruct (decide (trim newText = [])); [right; tauto|left; tauto]. }
  split_and!.
  - split.
    + intros [m' Hin].
      destruct (editable_dec w u id newText now) as [?|Hn]; [done|].
      destruct (Hno Hn) as (_ & msg & Hev). rewrite Hev in Hin.
      apply list_elem_of_singleton in Hin. done.
    + intros He. destruct (Hok He) as (m & _ & ->). eexists. simpl. by left.
  - split.
    + intros Hst. destruct Rdec as [?|Hn]; [done|].
      by destruct (Rno Hn) as [_ ?].
    + intros He. by destruct (Rok He) as (m & _ & ->).
  - intros He. destruct (Hok He) as (m & Hf & ->). by apply Hstored.
  - intros Hst. destruct Rdec as [He|Hn].
    + destruct (Rok He) as (m & Hf & ->). by apply Hstored.
    + by destruct (Rno Hn) as [_ ?].
  - intros Hn. by destruct (Hno Hn).
  - intros Hst. destruct Rdec as [He|Hn].
    + destruct (Rok He) as (m & Hf & Hr). by rewrite Hr in Hst.
    + by destruct (Rno Hn).
  - intros m Hf Hs Hage. split.
    + by rewrite (Hwin m Hf Hs Hage).
    + intros Hne. by rewrite (Rwin Hne m Hf Hs Hage).
Qed.

Lemma afterHi_uniqueIds : uniqueIds (messages afterHi).
Proof. apply (bool_decide_unpack _). vm_compute. exact I. Qed.

Lemma afterHi_exactlyOne : Forall exactlyOne (messages afterHi).
Proof. apply (bool_decide_unpack _). vm_compute. exact I. Qed.

(** Alice edits her "hi" into " hey ": at 11h59m the trimmed text is
    stored, at 12h+1s the edit is refused with the 12-hour error. *)
Lemma C6_edit_accepted_iff_witness :
  uniqueIds (messages afterHi)
  ∧ Forall exactlyOne (messages afterHi)
  ∧ (∃ m', findById 100%N
             (messages (handleEditMessage afterHi aliceSocket 100%N (js " hey ")
                          (noon + elevenFiftyNine)%Z).1) = Some m'
           ∧ text m' = Some (trim (js " hey "))
           ∧ isEdited m' = true
           ∧ editedAt m' = Some (noon + elevenFiftyNine)%Z)
  ∧ (handleEditMessage afterHi aliceSocket 100%N (js " hey ")
       (noon + twelveAndOneSecond)%Z).2
    = emitError aliceSocket "Cannot edit message older than 12 hours".
Proof.
  split; [apply afterHi_uniqueIds|]. split; [apply afterHi_exactlyOne|].
  split.
  - destruct (C6_edit_accepted_iff afterHi aliceSocket 100%N (js " hey ")
                (noon + elevenFiftyNine)%Z afterHi_uniqueIds afterHi_exactlyOne)
      as (_ & _ & Hstored & _).
    apply Hstored. eexists. split; [vm_compute; reflexivity|].
    split; [reflexivity|]. split; [reflexivity|].
    split; [vm_compute; discriminate|]. vm_compute. lia.
  - destruct (C6_edit_accepted_iff afterHi aliceSocket 100%N (js " hey ")
                (noon + twelveAndOneSecond)%Z afterHi_uniqueIds
                afterHi_exactlyOne)
      as (_ & _ & _ & _ & _ & _ & Hwindow).
    eapply Hwindow.
    + vm_compute. reflexivity.
    + reflexivity.
    + vm_compute. reflexivity.
Defined.

(** As the specification states it, C6 fails. Alice sent message 100, a
    text message one second old. Over HTTP an edit to a text of blanks
    is answered 400; over the socket an edit to 1001 letters is answered
    with an error; both leave the world as it was. *)
Lemma C6_edit_counterexample :
  (∃ m, findById 100%N (messages afterHi) = Some m
        ∧ sender m = alice
        ∧ messageType m = text_t
        ∧ (messageAge (noon + 1000)%Z m ≤ twelveHoursInMs)%Z)
  ∧ editMessage afterHi (Some alice) (Some 100%N) (Some (js "   "))
      (noon + 1000)%Z
    = (afterHi, mkResponse 400 (j_message "Text cannot be empty"))
  ∧ handleEditMessage afterHi aliceSocket 100%N (replicate 1001 97%N)
      (noon + 1000)%Z
    = (afterHi, emitError aliceSocket "Failed to edit message").
Proof.
  split.
  - eexists. split; [vm_compute; reflexivity|].
    split; [reflexivity|]. split; [reflexivity|]. vm_compute. discriminate.
  - split; vm_compute; reflexivity.
Qed.

(** ** C7: the passive read path of a direct send *)

(** The room of a pair does not depend on who names it. *)
Lemma chatRoomOf_comm (a b : ObjectId) : chatRoomOf a b = chatRoomOf b a.
Proof. unfold chatRoomOf. by rewrite N.min_comm, N.max_comm. Qed.

Lemma receiverViewing_spec (w : World) (senderId rcvId : ObjectId) :
  receiverViewing w senderId rcvId = true ↔ viewingChat w senderId rcvId.
Proof.
  unfold receiverViewing, viewingChat. split.
  - destruct (findOnline rcvId w) as [entry|]; [|done].
    destruct (sockets w !! o_socketId entry) as [conn|] eqn:E; [|done].
    intros H%bool_decide_eq_true. by exists entry, conn.
  - intros (entry & conn & -> & -> & H). by apply bool_decide_eq_true.
Qed.

(** [joinChat] on the registered connection of a user makes the user a
    viewer of the chat with the other party. *)
Lemma handleJoinChat_viewing (w : World) (socket : CustomSocket)
    (other : ObjectId) (entry : OnlineUser) :
  findOnline (s_userId socket) w = Some entry →
  o_socketId entry = s_id socket →
  is_Some (sockets w !! s_id socket) →
  viewingChat (handleJoinChat w socket other) other (s_userId socket).
Proof.
  intros Hon Hid [conn Hconn]. unfold viewingChat, handleJoinChat.
  exists entry, (joinRoom (chatRoomOf (s_userId socket) other) conn).
  split; [done|]. simpl. rewrite Hid. split.
  - rewrite lookup_alter_eq, Hconn. done.
  - rewrite (chatRoomOf_comm other). unfold joinRoom. simpl.
    case_bool_decide; [done|]. apply elem_of_app. right. by left.
Qed.

Lemma directMessageData_fields (id s r : ObjectId) (ty : ClientMessageType)
    (txt img vid : option JsString) (read : bool) (now : Date) :
  let m := directMessageData id s r ty txt img vid read now in
  _id m = id ∧ sender m = s ∧ receiver m = Some r ∧ group m = None
  ∧ isRead m = read ∧ createdAt m = now.
Proof. by destruct ty. Qed.




(** The same send when Bob has not opened the chat. *)
Example not_viewing_unread :
  ∃ m, messages (handleSendMessage friendly aliceSocket hi noon).1 = [m]
       ∧ isRead m = false
       ∧ (handleSendMessage friendly aliceSocket hi noon).2
         = [emitTo (s_id bobSocket) receiveMessage (doc m);
            emit aliceSocket messageSent (doc m)].
Proof. eexists. split; [vm_compute; reflexivity|]. by vm_compute. Qed.

(** ** C8: delete-for-me on a direct message *)

Lemma deletedFor_sender (u : ObjectId) (now : Date) (m : Message) :
  sender m = u →
  deletedFor u now m = set_deletedAt (Some now) (set_deletedForSender true m).
Proof. intros H. unfold deletedFor. by rewrite bool_decide_eq_true_2. Qed.

Lemma deletedFor_receiver (u : ObjectId) (now : Date) (m : Message) :
  sender m ≠ u →
  deletedFor u now m = set_deletedAt (Some now) (set_deletedForReceiver true m).
Proof. intros H. unfold deletedFor. by rewrite bool_decide_eq_false_2. Qed.

(** The frame of the two assignments. *)
Lemma deletedForSender_frame (now : Date) (m : Message) :
  let m' := set_deletedAt (Some now) (set_deletedForSender true m) in
  deletedForSender m' = true ∧ deletedAt m' = Some now
  ∧ deletedForReceiver m' = deletedForReceiver m
  ∧ text m' = text m ∧ isRead m' = isRead m ∧ isEdited m' = isEdited m
  ∧ _id m' = _id m ∧ sender m' = sender m ∧ receiver m' = receiver m
  ∧ group m' = group m ∧ createdAt m' = createdAt m.
Proof. by destruct m. Qed.

Lemma deletedForReceiver_frame (now : Date) (m : Message) :
  let m' := set_deletedAt (Some now) (set_deletedForReceiver true m) in
  deletedForReceiver m' = true ∧ deletedAt m' = Some now
  ∧ deletedForSender m' = deletedForSender m
  ∧ text m' = text m ∧ isRead m' = isRead m ∧ isEdited m' = isEdited m
  ∧ _id m' = _id m ∧ sender m' = sender m ∧ receiver m' = receiver m
  ∧ group m' = group m ∧ createdAt m' = createdAt m.
Proof. by destruct m. Qed.

Lemma handleDeleteMessageForMe_direct (w : World) (socket : CustomSocket)
    (id : ObjectId) (now : Date) (m : Message) (r : ObjectId) :
  findById id (messages w) = Some m →
  group m = None →
  receiver m = Some r →
  s_userId socket = sender m ∨ s_userId socket = r →
  handleDeleteMessageForMe w socket id now
  = (set_messages
       (replaceDoc (withDefaults (deletedFor (s_userId socket) now m))
          (messages w)) w,
     [emit socket messageDeletedForMe
        (doc (deletedFor (s_userId socket) now m))]).
Proof.
  intros Hf Hg Hr Hparty. unfold handleDeleteMessageForMe.
  rewrite Hf, Hg. unfold handleNormalMessageDeleteForMe, deletedFor.
  rewrite Hr.
  replace (negb (bool_decide (sender m = s_userId socket))
           && negb (bool_decide (Some r = Some (s_userId socket)))) with false.
  2:{ destruct Hparty as [->| ->].
      - by rewrite bool_decide_eq_true_2.
      - rewrite (bool_decide_eq_true_2 (Some _ = Some _)) by done.
        by rewrite andb_false_r. }
  unfold saveLoaded.
  replace (preValidate _) with (@None ValidationError); [done|].
  symmetry. apply preValidate_exactlyOne. left.
  case_bool_decide; destruct m; simpl in *; by subst.
Qed.

(** The HTTP controller writes the same document. *)
Lemma deleteMessageForMe_direct (w : World) (u id : ObjectId) (now : Date)
    (m : Message) (r : ObjectId) :
  findById id (messages w) = Some m →
  group m = None →
  receiver m = Some r →
  u = sender m ∨ u = r →
  deleteMessageForMe w (Some u) (Some id) now
  = (set_messages (replaceDoc (withDefaults (deletedFor u now m)) (messages w)) w,
     mkResponse 200 (j_done "Message deleted for you" id)).
Proof.
  intros Hf Hg Hr Hparty. unfold deleteMessageForMe.
  rewrite Hf, Hg, Hr. unfold deletedFor.
  replace (negb (bool_decide (sender m = u))
           && negb (bool_decide (Some r = Some u)) && negb false) with false.
  2:{ destruct Hparty as [->| ->].
      - by rewrite bool_decide_eq_true_2.
      - rewrite (bool_decide_eq_true_2 (Some _ = Some _)) by done.
        by rewrite andb_false_r. }
  assert (bool_decide (sender m = u) = false →
          bool_decide (Some r = Some u) = true) as Hrole.
  { intros Hs. destruct Hparty as [->| ->].
    - by rewrite bool_decide_eq_true_2 in Hs.
    - by rewrite bool_decide_eq_true_2. }
  unfold saveLoaded.
  destruct (bool_decide (sender m = u)) eqn:Es.
  - replace (preValidate _) with (@None ValidationError); [done|].
    symmetry. apply preValidate_exactlyOne. left. destruct m; simpl in *; by subst.
  - rewrite (Hrole eq_refl).
    replace (preValidate _) with (@None ValidationError); [done|].
    symmetry. apply preValidate_exactlyOne. left. destruct m; simpl in *; by subst.
Qed.

(** Sorting keeps the elements. *)
Lemma elem_of_insertByCreatedAt (x m : Message) (l : list Message) :
  x ∈ insertByCreatedAt m l ↔ x = m ∨ x ∈ l.
Proof.
  induction l as [|d l IH]; simpl.
  - rewrite list_elem_of_singleton, elem_of_nil. tauto.
  - case_bool_decide.
    + by rewrite elem_of_cons.
    + rewrite !elem_of_cons, IH. tauto.
Qed.

Lemma elem_of_sortByCreatedAt (x : Message) (l : list Message) :
  x ∈ sortByCreatedAt l ↔ x ∈ l.
Proof.
  unfold sortByCreatedAt. rewrite <- (elem_of_reverse x l).
  induction (reverse l) as [|d k IH]; simpl; [done|].
  rewrite elem_of_insertByCreatedAt, elem_of_cons, IH. done.
Qed.

Lemma elem_of_getConversations_find (w : World) (u : ObjectId) (x : Message) :
  x ∈ getConversations_find w u ↔ inConversationsOf u x ∧ x ∈ messages w.
Proof.
  unfold getConversations_find.
  by rewrite elem_of_sortByCreatedAt, list_elem_of_filter.
Qed.

Lemma hidden_after_replace (w : World) (u : ObjectId) (m' : Message)
    (store : list Message) :
  ¬ inConversationsOf u m' →
  ∀ x, x ∈ getConversations_find (set_messages (replaceDoc m' store) w) u →
       _id x ≠ _id m'.
Proof.
  intros Hhid x [Hin Hx]%elem_of_getConversations_find. simpl in Hx.
  apply elem_of_replaceDoc in Hx as [->|[_ ?]]; done.
Qed.

(** The two assignments and the array default commute. *)
Lemma withDefaults_deletedForSender (now : Date) (m : Message) :
  withDefaults (set_deletedAt (Some now) (set_deletedForSender true m))
  = set_deletedAt (Some now) (set_deletedForSender true (withDefaults m)).
Proof. by destruct m. Qed.

Lemma withDefaults_deletedForReceiver (now : Date) (m : Message) :
  withDefaults (set_deletedAt (Some now) (set_deletedForReceiver true m))
  = set_deletedAt (Some now) (set_deletedForReceiver true (withDefaults m)).
Proof. by destruct m. Qed.

(** C8: let [m] be a direct message from A to B, two different users.
    Delete-for-me by A stores [m] with [deletedForSender] and [deletedAt]
    set and nothing else changed; by B, with [deletedForReceiver] and
    [deletedAt] set and nothing else changed (a row stored without the
    array [deletedForUsers] is written back with the empty array, which
    lists nobody). After A alone has deleted, the message is gone from
    A's conversation query and still in B's if it was there before (and
    the other way round). After both have deleted, it is in neither
    query, and the row is still stored. *)
Theorem C8_delete_for_me_direct (w : World) (sockA sockB : CustomSocket)
    (id : ObjectId) (m : Message) (t1 t2 : Date) :
  findById id (messages w) = Some m →
  sender m = s_userId sockA →
  receiver m = Some (s_userId sockB) →
  group m = None →
  s_userId sockA ≠ s_userId sockB →
  let a := s_userId sockA in
  let b := s_userId sockB in
  let mA :=
    withDefaults (set_deletedAt (Some t1) (set_deletedForSender true m)) in
  let mB :=
    withDefaults (set_deletedAt (Some t1) (set_deletedForReceiver true m)) in
  let mAB := set_deletedAt (Some t2) (set_deletedForReceiver true mA) in
  let wA := (handleDeleteMessageForMe w sockA id t1).1 in
  let wB := (handleDeleteMessageForMe w sockB id t1).1 in
  let wAB := (handleDeleteMessageForMe wA sockB id t2).1 in
  (messages wA = replaceDoc mA (messages w)
   ∧ findById id (messages wA) = Some mA
   ∧ text mA = text m ∧ isRead mA = isRead m ∧ isEdited mA = isEdited m
   ∧ deletedForReceiver mA = deletedForReceiver m
   ∧ deletedForSender mA = true ∧ deletedAt mA = Some t1
   ∧ deletedForUsers mA = Some (default [] (deletedForUsers m)))
  ∧ (messages wB = replaceDoc mB (messages w)
     ∧ findById id (messages wB) = Some mB
     ∧ text mB = text m ∧ isRead mB = isRead m ∧ isEdited mB = isEdited m
     ∧ deletedForSender mB = deletedForSender m
     ∧ deletedForReceiver mB = true ∧ deletedAt mB = Some t1
     ∧ deletedForUsers mB = Some (default [] (deletedForUsers m)))
  ∧ (inConversationsOf b m → mA ∈ getConversations_find wA b)
  ∧ (inConversationsOf a m → mB ∈ getConversations_find wB a)
  ∧ (∀ x, x ∈ getConversations_find wA a → _id x ≠ id)
  ∧ (∀ x, x ∈ getConversations_find wB b → _id x ≠ id)
  ∧ findById id (messages wAB) = Some mAB
  ∧ deletedForSender mAB = true ∧ deletedForReceiver mAB = true
  ∧ text mAB = text m
  ∧ (∀ x, x ∈ getConversations_find wAB a → _id x ≠ id)
  ∧ (∀ x, x ∈ getConversations_find wAB b → _id x ≠ id).
Proof.
  intros Hf Hs Hr Hg Hab a b mA mB mAB wA wB wAB. subst a b.
  pose proof (findById_Some _ _ _ Hf) as [_ Hid].
  destruct (withDefaults_fields m)
    as (Hdi & Hds & Hdr & Hdg & Hdt & _ & Hdread & Hded & _ & Hdfs & Hdfr
        & _ & _ & _ & Hdu).
  assert (mA = set_deletedAt (Some t1)
                 (set_deletedForSender true (withDefaults m))) as EmA
    by apply withDefaults_deletedForSender.
  assert (mB = set_deletedAt (Some t1)
                 (set_deletedForReceiver true (withDefaults m))) as EmB
    by apply withDefaults_deletedForReceiver.
  destruct (deletedForSender_frame t1 (withDefaults m))
    as (HA1 & HA2 & HA3 & HA4 & HA5 & HA6 & HAid & HAs & HAr & HAg & _).
  destruct (deletedForReceiver_frame t1 (withDefaults m))
    as (HB1 & HB2 & HB3 & HB4 & HB5 & HB6 & HBid & HBs & HBr & HBg & _).
  rewrite <- EmA in HA1, HA2, HA3, HA4, HA5, HA6, HAid, HAs, HAr, HAg.
  rewrite <- EmB in HB1, HB2, HB3, HB4, HB5, HB6, HBid, HBs, HBr, HBg.
  assert (deletedForUsers mA = Some (default [] (deletedForUsers m))) as HAu.
  { rewrite EmA. by destruct m. }
  assert (deletedForUsers mB = Some (default [] (deletedForUsers m))) as HBu.
  { rewrite EmB. by destruct m. }
  assert (handleDeleteMessageForMe w sockA id t1
          = (set_messages (replaceDoc mA (messages w)) w,
             [emit sockA messageDeletedForMe
                (doc (set_deletedAt (Some t1) (set_deletedForSender true m)))]))
    as EA.
  { rewrite (handleDeleteMessageForMe_direct w sockA id t1 m _ Hf Hg Hr)
      by (left; done).
    by rewrite deletedFor_sender. }
  assert (handleDeleteMessageForMe w sockB id t1
          = (set_messages (replaceDoc mB (messages w)) w,
             [emit sockB messageDeletedForMe
                (doc (set_deletedAt (Some t1)
                        (set_deletedForReceiver true m)))])) as EB.
  { rewrite (handleDeleteMessageForMe_direct w sockB id t1 m _ Hf Hg Hr)
      by (right; done).
    rewrite deletedFor_receiver; [done|]. rewrite Hs. exact Hab. }
  assert (findById id (replaceDoc mA (messages w)) = Some mA) as HfA.
  { rewrite <- Hid, <- Hdi, <- HAid. apply (findById_replaceDoc _ m).
    by rewrite HAid, Hdi, Hid. }
  assert (findById id (replaceDoc mB (messages w)) = Some mB) as HfB.
  { rewrite <- Hid, <- Hdi, <- HBid. apply (findById_replaceDoc _ m).
    by rewrite HBid, Hdi, Hid. }
  destruct (deletedForReceiver_frame t2 mA)
    as (HC1 & HC2 & HC3 & HC4 & _ & _ & HCid & HCs & HCr & HCg & _).
  fold mAB in HC1, HC2, HC3, HC4, HCid, HCs, HCr, HCg.
  assert (withDefaults mAB = mAB) as HdAB.
  { apply (withDefaults_Some _ (default [] (deletedForUsers m))).
    subst mAB. rewrite <- HAu. by destruct mA. }
  assert (handleDeleteMessageForMe wA sockB id t2
          = (set_messages (replaceDoc mAB (messages wA)) wA,
             [emit sockB messageDeletedForMe (doc mAB)])) as EAB.
  { subst wA. rewrite EA. simpl.
    rewrite (handleDeleteMessageForMe_direct _ sockB id t2 mA (s_userId sockB));
      [|done|congruence|congruence|by right].
    rewrite deletedFor_receiver; [fold mAB; by rewrite HdAB|].
    rewrite HAs, Hds, Hs. exact Hab. }
  assert (¬ inConversationsOf (s_userId sockA) mA) as HhidA.
  { intros (_ & _ & [?|?] & _); congruence. }
  assert (¬ inConversationsOf (s_userId sockB) mB) as HhidB.
  { intros (_ & _ & _ & [?|?]); congruence. }
  assert (¬ inConversationsOf (s_userId sockA) mAB) as HhidAB1.
  { intros (_ & _ & [?|?] & _); congruence. }
  assert (¬ inConversationsOf (s_userId sockB) mAB) as HhidAB2.
  { intros (_ & _ & _ & [?|?]); congruence. }
  subst wAB wB. subst wA. rewrite EAB, EA, EB. simpl.
  split_and!; try done; try congruence.
  - intros (H1 & H2 & H3 & H4). apply elem_of_getConversations_find. split.
    + split_and!; [congruence|right; congruence|left; congruence|].
      destruct H4 as [?|?]; [left; congruence|right; congruence].
    + simpl. by apply (findById_Some id).
  - intros (H1 & H2 & H3 & H4). apply elem_of_getConversations_find. split.
    + split_and!; [congruence|left; congruence| |left; congruence].
      destruct H3 as [?|?]; [left; congruence|right; congruence].
    + simpl. by apply (findById_Some id).
  - rewrite <- Hid, <- Hdi, <- HAid. by apply hidden_after_replace.
  - rewrite <- Hid, <- Hdi, <- HBid. by apply hidden_after_replace.
  - rewrite <- Hid, <- Hdi, <- HAid, <- HCid. apply (findById_replaceDoc _ mA).
    by rewrite HCid, HAid, Hdi, Hid.
  - rewrite <- Hid, <- Hdi, <- HAid, <- HCid. by apply hidden_after_replace.
  - rewrite <- Hid, <- Hdi, <- HAid, <- HCid. by apply hidden_after_replace.
Qed.

Lemma C8_delete_for_me_direct_witness :
  findById 100%N (messages afterHi) = Some hiMessage
  ∧ s_userId aliceSocket ≠ s_userId bobSocket
  ∧ inConversationsOf bob hiMessage
  ∧ set_deletedAt (Some (noon + 1)%Z) (set_deletedForSender true hiMessage)
    ∈ getConversations_find
        (handleDeleteMessageForMe afterHi aliceSocket 100%N (noon + 1)%Z).1 bob
  ∧ ∀ x, x ∈ getConversations_find
               (handleDeleteMessageForMe
                  (handleDeleteMessageForMe afterHi aliceSocket 100%N
                     (noon + 1)%Z).1
                  bobSocket 100%N (noon + 2)%Z).1 bob →
         _id x ≠ 100%N.
Proof.
  assert (findById 100%N (messages afterHi) = Some hiMessage) as Hf
    by (vm_compute; reflexivity).
  assert (s_userId aliceSocket ≠ s_userId bobSocket) as Hne by done.
  assert (inConversationsOf bob hiMessage) as Hsee.
  { apply (bool_decide_unpack _). vm_compute. exact I. }
  split; [exact Hf|]. split; [exact Hne|]. split; [exact Hsee|].
  destruct (C8_delete_for_me_direct afterHi aliceSocket bobSocket 100%N
              hiMessage (noon + 1)%Z (noon + 2)%Z Hf eq_refl eq_refl eq_refl Hne)
    as (_ & _ & HB & _ & _ & _ & _ & _ & _ & _ & _ & Hgone).
  split; [exact (HB Hsee)|exact Hgone].
Defined.

(** ** C9: exactly one of receiver and group *)

(** [save] accepts a document only when it has exactly one of the two. *)
Lemma saveNew_accepts (m : Message) (store store' : list Message) :
  saveNew m store = inr store' → exactlyOne m ∧ store' = store ++ [m].
Proof.
  unfold saveNew, validate.
  destruct (preValidate m) eqn:E; [done|].
  destruct (schemaValidate m); [done|]. intros [= <-].
  split; [by apply preValidate_exactlyOne|done].
Qed.

Lemma saveLoaded_accepts (b : bool) (m : Message) (store store' : list Message) :
  saveLoaded b m store = inr store' →
  exactlyOne m ∧ store' = replaceDoc (withDefaults m) store.
Proof.
  unfold saveLoaded, validate.
  destruct (preValidate m) eqn:E.
  - by destruct b.
  - intros H. split; [by apply preValidate_exactlyOne|].
    destruct b; [destruct (schemaValidate m)|]; by simplify_eq.
Qed.

Lemma saveNew_storeOk (m : Message) (store store' : list Message) :
  Forall exactlyOne store → saveNew m store = inr store' →
  Forall exactlyOne store'.
Proof.
  intros Hok [Hm ->]%saveNew_accepts. apply Forall_app. split; [done|].
  by apply Forall_singleton.
Qed.

Lemma saveLoaded_storeOk (b : bool) (m : Message) (store store' : list Message) :
  Forall exactlyOne store → saveLoaded b m store = inr store' →
  Forall exactlyOne store'.
Proof.
  intros Hok [Hm ->]%saveLoaded_accepts. unfold replaceDoc.
  apply Forall_fmap. eapply Forall_impl; [exact Hok|].
  intros d Hd. simpl. case_bool_decide; [by destruct m|done].
Qed.

Lemma markRead_storeOk (a b : ObjectId) (store : list Message) :
  Forall exactlyOne store → Forall exactlyOne (markRead a b store).
Proof.
  intros Hok. unfold markRead. apply Forall_fmap.
  eapply Forall_impl; [exact Hok|]. intros d Hd. simpl.
  case_bool_decide; [by destruct d|done].
Qed.

Create HintDb store discriminated.

#[local] Hint Resolve saveNew_storeOk saveLoaded_storeOk markRead_storeOk : store.

Ltac store_ok :=
  repeat case_match; simpl in *; simplify_eq; eauto with store.

Lemma perform_storeOk (a : Action) (w : World) :
  storeOk w → storeOk (perform a w).
Proof.
  unfold storeOk. intros Hok. destruct a; simpl.
  - unfold handleSendMessage. store_ok.
  - unfold handleSendGroupMessage. store_ok.
  - unfold sendMessage. store_ok.
  - unfold saveSystemMessage. store_ok.
  - unfold handleEditMessage. store_ok.
  - unfold editMessage. store_ok.
  - unfold handleDeleteMessageForMe, handleGroupMessageDeleteForMe,
      handleNormalMessageDeleteForMe. store_ok.
  - unfold deleteMessageForMe. store_ok.
  - unfold handleDeleteMessageForEveryone, handleGroupMessageDeleteForEveryone,
      handleNormalMessageDeleteForEveryone. store_ok.
  - unfold deleteMessageForEveryone. store_ok.
  - unfold handleMarkMessagesAsRead. store_ok.
  - unfold markMessagesAsRead. store_ok.
  - unfold handleMarkGroupMessagesAsRead. store_ok.
  - unfold markGroupMessagesAsRead. store_ok.
  - done.
  - done.
  - unfold handleJoinGroupChat. store_ok.
  - unfold handleLeaveGroupChat. store_ok.
  - done.
  - done.
Qed.

Lemma run_storeOk (actions : list Action) (w : World) :
  storeOk w → storeOk (run actions w).
Proof.
  revert w. induction actions as [|a actions IH]; intros w Hok; [done|].
  simpl. apply IH. by apply perform_storeOk.
Qed.

(** The hook refuses a document with neither or with both. *)
Example save_refuses_neither :
  saveNew (newMessage_doc 1%N alice None None (Some (js "x")) None None text_t
             false None noon) []
  = inl EitherReceiverOrGroup.
Proof. reflexivity. Qed.

Example save_refuses_both :
  saveNew (newMessage_doc 1%N alice (Some bob) (Some 7%N) (Some (js "x")) None
             None text_t false None noon) []
  = inl CannotSpecifyBoth.
Proof. reflexivity. Qed.

(** C9: starting from a store whose messages all have exactly one of
    receiver and group (the empty store is one), after any sequence of
    sends, group sends, system notices, edits, deletions and read marks,
    over the socket or over HTTP, every stored message has exactly one of
    receiver and group: the messages the create paths add have it, and
    no mutation takes it away. *)
Theorem C9_exactly_one_of_receiver_and_group (w : World)
    (actions : list Action) :
  (∀ m, m ∈ messages w → exactlyOne m) →
  ∀ m, m ∈ messages (run actions w) →
       (receiver m ≠ None ∧ group m = None)
       ∨ (receiver m = None ∧ group m ≠ None).
Proof.
  intros Hok. apply Forall_forall. apply run_storeOk.
  by apply Forall_forall.
Qed.

Lemma C9_exactly_one_of_receiver_and_group_witness :
  (∀ m, m ∈ messages friendly → exactlyOne m)
  ∧ length (messages (run session friendly)) = 2
  ∧ ∀ m, m ∈ messages (run session friendly) →
         (receiver m ≠ None ∧ group m = None)
         ∨ (receiver m = None ∧ group m ≠ None).
Proof.
  assert (∀ m, m ∈ messages friendly → exactlyOne m) as Hok.
  { intros m Hm. simpl in Hm. by apply elem_of_nil in Hm. }
  split; [exact Hok|]. split; [vm_compute; reflexivity|].
  exact (C9_exactly_one_of_receiver_and_group friendly session Hok).
Defined.

(** ** C10: disconnection and the presence registry *)

Lemma jsmap_get_delete {V : Type} (k : ObjectId) (m : list (ObjectId * V)) :
  jsmap_get k (jsmap_delete k m) = None.
Proof.
  unfold jsmap_get, jsmap_delete.
  replace (list_find (λ e : ObjectId * V, e.1 = k) (filter (λ e, e.1 ≠ k) m))
    with (@None (nat * (ObjectId * V))); [done|].
  symmetry. apply list_find_None. apply Forall_forall.
  intros e [He _]%list_elem_of_filter. done.
Qed.

Lemma jsmap_get_set {V : Type} (k : ObjectId) (v : V) (m : list (ObjectId * V)) :
  jsmap_get k (jsmap_set k v m) = Some v.
Proof.
  unfold jsmap_get. induction m as [|[k' v'] m IH]; simpl.
  - by rewrite decide_True.
  - case_bool_decide as Hk; simpl.
    + by rewrite decide_True.
    + rewrite decide_False by done.
      destruct (list_find _ (jsmap_set k v m)) as [[i e]|]; [|done].
      simpl in *. done.
Qed.

(** C10: when a socket authenticated as [u] disconnects, the registry
    entry under [u] is deleted whatever socket id it records; every other
    registered user whose socket is live and who is in no block relation
    with [u] is sent [userOffline] for [u]; and when the entry recorded a
    newer socket of [u], that socket is still live afterwards, so a user
    with a live connection is reported offline. *)
Theorem C10_disconnect_unconditional (w : World) (socket : CustomSocket) :
  let u := s_userId socket in
  let out := handleDisconnect w socket in
  jsmap_get u (onlineUsers out.1) = None
  ∧ (∀ user k other otherUser,
       users w !! u = Some user →
       s_username socket ≠ "" →
       (k, other) ∈ onlineUsers w → k ≠ u → o_userId other ≠ u →
       users w !! o_userId other = Some otherUser →
       u ∉ blockedUsers otherUser →
       o_userId other ∉ blockedUsers user →
       is_Some (sockets out.1 !! o_socketId other) →
       emitTo (o_socketId other) userOffline (presence u (s_username socket))
       ∈ out.2)
  ∧ (∀ entry newer,
       jsmap_get u (onlineUsers w) = Some entry →
       o_socketId entry ≠ s_id socket →
       sockets w !! o_socketId entry = Some newer →
       sockets out.1 !! o_socketId entry = Some newer
       ∧ jsmap_get u (onlineUsers out.1) = None).
Proof.
  intros u out. subst u out. unfold handleDisconnect. simpl.
  split; [apply jsmap_get_delete|]. split.
  - intros user k other otherUser Hu Hname Hin Hk Hother Hou Hb1 Hb2 [c Hc].
    unfold named. rewrite bool_decide_eq_false_2 by done. simpl.
    unfold notifyUserOnlineStatus. simpl. rewrite Hu.
    apply list_elem_of_omap. exists other. split.
    + unfold jsmap_values, jsmap_delete.
      apply list_elem_of_fmap. exists (k, other). split; [done|].
      apply list_elem_of_filter. done.
    + rewrite bool_decide_eq_false_2 by done. rewrite Hou.
      rewrite !bool_decide_eq_false_2 by done. simpl. by rewrite Hc.
  - intros entry newer _ Hne Hlive. split; [|apply jsmap_get_delete].
    by rewrite lookup_delete_ne.
Qed.

Lemma C10_disconnect_unconditional_witness :
  jsmap_get alice (onlineUsers reconnected)
  = Some (mkOnline alice (s_id aliceSocket2) "alice")
  ∧ jsmap_get alice (onlineUsers (handleDisconnect reconnected aliceSocket).1) = None
  ∧ sockets (handleDisconnect reconnected aliceSocket).1 !! s_id aliceSocket2
    = Some aliceSocket2
  ∧ emitTo (s_id bobSocket) userOffline (presence alice "alice")
    ∈ (handleDisconnect reconnected aliceSocket).2.
Proof.
  destruct (C10_disconnect_unconditional reconnected aliceSocket)
    as (Hgone & Hnotify & Hnewer).
  split; [vm_compute; reflexivity|]. split; [exact Hgone|]. split.
  - apply (Hnewer (mkOnline alice (s_id aliceSocket2) "alice") aliceSocket2).
    + vm_compute. reflexivity.
    + done.
    + vm_compute. reflexivity.
  - apply (Hnotify (mkUser "alice" []) bob (mkOnline bob (s_id bobSocket) "bob")
             (mkUser "bob" [])).
    + vm_compute. reflexivity.
    + done.
    + right. left.
    + done.
    + done.
    + vm_compute. reflexivity.
    + apply not_elem_of_nil.
    + apply not_elem_of_nil.
    + exists bobSocket. vm_compute. reflexivity.
Defined.

(** A connection registers its socket under the user, replacing the
    entry of an earlier connection of the same user. *)
Lemma handleSocketConnection_registers (w : World) (socket : CustomSocket) :
  jsmap_get (s_userId socket) (onlineUsers (handleSocketConnection w socket).1)
  = Some (mkOnline (s_userId socket) (s_id socket) (s_username socket)).
Proof. unfold handleSocketConnection. simpl. apply jsmap_get_set. Qed.

(** * Further properties of the server *)

(** ** Blocking and unblocking *)

Lemma elem_of_addToSet (x y : ObjectId) (l : list ObjectId) :
  y ∈ addToSet x l ↔ y = x ∨ y ∈ l.
Proof.
  unfold addToSet. case_bool_decide as H.
  - split; [by right|]. intros [->|?]; done.
  - rewrite elem_of_app, list_elem_of_singleton. tauto.
Qed.

Lemma pull_addToSet (x : ObjectId) (l : list ObjectId) :
  x ∉ l → pull x (addToSet x l) = l.
Proof.
  intros Hx. unfold pull, addToSet. rewrite bool_decide_eq_false_2 by done.
  rewrite filter_app. rewrite filter_cons_False by (intros H; by apply H).
  rewrite filter_nil, app_nil_r.
  induction l as [|y l IH]; [done|].
  apply not_elem_of_cons in Hx as [Hne Hx].
  rewrite filter_cons_True by done. by rewrite IH.
Qed.

Lemma world_eq (w1 w2 : World) :
  messages w1 = messages w2 → users w1 = users w2 → groups w1 = groups w2 →
  onlineUsers w1 = onlineUsers w2 → sockets w1 = sockets w2 →
  userRooms w1 = userRooms w2 → nextObjectId w1 = nextObjectId w2 →
  w1 = w2.
Proof. destruct w1, w2. simpl. by intros -> -> -> -> -> -> ->. Qed.

Lemma hasBlocked_alter (w : World) (f : list ObjectId → list ObjectId)
    (me u x : ObjectId) :
  hasBlocked (alter (withBlocked f) me (users w) !! u) x
  = if bool_decide (u = me)
    then match users w !! me with
         | Some ua => bool_decide (x ∈ f (blockedUsers ua))
         | None => false
         end
    else hasBlocked (users w !! u) x.
Proof.
  case_bool_decide as Hu.
  - subst u. rewrite lookup_alter_eq. by destruct (users w !! me).
  - by rewrite lookup_alter_ne.
Qed.

(** X1. Once a user has blocked another, no direct message passes between
    the two in either direction: over the socket the store is left as it
    was and nobody is handed [receiveMessage]; over HTTP the request is
    not answered 201 and the store is left as it was. *)
Theorem blockUser_stops_direct_messages (w : World) (me other : ObjectId)
    (ua : User) :
  users w !! me = Some ua →
  other ≠ me →
  let w' := (blockUser w (Some me) other).1 in
  ∀ (a b : ObjectId), (a = me ∧ b = other) ∨ (a = other ∧ b = me) →
    (∀ (socket : CustomSocket) (data : SendData) (now : Date),
       s_userId socket = a → receiverId data = b →
       messages (handleSendMessage w' socket data now).1 = messages w
       ∧ ∀ e, e ∈ (handleSendMessage w' socket data now).2 →
              e_name e ≠ receiveMessage)
    ∧ (∀ (body : SendBody) (now : Date),
         b_receiverId body = Some b →
         messages (sendMessage w' (Some a) body now).1 = messages w
         ∧ status (sendMessage w' (Some a) body now).2 ≠ 201).
Proof.
  intros Hme Hne w' a b Hab.
  assert (w' = set_users (alter (withBlocked (addToSet other)) me (users w)) w)
    as Hw'.
  { subst w'. unfold blockUser. by rewrite bool_decide_eq_false_2. }
  clearbody w'.
  assert (messages w' = messages w) as Hmsgs by by subst w'.
  assert (hasBlocked (users w' !! me) other = true) as Hblocked.
  { subst w'. simpl. rewrite hasBlocked_alter, bool_decide_eq_true_2 by done.
    rewrite Hme. apply bool_decide_eq_true. apply elem_of_addToSet. by left. }
  assert (hasBlocked (users w' !! b) a = true ∨ hasBlocked (users w' !! a) b = true)
    as Heither.
  { destruct Hab as [[-> ->]|[-> ->]]; [by right|by left]. }
  split.
  - intros socket data now Hs Hr.
    rewrite handleSendMessage_suppressed by (rewrite Hs, Hr; exact Heither).
    simpl. split; [done|]. intros e He%list_elem_of_singleton. by subst e.
  - intros body now Hr.
    destruct (sendMessage_blocked w' a b body now Hr Heither) as [Heq Hst].
    split; [|exact Hst]. by rewrite Heq.
Qed.

Lemma blockUser_stops_direct_messages_witness :
  users friendly !! alice = Some (mkUser "alice" [])
  ∧ bob ≠ alice
  ∧ messages (handleSendMessage (blockUser friendly (Some alice) bob).1
                bobSocket (mkSend alice (Some (js "hi")) None None None) noon).1
    = messages friendly.
Proof.
  assert (users friendly !! alice = Some (mkUser "alice" [])) as Hu
    by (vm_compute; reflexivity).
  assert (bob ≠ alice) as Hne by done.
  split; [exact Hu|]. split; [exact Hne|].
  destruct (blockUser_stops_direct_messages friendly alice bob _ Hu Hne bob alice)
    as [Hsock _]; [right; done|].
  apply (Hsock bobSocket (mkSend alice (Some (js "hi")) None None None) noon);
    reflexivity.
Defined.

(** X2. Unblocking undoes blocking: when the user had not blocked the
    other before, block followed by unblock leaves the world exactly as
    it was; after an unblock the other is never on the list, and neither
    operation touches the list of anybody else or the standing of a
    third user on the caller's list. *)
Theorem unblockUser_undoes_blockUser (w : World) (me other : ObjectId)
    (ua : User) :
  users w !! me = Some ua →
  other ≠ me →
  (other ∉ blockedUsers ua →
   (unblockUser (blockUser w (Some me) other).1 (Some me) other).1 = w)
  ∧ hasBlocked (users (blockUser w (Some me) other).1 !! me) other = true
  ∧ hasBlocked (users (unblockUser w (Some me) other).1 !! me) other = false
  ∧ (∀ u x, u ≠ me ∨ x ≠ other →
       hasBlocked (users (blockUser w (Some me) other).1 !! u) x
       = hasBlocked (users w !! u) x
       ∧ hasBlocked (users (unblockUser w (Some me) other).1 !! u) x
         = hasBlocked (users w !! u) x).
Proof.
  intros Hme Hne. unfold blockUser, unblockUser.
  rewrite bool_decide_eq_false_2 by done. simpl. split_and!.
  - intros Hnot. apply world_eq; simpl; try done.
    apply map_eq. intros u. destruct (decide (u = me)) as [->|Hu].
    + rewrite !lookup_alter_eq, Hme. simpl. unfold withBlocked. simpl.
      rewrite pull_addToSet by done. by destruct ua.
    + by rewrite !lookup_alter_ne.
  - rewrite hasBlocked_alter, bool_decide_eq_true_2, Hme by done.
    apply bool_decide_eq_true. apply elem_of_addToSet. by left.
  - rewrite hasBlocked_alter, bool_decide_eq_true_2, Hme by done.
    apply bool_decide_eq_false. unfold pull.
    intros [H _]%list_elem_of_filter. done.
  - intros u x Hux. rewrite !hasBlocked_alter.
    case_bool_decide as Hu; [|done]. subst u. rewrite Hme. simpl.
    destruct Hux as [?|Hx]; [done|]. split.
    + apply bool_decide_ext. rewrite elem_of_addToSet. split; [|by right].
      intros [?|?]; done.
    + apply bool_decide_ext. unfold pull. rewrite list_elem_of_filter.
      split; [by intros [_ ?]|done].
Qed.

Lemma unblockUser_undoes_blockUser_witness :
  users friendly !! alice = Some (mkUser "alice" [])
  ∧ bob ≠ alice
  ∧ (unblockUser (blockUser friendly (Some alice) bob).1 (Some alice) bob).1
    = friendly.
Proof.
  assert (users friendly !! alice = Some (mkUser "alice" [])) as Hu
    by (vm_compute; reflexivity).
  assert (bob ≠ alice) as Hne by done.
  split; [exact Hu|]. split; [exact Hne|].
  destruct (unblockUser_undoes_blockUser friendly alice bob _ Hu Hne)
    as [Hback _].
  apply Hback. apply not_elem_of_nil.
Defined.



(** ** Removing a member *)

Lemma findMemberIndex_Some (w : World) (x : ObjectId) (ms : list Member)
    (i : nat) :
  findMemberIndex w x ms = Some (Some i) →
  ∃ m, ms !! i = Some m ∧ m_user m = x.
Proof.
  revert i. induction ms as [|m ms IH]; intros i; simpl; [done|].
  destruct (users w !! m_user m); [|done].
  case_bool_decide as Hm.
  - intros [= <-]. by exists m.
  - destruct (findMemberIndex w x ms) as [[j|]|]; [|done..].
    intros [= <-]. destruct (IH j eq_refl) as (m' & ? & ?). by exists m'.
Qed.

Lemma not_elem_of_delete_NoDup {A B : Type} (f : A → B) (l : list A) (i : nat)
    (x : A) :
  NoDup (f <$> l) → l !! i = Some x → f x ∉ f <$> delete i l.
Proof.
  revert i. induction l as [|y l IH]; intros i Hnd Hi; [done|].
  rewrite fmap_cons in Hnd. apply NoDup_cons in Hnd as [Hy Hnd].
  destruct i as [|i]; simpl in *.
  - by simplify_eq.
  - apply not_elem_of_cons. split; [|by apply IH].
    intros Heq. apply Hy. rewrite <- Heq.
    apply list_elem_of_fmap_2. by eapply list_elem_of_lookup_2.
Qed.

Lemma findOnline_same_registry (w1 w2 : World) (u : ObjectId) :
  onlineUsers w1 = onlineUsers w2 → findOnline u w1 = findOnline u w2.
Proof. unfold findOnline. by intros ->. Qed.

(** What a successful removal leaves behind. *)
Lemma removeMemberFromGroup_answer (w : World) (userId : ObjectId)
    (reqUsername : string) (g memberId : ObjectId) (now : Date) (grp' : Group) :
  (removeMemberFromGroup w userId reqUsername g memberId now).2 = answer grp' →
  let w' := (removeMemberFromGroup w userId reqUsername g memberId now).1.1 in
  ∃ grp i m,
    findGroupForAdmin g userId w = Some grp
    ∧ members grp !! i = Some m ∧ m_user m = memberId
    ∧ members grp' = delete i (members grp)
    ∧ leftMembers grp' = leftMembers grp
    ∧ removedMembers grp' = removedMembers grp ++ [(memberId, now, userId)]
    ∧ isActive grp' = isActive grp
    ∧ groups w' = <[g := grp']> (groups w)
    ∧ users w' = users w
    ∧ onlineUsers w' = onlineUsers w
    ∧ (∀ o sock, findOnline memberId w = Some o →
                 sockets w' !! o_socketId o = Some sock →
                 group_room g ∉ s_rooms sock)
    ∧ ∃ removalMessage,
        messages w' = messages w ++ [removalMessage]
        ∧ group removalMessage = Some g
        ∧ messageType removalMessage = system_t
        ∧ removedMemberId removalMessage = Some memberId
        ∧ latestMessage grp'
          = Some (mkLatest (_id removalMessage) (text removalMessage) system_t
                           userId reqUsername now).
Proof.
  unfold removeMemberFromGroup.
  destruct (findGroupForAdmin g userId w) as [grp|] eqn:Eg; [|done].
  destruct (findMemberIndex w memberId (members grp)) as [[i|]|] eqn:Ei;
    [|done..].
  destruct (findMemberIndex_Some _ _ _ _ Ei) as (m & Hm & Hmu).
  unfold saveSystemMessage, saveNew.
  destruct (validate _) eqn:Ev; [done|]. cbn zeta.
  set (w1 := set_groups _ w).
  set (txt := js _ ++ js _).
  set (msg := newMessage_doc (nextObjectId w1) userId None (Some g) (Some txt)
                None None system_t false (Some memberId) now).
  set (grp2 := withLatest _ _).
  set (w3 := set_groups _ _).
  set (evicted := match findOnline memberId w3 with Some _ => _ | None => _ end).
  set (cleaned := removeUserFromGroupRoom evicted.1 memberId g).
  destruct (notifyRemaining cleaned.1 g msg (members grp2)) as [evs ok] eqn:Et.
  simpl. destruct ok; [|done]. intros [= <-].
  assert (messages evicted.1 = messages w3 ∧ users evicted.1 = users w3
          ∧ groups evicted.1 = groups w3
          ∧ onlineUsers evicted.1 = onlineUsers w3) as (E1 & E2 & E3 & E4).
  { subst evicted. by destruct (findOnline memberId w3). }
  assert (messages cleaned.1 = messages evicted.1
          ∧ users cleaned.1 = users evicted.1
          ∧ groups cleaned.1 = groups evicted.1
          ∧ onlineUsers cleaned.1 = onlineUsers evicted.1) as (C1 & C2 & C3 & C4).
  { subst cleaned. unfold removeUserFromGroupRoom.
    destruct (findOnline memberId evicted.1); [|done].
    destruct (sockets evicted.1 !! _); [|done]. simpl.
    by destruct (jsmap_get memberId _). }
  exists grp, i, m. split_and!; try done.
  - rewrite C3, E3. subst w3 w1. simpl. by rewrite insert_insert_eq.
  - by rewrite C2, E2.
  - by rewrite C4, E4.
  - intros o sock Ho Hsock.
    assert (findOnline memberId w3 = Some o) as Ho3 by exact Ho.
    assert (findOnline memberId evicted.1 = Some o) as Hoe.
    { by rewrite (findOnline_same_registry _ w3). }
    assert (sockets evicted.1 !! o_socketId o
            = leaveRoom (group_room g) <$> sockets w3 !! o_socketId o) as Hev.
    { subst evicted. rewrite Ho3. simpl. by rewrite lookup_alter_eq. }
    subst cleaned. unfold removeUserFromGroupRoom in Hsock.
    rewrite Hoe, Hev in Hsock.
    destruct (sockets w3 !! o_socketId o) as [s0|] eqn:Es0; simpl in Hsock.
    + assert (sock = leaveRoom (group_room g) (leaveRoom (group_room g) s0))
        as ->.
      { destruct (jsmap_get memberId _); simpl in Hsock;
          rewrite lookup_alter_eq, Hev in Hsock; simpl in Hsock;
          by simplify_eq. }
      unfold leaveRoom. simpl. intros [H _]%list_elem_of_filter. done.
    + by rewrite Hev in Hsock.
  - exists msg. split_and!; try done. by rewrite C1, E1.
Qed.

Lemma findGroupForAdmin_Some (g u : ObjectId) (w : World) (grp : Group) :
  findGroupForAdmin g u w = Some grp →
  groups w !! g = Some grp ∧ isActive grp = true
  ∧ u ∈ m_user <$> members grp ∧ admin ∈ m_role <$> members grp.
Proof.
  unfold findGroupForAdmin. destruct (groups w !! g) as [grp0|]; [|done].
  destruct (isActive grp0 && isMemberOf u grp0 && _) eqn:E; [|done].
  intros [= <-]. apply andb_true_iff in E as [E Ha].
  apply andb_true_iff in E as [E1 E2].
  split_and!; [done|done| |].
  - by apply bool_decide_eq_true in E2.
  - by apply bool_decide_eq_true in Ha.
Qed.

(** X4. A removed member is cut off. After [removeMemberFromGroup] has
    answered, the member, who was listed once, is no longer a member and
    is on the removed list; a group send or a room join of theirs is
    refused with "You were removed from this group" and changes nothing;
    their registered socket is out of the group room; and the
    [newMessage] events of a later send into the group go to registered
    sockets of the remaining members only. *)
Theorem removed_member_is_isolated (w : World) (userId : ObjectId)
    (reqUsername : string) (g memberId : ObjectId) (now : Date) (grp' : Group) :
  (removeMemberFromGroup w userId reqUsername g memberId now).2 = answer grp' →
  (∀ grp, groups w !! g = Some grp → NoDup (m_user <$> members grp)) →
  let w' := (removeMemberFromGroup w userId reqUsername g memberId now).1.1 in
  groups w' !! g = Some grp'
  ∧ (memberId ∉ m_user <$> members grp')
  ∧ (memberId ∈ (λ e, e.1.1) <$> removedMembers grp')
  ∧ (∀ (socket : CustomSocket) (data : GroupSendData) (t : Date),
       s_userId socket = memberId → groupId data = g →
       handleSendGroupMessage w' socket data t
       = (w', emitError socket "You were removed from this group"))
  ∧ (∀ (socket : CustomSocket),
       s_userId socket = memberId →
       handleJoinGroupChat w' socket g
       = (w', emitError socket "You were removed from this group"))
  ∧ (∀ o sock, findOnline memberId w = Some o →
               sockets w' !! o_socketId o = Some sock →
               group_room g ∉ s_rooms sock)
  ∧ (∀ (socket : CustomSocket) (data : GroupSendData) (t : Date) (e : Event),
       groupId data = g →
       e ∈ (handleSendGroupMessage w' socket data t).2 →
       e_name e = newMessage →
       ∃ u o, (u ∈ m_user <$> members grp') ∧ u ≠ memberId
              ∧ findOnline u w' = Some o
              ∧ e_target e = to_socket (o_socketId o)).
Proof.
  intros Hans Hnd w'.
  destruct (removeMemberFromGroup_answer _ _ _ _ _ _ _ Hans)
    as (grp & i & m & Hg & Hi & Hm & Hmem & Hleft & Hrem & Hact & Hgroups
        & Husers & Hreg & Hroom & _).
  fold w' in Hgroups, Husers, Hreg, Hroom.
  apply findGroupForAdmin_Some in Hg as (Hg & Hactive & _ & _).
  assert (groups w' !! g = Some grp') as Hg'.
  { rewrite Hgroups. apply lookup_insert_eq. }
  assert (memberId ∉ m_user <$> members grp') as Hout.
  { rewrite Hmem, <- Hm. apply not_elem_of_delete_NoDup; [by apply Hnd|done]. }
  assert (memberId ∈ (λ e, e.1.1) <$> removedMembers grp') as Hin.
  { rewrite Hrem, fmap_app. apply elem_of_app. right. by left. }
  assert (findActiveGroupOfMember g memberId w' = None) as Hnone.
  { unfold findActiveGroupOfMember. rewrite Hg'. unfold isMemberOf.
    rewrite (bool_decide_eq_false_2 _ Hout). by rewrite andb_false_r. }
  assert (findActiveGroupOfRemoved g memberId w' = Some grp') as Hsome.
  { unfold findActiveGroupOfRemoved. rewrite Hg', Hact, Hactive.
    by rewrite (bool_decide_eq_true_2 _ Hin). }
  split_and!; try done.
  - intros socket data t Hs Hd. unfold handleSendGroupMessage.
    by rewrite Hs, Hd, Hnone, Hsome.
  - intros socket Hs. unfold handleJoinGroupChat.
    by rewrite Hs, Hnone, Hsome.
  - intros socket data t e Hd He Hname. unfold handleSendGroupMessage in He.
    rewrite Hd in He. unfold findActiveGroupOfMember in He. rewrite Hg' in He.
    destruct (isActive grp' && isMemberOf (s_userId socket) grp') eqn:E.
    2:{ destruct (findActiveGroupOfRemoved g (s_userId socket) w');
          apply list_elem_of_singleton in He; by subst e. }
    destruct (users w' !! s_userId socket) as [sender|].
    2:{ apply list_elem_of_singleton in He; by subst e. }
    destruct (saveNew _ (messages w')) as [?|store].
    { apply list_elem_of_singleton in He; by subst e. }
    simpl in He. apply elem_of_app in He as [He|He].
    + unfold fanoutToMembers in He.
      apply list_elem_of_omap in He as (u & Hu & He).
      destruct (findOnline u w') as [o|] eqn:Eo; [|done].
      simpl in He. injection He as <-. exists u, o.
      split_and!; [done| |done|done]. intros ->. done.
    + apply list_elem_of_singleton in He. by subst e.
Qed.

Lemma removed_member_is_isolated_witness :
  ∃ grp',
    (removeMemberFromGroup friendly alice "alice" 7%N bob noon).2 = answer grp'
    ∧ (∀ grp, groups friendly !! 7%N = Some grp → NoDup (m_user <$> members grp))
    ∧ let w' := (removeMemberFromGroup friendly alice "alice" 7%N bob noon).1.1 in
      handleSendGroupMessage w' bobSocket hello (noon + 1)%Z
      = (w', emitError bobSocket "You were removed from this group").
Proof.
  destruct (removeMemberFromGroup friendly alice "alice" 7%N bob noon).2
    as [grp'|st msg] eqn:E.
  2:{ vm_compute in E. discriminate E. }
  assert (∀ grp, groups friendly !! 7%N = Some grp →
                 NoDup (m_user <$> members grp)) as Hnd.
  { intros grp H. vm_compute in H. injection H as <-.
    apply (bool_decide_unpack _). vm_compute. exact I. }
  exists grp'. split; [reflexivity|]. split; [exact Hnd|].
  destruct (removed_member_is_isolated friendly alice "alice" 7%N bob noon grp'
              E Hnd) as (_ & _ & _ & Hsend & _).
  intros w'. apply Hsend; reflexivity.
Defined.

(** ** The permission check of the group controller *)

Lemma length_js (s : string) : length (js s) = String.length s.
Proof.
  unfold js. rewrite length_fmap. induction s as [|a s IH]; [done|].
  simpl. by rewrite IH.
Qed.

Lemma saveSystemMessage_inr (w : World) (userId g : ObjectId) (txt : JsString)
    (removed : option ObjectId) (now : Date) :
  length txt ≤ maxlength →
  saveSystemMessage w userId g txt removed now
  = inr (set_messages
           (messages w
            ++ [newMessage_doc (nextObjectId w) userId None (Some g) (Some txt)
                  None None system_t false removed now])
           (bumpObjectId w)).
Proof.
  intros H. unfold saveSystemMessage, saveNew, validate, preValidate,
    schemaValidate. simpl.
  repeat case_bool_decide; simpl; try done; intuition congruence.
Qed.

Lemma findMemberIndex_total (w : World) (x : ObjectId) (ms : list Member) :
  Forall (λ m, is_Some (users w !! m_user m)) ms →
  x ∈ m_user <$> ms →
  ∃ i, findMemberIndex w x ms = Some (Some i).
Proof.
  induction 1 as [|m ms [u Hu] _ IH]; [by intros ?%elem_of_nil|].
  rewrite fmap_cons, elem_of_cons. intros Hx. simpl. rewrite Hu.
  case_bool_decide as Hm; [by exists 0|].
  destruct Hx as [->|Hx]; [done|].
  destruct (IH Hx) as [i ->]. by exists (S i).
Qed.

Lemma notifyRemaining_ok (w : World) (g : ObjectId) (message : Message)
    (ms : list Member) :
  Forall (λ m, is_Some (users w !! m_user m)) ms →
  (notifyRemaining w g message ms).2 = true.
Proof.
  induction 1 as [|m ms [u Hu] _ IH]; [done|]. simpl. by rewrite Hu.
Qed.

Lemma removeUserFromGroupRoom_frame (w : World) (u g : ObjectId) :
  messages (removeUserFromGroupRoom w u g).1 = messages w
  ∧ users (removeUserFromGroupRoom w u g).1 = users w
  ∧ groups (removeUserFromGroupRoom w u g).1 = groups w
  ∧ onlineUsers (removeUserFromGroupRoom w u g).1 = onlineUsers w.
Proof.
  unfold removeUserFromGroupRoom.
  destruct (findOnline u w); [|done].
  destruct (sockets w !! _); [|done]. simpl.
  by destruct (jsmap_get u _).
Qed.

Lemma Forall_delete {A : Type} (P : A → Prop) (l : list A) (i : nat) :
  Forall P l → Forall P (delete i l).
Proof.
  intros H. revert i. induction H as [|x l Hx H IH]; intros [|i]; simpl;
    auto.
Qed.

(** X5. The permission check of [removeMemberFromGroup] does not ask the
    caller to be an admin. For a listed member whose removal can be
    written down, the request is answered with the group exactly when
    the group is active, the caller is some member of it and some
    member, the caller or another, has the role [admin]. *)
Theorem removeMemberFromGroup_gate (w : World) (userId : ObjectId)
    (reqUsername : string) (g memberId : ObjectId) (now : Date) (grp : Group)
    (target : User) :
  groups w !! g = Some grp →
  memberId ∈ m_user <$> members grp →
  Forall (λ m, is_Some (users w !! m_user m)) (members grp) →
  users w !! memberId = Some target →
  String.length (username target) ≤ 900 →
  (∃ grp', (removeMemberFromGroup w userId reqUsername g memberId now).2
           = answer grp')
  ↔ (isActive grp = true
     ∧ userId ∈ m_user <$> members grp
     ∧ ∃ m, m ∈ members grp ∧ m_role m = admin).
Proof.
  intros Hg Hin Hall Ht Hlen. split.
  - intros [grp' Hans].
    destruct (removeMemberFromGroup_answer _ _ _ _ _ _ _ Hans)
      as (grp0 & i0 & m0 & Hfind & _).
    apply findGroupForAdmin_Some in Hfind as (Hg0 & Hact & Hu & Ha).
    assert (grp0 = grp) as -> by congruence.
    split_and!; [done|done|].
    apply list_elem_of_fmap in Ha as (m & Hr & Hm). by exists m.
  - intros (Hact & Hu & m & Hm & Hr).
    unfold removeMemberFromGroup, findGroupForAdmin. rewrite Hg, Hact.
    unfold isMemberOf. rewrite (bool_decide_eq_true_2 _ Hu).
    rewrite bool_decide_eq_true_2
      by (apply list_elem_of_fmap; by exists m).
    simpl. destruct (findMemberIndex_total w memberId _ Hall Hin) as [i ->].
    rewrite Ht. simpl.
    rewrite saveSystemMessage_inr.
    2:{ rewrite length_app, !length_js. simpl. unfold maxlength. lia. }
    cbn zeta.
    match goal with
    | |- context [removeUserFromGroupRoom ?e memberId g] =>
        set (ev := e);
        assert (users ev = users w) as Hev
          by (subst ev; by destruct (findOnline memberId _))
    end.
    rewrite notifyRemaining_ok; [by eexists|].
    destruct (removeUserFromGroupRoom_frame ev memberId g) as (_ & -> & _).
    rewrite Hev. simpl. by apply Forall_delete.
Qed.

Lemma removeMemberFromGroup_gate_witness :
  ∃ grp',
    (removeMemberFromGroup friendly bob "bob" 7%N alice noon).2 = answer grp'.
Proof.
  apply (removeMemberFromGroup_gate friendly bob "bob" 7%N alice noon team
           (mkUser "alice" [])).
  - vm_compute; reflexivity.
  - apply (bool_decide_unpack _). vm_compute. exact I.
  - apply (bool_decide_unpack _). vm_compute. exact I.
  - vm_compute; reflexivity.
  - simpl. lia.
  - split; [reflexivity|]. split.
    + apply (bool_decide_unpack _). vm_compute. exact I.
    + exists (mkMember alice admin 0%Z 0 (Some 0%Z)). split; [|reflexivity].
      apply list_elem_of_here.
Defined.

(** ** Leaving a group *)

Lemma findActiveGroupOfMember_Some (g u : ObjectId) (w : World) (grp : Group) :
  findActiveGroupOfMember g u w = Some grp ↔
  groups w !! g = Some grp ∧ isActive grp = true
  ∧ u ∈ m_user <$> members grp.
Proof.
  unfold findActiveGroupOfMember, isMemberOf. split.
  - destruct (groups w !! g) as [grp0|]; [|done].
    destruct (isActive grp0) eqn:Ea; simpl; [|done].
    case_bool_decide; [|done]. by intros [= <-].
  - intros (-> & -> & Hu). simpl. by rewrite bool_decide_eq_true_2.
Qed.




(** ** Creating a group *)

Lemma length_remove_dups_le (l : list ObjectId) :
  length (remove_dups l) ≤ length l.
Proof. induction l as [|x l IH]; simpl; [done|]. case_decide; simpl; lia. Qed.

Lemma length_remove_dups_eq (l : list ObjectId) :
  length (remove_dups l) = length l → remove_dups l = l.
Proof.
  induction l as [|x l IH]; simpl; [done|]. case_decide; simpl.
  - pose proof (length_remove_dups_le l). lia.
  - intros [= Hlen]. by rewrite IH.
Qed.

Lemma length_filter_eq {A : Type} (P : A → Prop) `{!∀ x, Decision (P x)}
    (l : list A) :
  length (filter P l) = length l → Forall P l.
Proof.
  induction l as [|x l IH]; [by constructor|].
  rewrite filter_cons. case_decide; simpl.
  - intros [= Hlen]. constructor; auto.
  - pose proof (length_filter P l). lia.
Qed.

(** The check of lines 21-24 passes exactly for a list of existing users
    without repetition. *)
Lemma validMembers_all (w : World) (l : list ObjectId) :
  length (validMembers w l) = length l →
  NoDup l ∧ Forall (λ u, is_Some (users w !! u)) l.
Proof.
  unfold validMembers. intros H.
  pose proof (length_filter (λ u, is_Some (users w !! u))
                (merge_sort N.le (remove_dups l))) as Hle.
  pose proof (merge_sort_Permutation N.le (remove_dups l)) as Hp.
  pose proof (Permutation_length Hp) as Hlen.
  pose proof (length_remove_dups_le l).
  assert (remove_dups l = l) as Hl.
  { apply length_remove_dups_eq. unfold ObjectId in *. lia. }
  rewrite Hl in H, Hp, Hlen. split.
  - rewrite <- Hl. apply NoDup_remove_dups.
  - rewrite <- Hp.
    apply (length_filter_eq (λ u, is_Some (users w !! u))).
    unfold ObjectId in *. lia.
Qed.

Lemma filter_nil_not {A : Type} (P : A → Prop) `{!∀ x, Decision (P x)}
    (l : list A) (x : A) :
  filter P l = [] → x ∈ l → ¬ P x.
Proof.
  intros Hnil Hx HP.
  assert (x ∈ filter P l) as Hin by by apply list_elem_of_filter.
  rewrite Hnil in Hin. by apply elem_of_nil in Hin.
Qed.

(** X7. What a created group looks like. When [createGroup] answers
    with a group id, the group is stored under it with the creator as
    its one admin entry followed by the listed users as plain members,
    in the order of the request; the listed users exist, are listed
    once, and none of them has blocked the creator or is blocked by the
    creator; the creator can never leave the group; and [groupCreated]
    goes to the registered socket of each of these users who is online,
    and to nobody else. *)
Theorem createGroup_answer (s : Server) (userId : ObjectId) (body : CreateBody)
    (now : Date) (g : ObjectId) :
  (createGroup s userId body now).2 = answer g →
  let s' := (createGroup s userId body now).1.1 in
  ∃ memberIds grp,
    cg_memberIds body = Some memberIds
    ∧ groups (world s') !! g = Some grp
    ∧ creators s' !! g = Some userId
    ∧ members grp
      = newMember userId admin now
        :: ((λ u, newMember u member now) <$> memberIds)
    ∧ leftMembers grp = [] ∧ removedMembers grp = [] ∧ isActive grp = true
    ∧ NoDup memberIds
    ∧ (∀ u, u ∈ memberIds →
         is_Some (users (world s) !! u)
         ∧ hasBlocked (users (world s) !! userId) u = false
         ∧ hasBlocked (users (world s) !! u) userId = false)
    ∧ (∀ t, leaveGroup s' userId g t
            = (s', [],
               mkResponse 400 (j_message "Group creator cannot leave the group")))
    ∧ (∀ n, n ∈ (createGroup s userId body now).1.2 ↔
            ∃ u o, u ∈ userId :: memberIds
                   ∧ findOnline u (world s) = Some o
                   ∧ n = about (to_socket (o_socketId o)) groupCreated g
                           None None).
Proof.
  unfold createGroup.
  destruct (cg_name body) as [[|c name']|]; [done| |done].
  destruct (cg_memberIds body) as [memberIds|]; [|done].
  case_bool_decide as Hvalid; cbn [negb]; [|done].
  destruct (users (world s) !! userId) as [currentUser|] eqn:Eu; [|done].
  case_bool_decide as Hblock; cbn [negb]; [|done].
  destruct (groupFieldsValid _ _); cbn [negb]; [|done].
  unfold saveSystemMessage, saveNew.
  destruct (validate _); [done|].
  cbn [fst snd]. intros [= <-].
  destruct (validMembers_all _ _ Hvalid) as [Hnd Hall].
  destruct Hblock as [Hb1 Hb2].
  eexists memberIds, _.
  split; [done|].
  split; [cbn [world groups set_groups]; apply lookup_insert_eq|].
  split; [cbn [creators]; apply lookup_insert_eq|].
  do 4 (split; [reflexivity|]).
  split; [exact Hnd|].
  split; [|split].
  - intros u Hu. split_and!.
    + by eapply Forall_forall in Hall.
    + unfold hasBlocked. apply bool_decide_eq_false.
      exact (filter_nil_not _ _ _ Hb1 Hu).
    + apply not_true_is_false.
      exact (filter_nil_not _ _ _ Hb2 Hu).
  - intros t. unfold leaveGroup, findActiveGroupOfMember.
    cbn [world groups set_groups creators].
    rewrite !lookup_insert_eq. unfold isMemberOf.
    rewrite bool_decide_eq_true_2 by (apply list_elem_of_here).
    by rewrite bool_decide_eq_true_2.
  - intros n. unfold emitGroupCreated. rewrite list_elem_of_omap.
    split.
    + intros (u & Hu & Hn).
      change (u ∈ userId :: (m_user <$> ((λ u, newMember u member now)
                                         <$> memberIds))) in Hu.
      change (findOnline u _) with (findOnline u (world s)) in Hn.
      destruct (findOnline u (world s)) as [o|] eqn:Eo; [|done].
      simpl in Hn. injection Hn as <-. exists u, o. split_and!; [|done..].
      apply elem_of_cons in Hu as [->|Hu]; [by left|]. right.
      rewrite <- list_fmap_compose in Hu.
      apply list_elem_of_fmap in Hu as (v & -> & Hv). done.
    + intros (u & o & Hu & Ho & ->). exists u. split.
      * change (u ∈ userId :: (m_user <$> ((λ u, newMember u member now)
                                           <$> memberIds))).
        apply elem_of_cons in Hu as [->|Hu]; [by left|]. right.
        rewrite <- list_fmap_compose. apply list_elem_of_fmap. by exists u.
      * change (findOnline u _) with (findOnline u (world s)).
        by rewrite Ho.
Qed.

Lemma createGroup_answer_witness :
  (createGroup friendlyServer alice bookClub noon).2 = answer 100%N
  ∧ ∀ t, leaveGroup (createGroup friendlyServer alice bookClub noon).1.1
           alice 100%N t
         = ((createGroup friendlyServer alice bookClub noon).1.1, [],
            mkResponse 400 (j_message "Group creator cannot leave the group")).
Proof.
  assert ((createGroup friendlyServer alice bookClub noon).2 = answer 100%N)
    as Hans by (vm_compute; reflexivity).
  split; [exact Hans|].
  destruct (createGroup_answer friendlyServer alice bookClub noon 100%N Hans)
    as (memberIds & grp & _ & _ & _ & _ & _ & _ & _ & _ & _ & Hleave & _).
  exact Hleave.
Defined.

(** ** Adding members *)

Lemma dropFirstLeft_subset (u : ObjectId) (l : list (ObjectId * Date))
    (e : ObjectId * Date) :
  e ∈ dropFirstLeft u l → e ∈ l.
Proof.
  induction l as [|d l IH]; simpl; [done|]. case_bool_decide.
  - by right.
  - rewrite !elem_of_cons. intros [->|?]; auto.
Qed.

Lemma dropFirstLeft_keep (u : ObjectId) (l : list (ObjectId * Date))
    (e : ObjectId * Date) :
  e ∈ l → e.1 ≠ u → e ∈ dropFirstLeft u l.
Proof.
  intros He Hne. induction l as [|d l IH]; simpl; [done|].
  apply elem_of_cons in He as [->|He].
  - rewrite bool_decide_eq_false_2 by done. by left.
  - case_bool_decide; [done|]. right. auto.
Qed.

Lemma dropFirstLeft_NoDup (u : ObjectId) (l : list (ObjectId * Date)) :
  NoDup (fst <$> l) →
  NoDup (fst <$> dropFirstLeft u l) ∧ u ∉ fst <$> dropFirstLeft u l.
Proof.
  induction l as [|d l IH]; simpl.
  - split; [constructor|apply not_elem_of_nil].
  - rewrite NoDup_cons. intros [Hd Hnd]. case_bool_decide as Hu.
    + split; [done|]. by rewrite <- Hu.
    + destruct (IH Hnd) as [IH1 IH2]. rewrite fmap_cons. split.
      * apply NoDup_cons. split; [|done].
        intros (e & He1 & He2)%list_elem_of_fmap. apply Hd.
        apply list_elem_of_fmap. exists e. split; [done|].
        by eapply dropFirstLeft_subset.
      * apply not_elem_of_cons. split; [by intros ->|done].
Qed.

Lemma foldl_dropFirstLeft (us : list ObjectId) (l : list (ObjectId * Date)) :
  let l' := foldl (λ l u, dropFirstLeft u l) l us in
  (∀ e, e ∈ l' → e ∈ l)
  ∧ (∀ e, e ∈ l → e.1 ∉ us → e ∈ l')
  ∧ (NoDup (fst <$> l) → ∀ u, u ∈ us → u ∉ fst <$> l').
Proof.
  revert l. induction us as [|u0 us IH]; intros l; simpl.
  - split_and!; [done|done|]. by intros _ u ?%elem_of_nil.
  - destruct (IH (dropFirstLeft u0 l)) as (IH1 & IH2 & IH3). split_and!.
    + intros e He. eapply dropFirstLeft_subset. eauto.
    + intros e He Hne. apply not_elem_of_cons in Hne as [? ?].
      apply IH2; [|done]. by apply dropFirstLeft_keep.
    + intros Hnd u Hu. destruct (dropFirstLeft_NoDup u0 l Hnd) as [Hnd' Hout].
      destruct (decide (u = u0)) as [->|Hne].
      * intros (e & He1 & He2)%list_elem_of_fmap. apply Hout.
        apply list_elem_of_fmap. exists e. auto.
      * apply elem_of_cons in Hu as [?|Hu]; [done|]. by apply IH3.
Qed.

(** X8. What adding members does. When [addMembersToGroup] answers with
    the group, the listed users were appended to the member list as
    plain members in the order of the request and may send into the
    group at once; each of them exists, is listed once, was not a member
    before, has not blocked the caller and is not blocked by the caller;
    a member list without repetition stays so; those who had left and
    are added again are taken off the list of those who left, and the
    entries of everybody else stay on it. *)
Theorem addMembersToGroup_answer (w : World) (userId g : ObjectId)
    (memberIds : list ObjectId) (now : Date) (grp' : Group) :
  (addMembersToGroup w userId g memberIds now).2 = answer grp' →
  let w' := (addMembersToGroup w userId g memberIds now).1 in
  ∃ grp,
    findGroupForAdmin g userId w = Some grp
    ∧ groups w' !! g = Some grp'
    ∧ members grp'
      = members grp ++ ((λ u, newMember u member now) <$> memberIds)
    ∧ removedMembers grp' = removedMembers grp
    ∧ NoDup memberIds
    ∧ (∀ u, u ∈ memberIds →
         (u ∉ m_user <$> members grp)
         ∧ is_Some (users w !! u)
         ∧ hasBlocked (users w !! userId) u = false
         ∧ hasBlocked (users w !! u) userId = false
         ∧ findActiveGroupOfMember g u w' = Some grp')
    ∧ (NoDup (m_user <$> members grp) → NoDup (m_user <$> members grp'))
    ∧ (∀ e, e ∈ leftMembers grp' → e ∈ leftMembers grp)
    ∧ (∀ e, e ∈ leftMembers grp → e.1 ∉ memberIds → e ∈ leftMembers grp')
    ∧ (NoDup (fst <$> leftMembers grp) →
       ∀ u, u ∈ memberIds → u ∉ fst <$> leftMembers grp').
Proof.
  unfold addMembersToGroup.
  destruct (findGroupForAdmin g userId w) as [grp|] eqn:Eg; [|done].
  case_bool_decide as Hvalid; simpl; [|done].
  destruct (users w !! userId) as [currentUser|] eqn:Eu; [|done].
  case_bool_decide as Hblock; simpl; [|done].
  unfold saveSystemMessage, saveNew.
  destruct (validate _); simpl; [done|].
  intros [= <-]. simpl.
  destruct (validMembers_all _ _ Hvalid) as [Hnd Hall].
  destruct Hblock as (Hb1 & Hb2 & Hb3).
  apply findGroupForAdmin_Some in Eg as (Hg & Hact & Hu & Ha).
  assert (∀ u, u ∈ memberIds → u ∉ m_user <$> members grp) as Hnew.
  { intros u Hin Hmem. exact (filter_nil_not _ _ _ Hb3 Hin Hmem). }
  assert (filter (λ u, u ∉ m_user <$> members grp) memberIds = memberIds)
    as Hothers.
  { clear -Hnew. induction memberIds as [|u l IH]; [done|].
    rewrite filter_cons_True by (apply Hnew; by left).
    rewrite IH; [done|]. intros v Hv. apply Hnew. by right. }
  rewrite Hothers in Hb1, Hb2.
  destruct (foldl_dropFirstLeft memberIds (leftMembers grp))
    as (Hl1 & Hl2 & Hl3).
  exists grp. split_and!; try done.
  - by rewrite lookup_insert_eq.
  - intros u Hin. split_and!.
    + by apply Hnew.
    + by eapply Forall_forall in Hall.
    + apply bool_decide_eq_false. exact (filter_nil_not _ _ _ Hb1 Hin).
    + apply not_true_is_false. exact (filter_nil_not _ _ _ Hb2 Hin).
    + apply findActiveGroupOfMember_Some. simpl.
      rewrite lookup_insert_eq. split_and!; [done|done|].
      rewrite fmap_app, elem_of_app. right.
      rewrite <- list_fmap_compose. apply list_elem_of_fmap. by exists u.
  - intros Hndm. rewrite fmap_app, <- list_fmap_compose.
    apply NoDup_app. split_and!; [done| |].
    + intros u Hu1 (v & -> & Hv)%list_elem_of_fmap. by apply (Hnew v).
    + replace ((m_user ∘ (λ u, newMember u member now)) <$> memberIds)
        with memberIds; [done|].
      clear. induction memberIds as [|u l IH]; [done|].
      rewrite fmap_cons. simpl. by rewrite <- IH.
Qed.

Lemma addMembersToGroup_answer_witness :
  ∃ grp',
    (addMembersToGroup afterBobLeft alice 7%N [bob] (noon + 10)%Z).2
    = answer grp'
    ∧ findActiveGroupOfMember 7%N bob
        (addMembersToGroup afterBobLeft alice 7%N [bob] (noon + 10)%Z).1
      = Some grp'.
Proof.
  destruct (addMembersToGroup afterBobLeft alice 7%N [bob] (noon + 10)%Z).2
    as [grp'|st msg] eqn:E.
  2:{ vm_compute in E. discriminate E. }
  exists grp'. split; [reflexivity|].
  destruct (addMembersToGroup_answer afterBobLeft alice 7%N [bob]
              (noon + 10)%Z grp' E)
    as (grp & _ & _ & _ & _ & _ & Hper & _).
  destruct (Hper bob) as (_ & _ & _ & _ & H); [apply list_elem_of_here|].
  exact H.
Defined.

(** ** Order *)

Lemma descendingBy_app {A : Type} (key : A → Z) (l1 l2 : list A) :
  descendingBy key (l1 ++ l2) ↔
  descendingBy key l1 ∧ descendingBy key l2
  ∧ ∀ x y, x ∈ l1 → y ∈ l2 → (key y ≤ key x)%Z.
Proof.
  induction l1 as [|a l1 IH]; simpl.
  - split; [intros ?; split_and!; [done|done|]|tauto].
    by intros x y ?%elem_of_nil.
  - rewrite Forall_app, IH. split.
    + intros ([H1 H2] & H3 & H4 & H5). split_and!; try done.
      intros x y [->|Hx]%elem_of_cons Hy.
      * by eapply Forall_forall in H2.
      * by apply H5.
    + intros ([H1 H2] & H3 & H4). split_and!; try done.
      * apply Forall_forall. intros y Hy. apply H4; [by left|done].
      * intros x y Hx Hy. apply H4; [by right|done].
Qed.

Lemma ascendingBy_app {A : Type} (key : A → Z) (l1 l2 : list A) :
  ascendingBy key (l1 ++ l2) ↔
  ascendingBy key l1 ∧ ascendingBy key l2
  ∧ ∀ x y, x ∈ l1 → y ∈ l2 → (key x ≤ key y)%Z.
Proof.
  induction l1 as [|a l1 IH]; simpl.
  - split; [intros ?; split_and!; [done|done|]|tauto].
    by intros x y ?%elem_of_nil.
  - rewrite Forall_app, IH. split.
    + intros ([H1 H2] & H3 & H4 & H5). split_and!; try done.
      intros x y [->|Hx]%elem_of_cons Hy.
      * by eapply Forall_forall in H2.
      * by apply H5.
    + intros ([H1 H2] & H3 & H4). split_and!; try done.
      * apply Forall_forall. intros y Hy. apply H4; [by left|done].
      * intros x y Hx Hy. apply H4; [by right|done].
Qed.

Lemma ascendingBy_reverse {A : Type} (key : A → Z) (l : list A) :
  descendingBy key l → ascendingBy key (reverse l).
Proof.
  induction l as [|a l IH]; simpl; [done|]. intros [Ha Hl].
  rewrite reverse_cons. apply ascendingBy_app. split_and!; [auto|simpl; split; [constructor|done]|].
  intros x y Hx ->%list_elem_of_singleton.
  rewrite elem_of_reverse in Hx.
  eapply Forall_forall in Ha; [|exact Hx]. exact Ha.
Qed.

Lemma descendingBy_take_drop {A : Type} (key : A → Z) (l : list A) (i n : nat) :
  descendingBy key l → descendingBy key (take n (drop i l)).
Proof.
  intros H. rewrite <- (take_drop i l) in H.
  apply descendingBy_app in H as (_ & H & _).
  rewrite <- (take_drop n (drop i l)) in H.
  by apply descendingBy_app in H as (H & _ & _).
Qed.

Lemma elem_of_insertNewestFirst (x m : Message) (l : list Message) :
  x ∈ insertNewestFirst m l ↔ x = m ∨ x ∈ l.
Proof.
  induction l as [|d l IH]; simpl.
  - rewrite list_elem_of_singleton, elem_of_nil. tauto.
  - case_bool_decide.
    + by rewrite elem_of_cons.
    + rewrite !elem_of_cons, IH. tauto.
Qed.

Lemma elem_of_sortNewestFirst (x : Message) (l : list Message) :
  x ∈ sortNewestFirst l ↔ x ∈ l.
Proof.
  unfold sortNewestFirst. rewrite <- (elem_of_reverse x l).
  induction (reverse l) as [|m k IH]; simpl; [done|].
  rewrite elem_of_insertNewestFirst, elem_of_cons, IH. done.
Qed.

Lemma length_sortNewestFirst (l : list Message) :
  length (sortNewestFirst l) = length l.
Proof.
  unfold sortNewestFirst. rewrite <- (length_reverse l).
  induction (reverse l) as [|m k IH]; simpl; [done|]. rewrite <- IH.
  generalize (foldr insertNewestFirst [] k). intros s.
  induction s as [|d s IHs]; simpl; [done|].
  case_bool_decide; simpl; [done|]. by rewrite IHs.
Qed.

Lemma descendingBy_insertNewestFirst (m : Message) (l : list Message) :
  descendingBy createdAt l → descendingBy createdAt (insertNewestFirst m l).
Proof.
  induction l as [|d l IH]; simpl; [done|]. intros [Hd Hl].
  case_bool_decide as Hlt; simpl.
  - split_and!; [|done|done]. constructor; [lia|].
    eapply Forall_impl; [exact Hd|]. simpl. intros; lia.
  - split; [|auto]. apply Forall_forall. intros x Hx.
    apply elem_of_insertNewestFirst in Hx as [->|Hx]; [lia|].
    by eapply Forall_forall in Hd.
Qed.

Lemma descendingBy_sortNewestFirst (l : list Message) :
  descendingBy createdAt (sortNewestFirst l).
Proof.
  unfold sortNewestFirst. induction (reverse l) as [|m k IH]; simpl; [done|].
  by apply descendingBy_insertNewestFirst.
Qed.

(** ** Reading the history of a group *)

Lemma notDeletedFor_spec (u : ObjectId) (m : Message) :
  notDeletedFor u m ↔ ¬ individuallyDeletedFor u m.
Proof.
  unfold notDeletedFor, individuallyDeletedFor, nin.
  assert ((∀ P : Prop, ¬ (P ∨ sender m = u ∧ deletedForSender m = true) →
                       sender m ≠ u ∨ deletedForSender m ≠ true)) as Hside.
  { intros P H. destruct (decide (sender m = u)); [|by left].
    right. intros Hd. apply H. by right. }
  destruct (deletedForUsers m) as [l|]; simpl; split.
  - intros [[Hn|?] Hs] [Hin|[Hu Hd]]; try done. destruct Hs; done.
  - intros H. split; [|by eapply Hside].
    left. intros Hin. apply H. by left.
  - intros [_ Hs] [Hin|[Hu Hd]]; [by apply elem_of_nil in Hin|].
    destruct Hs; done.
  - intros H. split; [by right|by eapply Hside].
Qed.

Lemma elem_of_take_drop {A : Type} (x : A) (n i : nat) (l : list A) :
  x ∈ take n (drop i l) → x ∈ l.
Proof.
  intros H. eapply elem_of_sublist; [|apply sublist_drop].
  eapply elem_of_sublist; [exact H|apply sublist_take].
Qed.

Lemma length_filter_weaken {A : Type} (P Q : A → Prop)
    `{!∀ x, Decision (P x)} `{!∀ x, Decision (Q x)} (l : list A) :
  (∀ x, P x → Q x) → length (filter P l) ≤ length (filter Q l).
Proof.
  intros HPQ. induction l as [|x l IH]; [done|].
  rewrite !filter_cons. destruct (decide (P x)) as [HP|HP].
  - rewrite decide_True by auto. simpl. lia.
  - case_decide; simpl; lia.
Qed.

(** Every message of an answer of [getGroupMessages] passed the query. *)
Lemma getGroupMessages_sound (w : World) (userId g : ObjectId)
    (page limit : option nat) (ms : list Message) :
  getGroupMessages w userId g page limit = answer ms →
  ∃ grp st,
    groups w !! g = Some grp ∧ standing grp userId = Some st
    ∧ ∀ m, m ∈ ms →
        m ∈ messages w ∧ group m = Some g
        ∧ ¬ individuallyDeletedFor userId m
        ∧ (messageType m ≠ system_t →
           match st with
           | current joinedAt => (joinedAt ≤ createdAt m)%Z
           | departed until => (createdAt m ≤ until)%Z
           end).
Proof.
  unfold getGroupMessages.
  destruct (groups w !! g) as [grp|]; [|done].
  destruct (listsUser userId grp && isActive grp); [|done].
  destruct (standing grp userId) as [st|] eqn:Est; [|done].
  intros [= <-]. exists grp, st. do 2 (split; [done|]).
  intros m Hm. apply elem_of_reverse, elem_of_take_drop in Hm.
  apply elem_of_sortNewestFirst, list_elem_of_filter in Hm
    as [(Hg & Hwin & Hdel) Hin].
  split_and!; [done|done|by apply notDeletedFor_spec|].
  intros Hty. destruct Hwin as [?|[_ Hwin]]; done.
Qed.

(** X9. What the history of a group shows. An answer of
    [getGroupMessages] holds at most [limit] messages (50 when no limit
    is given), oldest first; each is a stored message of this group that
    the reader has not deleted on their own side; a message that is not
    a system message lies at or after the date the reader joined, or,
    for a reader who has left or was removed, at or before the date of
    leaving. When the group has no more messages than the limit, the
    first page holds every message that meets these conditions. *)
Theorem getGroupMessages_answer (w : World) (userId g : ObjectId)
    (page limit : option nat) (ms : list Message) :
  getGroupMessages w userId g page limit = answer ms →
  ∃ grp st,
    groups w !! g = Some grp ∧ isActive grp = true
    ∧ standing grp userId = Some st
    ∧ length ms ≤ parsedOr 50 limit
    ∧ ascendingBy createdAt ms
    ∧ (∀ m, m ∈ ms →
         m ∈ messages w ∧ group m = Some g
         ∧ ¬ individuallyDeletedFor userId m
         ∧ (messageType m ≠ system_t →
            match st with
            | current joinedAt => (joinedAt ≤ createdAt m)%Z
            | departed until => (createdAt m ≤ until)%Z
            end))
    ∧ (parsedOr 1 page = 1 →
       length (filter (λ m, group m = Some g) (messages w)) ≤ parsedOr 50 limit →
       ∀ m, m ∈ messages w → group m = Some g →
            ¬ individuallyDeletedFor userId m → inWindow st m → m ∈ ms).
Proof.
  intros Hans.
  destruct (getGroupMessages_sound _ _ _ _ _ _ Hans)
    as (grp & st & Hg & Hst & Hsound).
  exists grp, st. revert Hans. unfold getGroupMessages. rewrite Hg, Hst.
  destruct (listsUser userId grp && isActive grp) eqn:E; [|done].
  apply andb_true_iff in E as [_ Hact]. intros [= Hms].
  do 3 (split; [done|]).
  split; [|split; [|split; [exact Hsound|]]].
  - rewrite <- Hms, length_reverse. apply firstn_le_length.
  - rewrite <- Hms.
    apply ascendingBy_reverse, descendingBy_take_drop,
      descendingBy_sortNewestFirst.
  - intros Hpage Hfew m Hin Hgm Hdel Hwin. rewrite <- Hms, Hpage.
    change ((1 - 1) * parsedOr 50 limit) with 0. rewrite drop_0.
    apply elem_of_reverse. rewrite take_ge.
    + apply elem_of_sortNewestFirst, list_elem_of_filter.
      split; [|done]. split_and!; [done|done|by apply notDeletedFor_spec].
    + rewrite length_sortNewestFirst.
      etrans; [|exact Hfew].
      apply length_filter_weaken. by intros x (? & _).
Qed.

Lemma getGroupMessages_answer_witness :
  ∃ ms, getGroupMessages afterHello bob 7%N None None = answer ms
        ∧ length ms ≤ 50
        ∧ ascendingBy createdAt ms.
Proof.
  destruct (getGroupMessages afterHello bob 7%N None None) as [ms|st msg] eqn:E.
  2:{ vm_compute in E. discriminate E. }
  exists ms. split; [reflexivity|].
  destruct (getGroupMessages_answer afterHello bob 7%N None None ms E)
    as (grp & st & _ & _ & _ & Hlen & Hasc & _).
  split; [exact Hlen|exact Hasc].
Defined.

(** ** Rewriting one stored message *)

Lemma uniqueIds_found (store : list Message) (id : ObjectId) (m d : Message) :
  uniqueIds store → findById id store = Some m →
  d ∈ store → _id d = id → d = m.
Proof.
  intros Hnd Hfind Hd Hid. unfold findById in Hfind.
  destruct (list_find _ store) as [[i x]|] eqn:E; [|done].
  simpl in Hfind. injection Hfind as ->.
  apply list_find_Some in E as (Hi & Hm & _).
  apply list_elem_of_lookup_1 in Hd as [j Hj].
  assert (i = j) as -> by (eapply uniqueIds_lookup; eauto; congruence).
  congruence.
Qed.

Lemma replaceDoc_updateOne (store : list Message) (id : ObjectId)
    (f : Message → Message) (m : Message) :
  uniqueIds store → findById id store = Some m → _id (f m) = id →
  replaceDoc (f m) store = updateOne id f <$> store.
Proof.
  intros Hnd Hfind Hid. unfold replaceDoc. apply list_fmap_ext.
  intros i d Hd. unfold updateOne. rewrite Hid.
  case_bool_decide as Hd'; [|done]. f_equal. symmetry.
  eapply uniqueIds_found; eauto. by eapply list_elem_of_lookup_2.
Qed.

Lemma filter_fmap_stable {A : Type} (f : A → A) (P : A → Prop)
    `{!∀ x, Decision (P x)} (l : list A) :
  (∀ d, d ∈ l → (P (f d) ↔ P d)) →
  filter P (f <$> l) = f <$> filter P l.
Proof.
  induction l as [|x l IH]; intros Hst; [done|].
  rewrite fmap_cons, !filter_cons.
  assert (P (f x) ↔ P x) as Hx by (apply Hst; by left).
  rewrite IH by (intros d Hd; apply Hst; by right).
  destruct (decide (P x)) as [HP|HP].
  - rewrite decide_True by tauto. done.
  - rewrite decide_False by tauto. done.
Qed.

Lemma insertNewestFirst_fmap (f : Message → Message) (m : Message)
    (l : list Message) :
  (∀ d, createdAt (f d) = createdAt d) →
  insertNewestFirst (f m) (f <$> l) = f <$> insertNewestFirst m l.
Proof.
  intros Hf. induction l as [|d l IH]; [done|].
  rewrite fmap_cons. cbn [insertNewestFirst]. rewrite !Hf.
  case_bool_decide; [done|]. rewrite fmap_cons. by rewrite IH.
Qed.

Lemma sortNewestFirst_fmap (f : Message → Message) (l : list Message) :
  (∀ d, createdAt (f d) = createdAt d) →
  sortNewestFirst (f <$> l) = f <$> sortNewestFirst l.
Proof.
  intros Hf. unfold sortNewestFirst. rewrite <- fmap_reverse.
  induction (reverse l) as [|m k IH]; [done|].
  rewrite fmap_cons. cbn [foldr]. rewrite IH.
  by apply insertNewestFirst_fmap.
Qed.

Lemma insertByCreatedAt_fmap (f : Message → Message) (m : Message)
    (l : list Message) :
  (∀ d, createdAt (f d) = createdAt d) →
  insertByCreatedAt (f m) (f <$> l) = f <$> insertByCreatedAt m l.
Proof.
  intros Hf. induction l as [|d l IH]; [done|].
  rewrite fmap_cons. cbn [insertByCreatedAt]. rewrite !Hf.
  case_bool_decide; [done|]. rewrite fmap_cons. by rewrite IH.
Qed.

Lemma sortByCreatedAt_fmap (f : Message → Message) (l : list Message) :
  (∀ d, createdAt (f d) = createdAt d) →
  sortByCreatedAt (f <$> l) = f <$> sortByCreatedAt l.
Proof.
  intros Hf. unfold sortByCreatedAt. rewrite <- fmap_reverse.
  induction (reverse l) as [|m k IH]; [done|].
  rewrite fmap_cons. cbn [foldr]. rewrite IH.
  by apply insertByCreatedAt_fmap.
Qed.

(** ** Deleting a group message on one's own side *)

Lemma deletedInGroupFor_fields (u : ObjectId) (now : Date) (m : Message) :
  _id (deletedInGroupFor u now m) = _id m
  ∧ sender (deletedInGroupFor u now m) = sender m
  ∧ receiver (deletedInGroupFor u now m) = receiver m
  ∧ group (deletedInGroupFor u now m) = group m
  ∧ text (deletedInGroupFor u now m) = text m
  ∧ messageType (deletedInGroupFor u now m) = messageType m
  ∧ createdAt (deletedInGroupFor u now m) = createdAt m.
Proof.
  unfold deletedInGroupFor, pushDeletedForUser.
  destruct m; simpl. by case_bool_decide.
Qed.

Lemma deletedInGroupFor_self (u : ObjectId) (now : Date) (m : Message) :
  individuallyDeletedFor u (deletedInGroupFor u now m).
Proof.
  unfold individuallyDeletedFor, deletedInGroupFor, pushDeletedForUser.
  destruct m as [i s r g t im v ty rd ed eat dfs dfr dfe dfu dat rm c]; simpl.
  case_bool_decide as Hs; simpl; [by right|]. left.
  case_bool_decide as Hin; [done|]. apply elem_of_app. right. by left.
Qed.

Lemma deletedInGroupFor_other (u v : ObjectId) (now : Date) (m : Message) :
  v ≠ u →
  individuallyDeletedFor v (deletedInGroupFor u now m)
  ↔ individuallyDeletedFor v m.
Proof.
  intros Hne.
  unfold individuallyDeletedFor, deletedInGroupFor, pushDeletedForUser.
  destruct m as [i s r g t im vd ty rd ed eat dfs dfr dfe dfu dat rm c]; simpl.
  case_bool_decide as Hs; simpl.
  - subst s. split; (intros [?|[? ?]]; [by left|done]).
  - case_bool_decide as Hin; simpl; [done|].
    rewrite elem_of_app, list_elem_of_singleton. tauto.
Qed.

Lemma individuallyDeletedFor_withDefaults (v : ObjectId) (m : Message) :
  individuallyDeletedFor v (withDefaults m) ↔ individuallyDeletedFor v m.
Proof. by destruct m. Qed.

(** The store after a member has deleted a group message on their own
    side, over the socket. *)
Lemma handleDeleteMessageForMe_group (w : World) (socket : CustomSocket)
    (id g : ObjectId) (now : Date) (m : Message) :
  uniqueIds (messages w) → storeOk w →
  findById id (messages w) = Some m → group m = Some g →
  is_Some (findActiveGroupOfMember g (s_userId socket) w) →
  (handleDeleteMessageForMe w socket id now).1
  = set_messages
      (updateOne id
         (λ d, withDefaults (deletedInGroupFor (s_userId socket) now d))
       <$> messages w) w.
Proof.
  intros Hnd Hok Hfind Hg [grp Hgrp].
  destruct (findById_Some _ _ _ Hfind) as [Hin Hid].
  unfold handleDeleteMessageForMe. rewrite Hfind, Hg.
  unfold handleGroupMessageDeleteForMe. rewrite Hgrp.
  fold (deletedInGroupFor (s_userId socket) now m).
  unfold saveLoaded.
  assert (preValidate (deletedInGroupFor (s_userId socket) now m) = None)
    as ->.
  { apply preValidate_exactlyOne. unfold storeOk in Hok.
    eapply Forall_forall in Hok; [|exact Hin]. unfold exactlyOne in *.
    destruct (deletedInGroupFor_fields (s_userId socket) now m)
      as (_ & _ & -> & -> & _). done. }
  cbn [fst]. f_equal.
  apply (replaceDoc_updateOne _ id
           (λ d, withDefaults (deletedInGroupFor (s_userId socket) now d)));
    [done|done|].
  rewrite withDefaults_id.
  by destruct (deletedInGroupFor_fields (s_userId socket) now m) as (-> & _).
Qed.

Lemma getGroupMessages_fmap (w w' : World) (f : Message → Message)
    (u g : ObjectId) (page limit : option nat) (ms : list Message) :
  groups w' = groups w →
  messages w' = f <$> messages w →
  (∀ d, createdAt (f d) = createdAt d) →
  (∀ d, group (f d) = group d) →
  (∀ d, messageType (f d) = messageType d) →
  (∀ d, d ∈ messages w → notDeletedFor u (f d) ↔ notDeletedFor u d) →
  getGroupMessages w u g page limit = answer ms →
  getGroupMessages w' u g page limit = answer (f <$> ms).
Proof.
  intros Hgroups Hmsgs Hc Hg Hty Hdel. unfold getGroupMessages.
  rewrite Hgroups, Hmsgs.
  destruct (groups w !! g) as [grp|]; [|done].
  destruct (listsUser u grp && isActive grp); [|done].
  destruct (standing grp u) as [st|]; [|done].
  intros [= <-]. f_equal.
  rewrite fmap_reverse, fmap_take, fmap_drop.
  rewrite <- sortNewestFirst_fmap by done.
  rewrite <- filter_fmap_stable; [done|].
  intros d Hd. unfold inWindow. rewrite Hg, Hty, Hc, (Hdel d Hd). done.
Qed.

(** X10. Deleting a group message on one's own side is private. After a
    member has deleted a stored group message for themselves over the
    socket, no page of the history of the group shows it to them any
    more; every other reader is shown the same messages as before, with
    the same texts, and has the same unread count; and the HTTP
    controller would have left the same world. *)
Theorem group_delete_for_me_is_private (w : World) (socket : CustomSocket)
    (id g : ObjectId) (now : Date) (m : Message) :
  uniqueIds (messages w) → storeOk w →
  findById id (messages w) = Some m → group m = Some g →
  is_Some (findActiveGroupOfMember g (s_userId socket) w) →
  let u := s_userId socket in
  let w' := (handleDeleteMessageForMe w socket id now).1 in
  (∀ page limit ms,
     getGroupMessages w' u g page limit = answer ms → id ∉ _id <$> ms)
  ∧ (∀ v page limit ms, v ≠ u →
       getGroupMessages w v g page limit = answer ms →
       ∃ ms', getGroupMessages w' v g page limit = answer ms'
              ∧ _id <$> ms' = _id <$> ms
              ∧ text <$> ms' = text <$> ms)
  ∧ (∀ v grp later, v ≠ u →
       unreadCount w' g grp v later = unreadCount w g grp v later)
  ∧ (deleteMessageForMe w (Some u) (Some id) now).1 = w'.
Proof.
  intros Hnd Hok Hfind Hg Hmem u w'.
  assert (w' = set_messages
                 (updateOne id (λ d, withDefaults (deletedInGroupFor u now d))
                  <$> messages w) w) as Hw'
    by by apply handleDeleteMessageForMe_group with g m.
  clearbody w'. subst w'.
  set (f := updateOne id (λ d, withDefaults (deletedInGroupFor u now d))).
  destruct (findById_Some _ _ _ Hfind) as [Hin Hid].
  assert (∀ d, _id (f d) = _id d ∧ sender (f d) = sender d
               ∧ group (f d) = group d ∧ text (f d) = text d
               ∧ messageType (f d) = messageType d
               ∧ createdAt (f d) = createdAt d) as Hf.
  { intros d. subst f. unfold updateOne. case_bool_decide; [|done].
    destruct (withDefaults_fields (deletedInGroupFor u now d))
      as (-> & -> & _ & -> & -> & -> & _ & _ & _ & _ & _ & _ & _ & -> & _).
    destruct (deletedInGroupFor_fields u now d)
      as (-> & -> & _ & -> & -> & -> & ->). done. }
  assert (∀ v d, v ≠ u →
            individuallyDeletedFor v (f d) ↔ individuallyDeletedFor v d)
    as Hother.
  { intros v d Hv. subst f. unfold updateOne. case_bool_decide; [|done].
    rewrite individuallyDeletedFor_withDefaults.
    by apply deletedInGroupFor_other. }
  split_and!.
  - intros page limit ms Hans Hid'.
    destruct (getGroupMessages_sound _ _ _ _ _ _ Hans)
      as (grp & st & _ & _ & Hsound).
    apply list_elem_of_fmap in Hid' as (x & Hx & Hxin).
    destruct (Hsound x Hxin) as (Hstore & _ & Hdel & _).
    cbn [messages set_messages] in Hstore.
    apply list_elem_of_fmap in Hstore as (d & -> & Hd).
    apply Hdel. destruct (Hf d) as (Hfid & _). rewrite Hfid in Hx.
    unfold f, updateOne.
    rewrite bool_decide_eq_true_2 by done.
    apply individuallyDeletedFor_withDefaults, deletedInGroupFor_self.
  - intros v page limit ms Hv Hans. exists (f <$> ms). split_and!.
    + apply (getGroupMessages_fmap w _ f); try done.
      * intros d. apply Hf.
      * intros d. apply Hf.
      * intros d. apply Hf.
      * intros d _. rewrite !notDeletedFor_spec. by rewrite Hother.
    + rewrite <- list_fmap_compose. apply list_fmap_ext.
      intros i d _. apply Hf.
    + rewrite <- list_fmap_compose. apply list_fmap_ext.
      intros i d _. apply Hf.
  - intros v grp later Hv. unfold unreadCount.
    destruct (userMember grp v) as [mem|]; [|done].
    unfold countDocuments. cbn [messages set_messages].
    rewrite filter_fmap_stable; [by rewrite length_fmap|].
    intros d _. rewrite !unreadFilter_countsAsUnread.
    unfold countsAsUnread.
    destruct (Hf d) as (_ & -> & -> & _ & _ & ->). by rewrite Hother.
  - destruct Hmem as [grp Hgrp]. fold u in Hgrp.
    assert (exactlyOne m) as Hone.
    { unfold storeOk in Hok. by eapply Forall_forall in Hok. }
    assert (receiver m = None) as Hr.
    { destruct Hone as [[_ ?]|[? _]]; [congruence|done]. }
    unfold deleteMessageForMe. rewrite Hfind, Hg, Hgrp, Hr.
    rewrite (bool_decide_eq_false_2 (None = Some u)) by done.
    rewrite (bool_decide_eq_true_2 (is_Some (Some grp))) by done.
    rewrite andb_false_r.
    fold (deletedInGroupFor u now m). unfold saveLoaded.
    assert (preValidate (deletedInGroupFor u now m) = None) as ->.
    { apply preValidate_exactlyOne. unfold exactlyOne in *.
      destruct (deletedInGroupFor_fields u now m) as (_ & _ & -> & -> & _).
      done. }
    cbn [fst]. f_equal.
    apply (replaceDoc_updateOne _ id
             (λ d, withDefaults (deletedInGroupFor u now d))); [done|done|].
    rewrite withDefaults_id.
    by destruct (deletedInGroupFor_fields u now m) as (-> & _).
Qed.

Lemma group_delete_for_me_is_private_witness :
  ∃ ms,
    getGroupMessages
      (handleDeleteMessageForMe afterHello bobSocket 100%N (noon + 5)%Z).1
      bob 7%N None None = answer ms
    ∧ 100%N ∉ _id <$> ms.
Proof.
  destruct (findById 100%N (messages afterHello)) as [m|] eqn:E.
  2:{ vm_compute in E. discriminate E. }
  assert (uniqueIds (messages afterHello)) as Hnd
    by (apply (bool_decide_unpack _); vm_compute; exact I).
  assert (storeOk afterHello) as Hok
    by (apply (bool_decide_unpack _); vm_compute; exact I).
  assert (group m = Some 7%N) as Hg
    by (vm_compute in E; injection E as <-; reflexivity).
  assert (is_Some (findActiveGroupOfMember 7%N (s_userId bobSocket) afterHello))
    as Hmem by (apply (bool_decide_unpack _); vm_compute; exact I).
  destruct (group_delete_for_me_is_private afterHello bobSocket 100%N 7%N
              (noon + 5)%Z m Hnd Hok E Hg Hmem) as [Hgone _].
  destruct (getGroupMessages
              (handleDeleteMessageForMe afterHello bobSocket 100%N
                 (noon + 5)%Z).1 bob 7%N None None) as [ms|st msg] eqn:Eg.
  2:{ vm_compute in Eg. discriminate Eg. }
  exists ms. split; [reflexivity|]. exact (Hgone None None ms Eg).
Defined.

(** ** The history is never rewritten *)

Lemma hist_same (w : World) (next : ObjectId) :
  idsOk w → (nextObjectId w ≤ next)%N →
  (uniqueIds (messages w) ∧ Forall (λ m, (_id m < next)%N) (messages w))
  ∧ core <$> messages w `prefix_of` core <$> messages w.
Proof.
  intros [Hnd Hlt] Hle. split_and!; [done| |done].
  eapply Forall_impl; [exact Hlt|]. simpl. intros; lia.
Qed.

Lemma hist_new (w : World) (m : Message) (store : list Message) :
  idsOk w → saveNew m (messages w) = inr store → _id m = nextObjectId w →
  (uniqueIds store
   ∧ Forall (λ m, (_id m < N.succ (nextObjectId w))%N) store)
  ∧ core <$> messages w `prefix_of` core <$> store.
Proof.
  intros [Hnd Hlt] [_ ->]%saveNew_accepts Hid. split_and!.
  - unfold uniqueIds. rewrite fmap_app. apply NoDup_app. split_and!.
    + done.
    + intros x (d & -> & Hd)%list_elem_of_fmap Hx.
      apply list_elem_of_singleton in Hx.
      eapply Forall_forall in Hlt; [|exact Hd]. simpl in Hlt. lia.
    + apply NoDup_singleton.
  - apply Forall_app. split.
    + eapply Forall_impl; [exact Hlt|]. simpl. intros; lia.
    + apply Forall_singleton. lia.
  - rewrite fmap_app. by apply prefix_app_r.
Qed.

Lemma hist_fmap (w : World) (f : Message → Message) :
  idsOk w → (∀ d, d ∈ messages w → core (f d) = core d) →
  (uniqueIds (f <$> messages w)
   ∧ Forall (λ m, (_id m < nextObjectId w)%N) (f <$> messages w))
  ∧ core <$> messages w `prefix_of` core <$> (f <$> messages w).
Proof.
  intros [Hnd Hlt] Hcore.
  assert (core <$> (f <$> messages w) = core <$> messages w) as Heq.
  { rewrite <- list_fmap_compose. apply list_fmap_ext. intros i d Hd.
    apply Hcore. by eapply list_elem_of_lookup_2. }
  assert (∀ d, d ∈ messages w → _id (f d) = _id d) as Hid.
  { intros d Hd. specialize (Hcore d Hd). unfold core in Hcore. congruence. }
  assert (_id <$> (f <$> messages w) = _id <$> messages w) as Hids.
  { rewrite <- list_fmap_compose. apply list_fmap_ext. intros i d Hd.
    apply Hid. by eapply list_elem_of_lookup_2. }
  split_and!.
  - unfold uniqueIds. by rewrite Hids.
  - apply Forall_fmap. apply Forall_forall. intros d Hd.
    eapply Forall_forall in Hlt; [|exact Hd].
    change ((_id (f d) < nextObjectId w)%N). by rewrite Hid.
  - by rewrite Heq.
Qed.

Lemma hist_loaded (w : World) (b : bool) (m m0 : Message)
    (store : list Message) :
  idsOk w → saveLoaded b m (messages w) = inr store →
  m0 ∈ messages w → core m = core m0 →
  (uniqueIds store ∧ Forall (λ m, (_id m < nextObjectId w)%N) store)
  ∧ core <$> messages w `prefix_of` core <$> store.
Proof.
  intros Hok [_ ->]%saveLoaded_accepts Hin Hcore. unfold replaceDoc.
  apply hist_fmap; [done|]. intros d Hd. case_bool_decide as Hid; [|done].
  rewrite withDefaults_id in Hid.
  replace (core (withDefaults m)) with (core m) by by destruct m.
  rewrite Hcore. f_equal.
  destruct Hok as [Hnd _].
  apply list_elem_of_lookup_1 in Hd as [i Hi].
  apply list_elem_of_lookup_1 in Hin as [j Hj].
  assert (i = j) as ->.
  { eapply uniqueIds_lookup; eauto. unfold core in Hcore. congruence. }
  congruence.
Qed.

Lemma hist_markRead (w : World) (a b : ObjectId) :
  idsOk w →
  (uniqueIds (markRead a b (messages w))
   ∧ Forall (λ m, (_id m < nextObjectId w)%N) (markRead a b (messages w)))
  ∧ core <$> messages w `prefix_of` core <$> markRead a b (messages w).
Proof.
  intros Hok. unfold markRead. apply hist_fmap; [done|].
  intros d _. case_bool_decide; [by destruct d|done].
Qed.

Lemma findById_elem (id : ObjectId) (store : list Message) (m : Message) :
  findById id store = Some m → m ∈ store.
Proof. by intros [? _]%findById_Some. Qed.

Lemma findOne_elem (id u : ObjectId) (store : list Message) (m : Message) :
  findOneByIdAndSender id u store = Some m → m ∈ store.
Proof. by intros [? _]%findOne_Some. Qed.

Lemma directMessageData_id (id a b : ObjectId) (ty : ClientMessageType)
    (txt img vid : option JsString) (read : bool) (now : Date) :
  _id (directMessageData id a b ty txt img vid read now) = id.
Proof. by destruct ty. Qed.

Ltac same_core :=
  match goal with
  | |- core _ = core ?x =>
      unfold pushDeletedForUser, tombstoned; destruct x; simpl;
      repeat case_bool_decide; reflexivity
  end.

Ltac history Hok :=
  repeat case_match; simpl in *; simplify_eq;
  first
    [ by apply hist_markRead
    | by (eapply hist_new;
            [exact Hok|eassumption|first [done|apply directMessageData_id]])
    | by (eapply hist_loaded;
            [exact Hok|eassumption|eapply findById_elem; eassumption
            |same_core])
    | by (eapply hist_loaded;
            [exact Hok|eassumption|eapply findOne_elem; eassumption
            |same_core])
    | by (apply hist_same; [exact Hok|lia]) ].

Lemma perform_history (a : Action) (w : World) :
  idsOk w →
  idsOk (perform a w)
  ∧ core <$> messages w `prefix_of` core <$> messages (perform a w).
Proof.
  intros Hok. unfold idsOk. destruct a; simpl.
  - unfold handleSendMessage. history Hok.
  - unfold handleSendGroupMessage. history Hok.
  - unfold sendMessage. history Hok.
  - unfold saveSystemMessage. history Hok.
  - unfold handleEditMessage. history Hok.
  - unfold editMessage. history Hok.
  - unfold handleDeleteMessageForMe, handleGroupMessageDeleteForMe,
      handleNormalMessageDeleteForMe. history Hok.
  - unfold deleteMessageForMe. history Hok.
  - unfold handleDeleteMessageForEveryone, handleGroupMessageDeleteForEveryone,
      handleNormalMessageDeleteForEveryone. history Hok.
  - unfold deleteMessageForEveryone. history Hok.
  - unfold handleMarkMessagesAsRead. history Hok.
  - unfold markMessagesAsRead. history Hok.
  - unfold handleMarkGroupMessagesAsRead. history Hok.
  - unfold markGroupMessagesAsRead. history Hok.
  - history Hok.
  - history Hok.
  - unfold handleJoinGroupChat. history Hok.
  - unfold handleLeaveGroupChat. history Hok.
  - history Hok.
  - history Hok.
Qed.

Lemma elem_of_prefix {A : Type} (l1 l2 : list A) (x : A) :
  l1 `prefix_of` l2 → x ∈ l1 → x ∈ l2.
Proof. intros [k ->] Hx. apply elem_of_app. by left. Qed.

Lemma elem_of_getMessages (w : World) (a b : ObjectId) (ms : list Message)
    (x : Message) :
  getMessages w (Some a) (Some b) = answer ms →
  x ∈ ms ↔ ∃ m, m ∈ messages w ∧ between a b m ∧ x = selectDirect m.
Proof.
  unfold getMessages. intros [= <-]. rewrite list_elem_of_fmap.
  split.
  - intros (m & -> & Hm). exists m.
    apply elem_of_sortByCreatedAt, list_elem_of_filter in Hm as [? ?]. done.
  - intros (m & Hin & Hb & ->). exists m. split; [done|].
    apply elem_of_sortByCreatedAt, list_elem_of_filter. done.
Qed.

(** X11. The history is never rewritten. Whatever the clients and the
    controllers do, the stored messages keep their place in the store,
    their id, sender, receiver, group, kind and date; new messages are
    put behind them under ids that were never used; and a message that
    [getMessages] listed for two users is listed for them ever after,
    also when one of them, or the sender for everyone, has deleted it. *)
Theorem run_keeps_history (actions : list Action) (w : World) :
  idsOk w →
  idsOk (run actions w)
  ∧ core <$> messages w `prefix_of` core <$> messages (run actions w)
  ∧ ∀ a b ms, getMessages w (Some a) (Some b) = answer ms →
      ∃ ms', getMessages (run actions w) (Some a) (Some b) = answer ms'
             ∧ ∀ id, id ∈ _id <$> ms → id ∈ _id <$> ms'.
Proof.
  intros Hok.
  assert (idsOk (run actions w)
          ∧ core <$> messages w `prefix_of` core <$> messages (run actions w))
    as [Hok' Hpre].
  { revert w Hok. induction actions as [|a actions IH]; intros w Hok; [done|].
    destruct (perform_history a w Hok) as [Hok1 Hpre1].
    destruct (IH _ Hok1) as [Hok2 Hpre2]. simpl. split; [done|].
    by etrans. }
  split_and!; [done|done|].
  intros a b ms Hans. eexists. split; [reflexivity|].
  intros id (x & -> & Hx)%list_elem_of_fmap.
  apply (elem_of_getMessages _ _ _ _ _ Hans) in Hx as (m & Hin & Hb & ->).
  assert (core m ∈ core <$> messages (run actions w)) as Hcore.
  { eapply elem_of_prefix; [exact Hpre|]. by apply list_elem_of_fmap_2. }
  apply list_elem_of_fmap in Hcore as (m' & Hc & Hin').
  unfold core in Hc. injection Hc as Hid Hs Hr Hg Hty Hdate.
  apply list_elem_of_fmap. exists (selectDirect m'). split; [done|].
  apply list_elem_of_fmap. exists m'. split; [done|].
  apply elem_of_sortByCreatedAt, list_elem_of_filter. split; [|done].
  unfold between in *. by rewrite <- Hs, <- Hr.
Qed.

Lemma run_keeps_history_witness :
  idsOk friendly ∧ idsOk (run session friendly).
Proof.
  assert (idsOk friendly) as Hok.
  { split; [apply NoDup_nil_2|apply Forall_nil_2]. }
  split; [exact Hok|].
  destruct (run_keeps_history session friendly Hok) as [H _]. exact H.
Defined.

(** ** Reading a direct chat *)

Lemma ascendingBy_insertByCreatedAt (m : Message) (l : list Message) :
  ascendingBy createdAt l → ascendingBy createdAt (insertByCreatedAt m l).
Proof.
  induction l as [|d l IH]; simpl; [done|]. intros [Hd Hl].
  case_bool_decide as Hlt; simpl.
  - split_and!; [|done|done]. constructor; [lia|].
    eapply Forall_impl; [exact Hd|]. simpl. intros; lia.
  - split; [|auto]. apply Forall_forall. intros x Hx.
    apply elem_of_insertByCreatedAt in Hx as [->|Hx]; [lia|].
    eapply Forall_forall in Hd; [|exact Hx]. exact Hd.
Qed.

Lemma ascendingBy_sortByCreatedAt (l : list Message) :
  ascendingBy createdAt (sortByCreatedAt l).
Proof.
  unfold sortByCreatedAt. induction (reverse l) as [|m k IH]; simpl; [done|].
  by apply ascendingBy_insertByCreatedAt.
Qed.

Lemma ascendingBy_fmap {A B : Type} (f : A → B) (key : A → Z) (key' : B → Z)
    (l : list A) :
  (∀ x, key' (f x) = key x) →
  ascendingBy key l → ascendingBy key' (f <$> l).
Proof.
  intros Hf. induction l as [|x l IH]; [done|]. rewrite fmap_cons.
  cbn [ascendingBy]. intros [Hx Hl]. split; [|auto].
  apply Forall_fmap. eapply Forall_impl; [exact Hx|]. simpl.
  intros y. by rewrite !Hf.
Qed.

(** X12. A direct chat reads the same from both ends. [getMessages]
    gives the two users the same list, oldest first: the stored messages
    that one of them sent to the other, each with its deletion flags.
    The flags themselves filter nothing: a message that one side, or
    both, deleted for themselves is in the list all the same. *)
Theorem getMessages_both_ends (w : World) (a b : ObjectId) :
  getMessages w (Some a) (Some b) = getMessages w (Some b) (Some a)
  ∧ ∃ ms, getMessages w (Some a) (Some b) = answer ms
          ∧ ascendingBy createdAt ms
          ∧ (∀ m, m ∈ messages w →
                  (sender m = a ∧ receiver m = Some b)
                  ∨ (sender m = b ∧ receiver m = Some a) →
                  selectDirect m ∈ ms)
          ∧ (∀ x, x ∈ ms →
                  ∃ m, m ∈ messages w ∧ x = selectDirect m
                       ∧ ((sender m = a ∧ receiver m = Some b)
                          ∨ (sender m = b ∧ receiver m = Some a))).
Proof.
  split.
  - unfold getMessages. do 3 f_equal. apply list_filter_iff.
    intros m. unfold between. tauto.
  - eexists. split; [reflexivity|]. split_and!.
    + apply (ascendingBy_fmap selectDirect createdAt createdAt); [done|].
      apply ascendingBy_sortByCreatedAt.
    + intros m Hin Hab. apply list_elem_of_fmap. exists m. split; [done|].
      apply elem_of_sortByCreatedAt, list_elem_of_filter. split; [|done].
      split; [done|]. destruct Hab as [[_ ->]|[_ ->]]; done.
    + intros x (m & -> & Hm)%list_elem_of_fmap.
      apply elem_of_sortByCreatedAt, list_elem_of_filter in Hm as [[Hab _] ?].
      by exists m.
Qed.

(** ** JavaScript maps *)

Lemma jsmap_get_cons {V : Type} (k k' : ObjectId) (v : V)
    (m : list (ObjectId * V)) :
  jsmap_get k ((k', v) :: m)
  = if decide (k' = k) then Some v else jsmap_get k m.
Proof.
  unfold jsmap_get. simpl. case_decide; [done|].
  by destruct (list_find _ m) as [[i e]|].
Qed.

Lemma jsmap_get_set_ne {V : Type} (k k' : ObjectId) (v : V)
    (m : list (ObjectId * V)) :
  k ≠ k' → jsmap_get k' (jsmap_set k v m) = jsmap_get k' m.
Proof.
  intros Hne. induction m as [|[k0 v0] m IH].
  - cbn [jsmap_set]. rewrite jsmap_get_cons. by rewrite decide_False.
  - cbn [jsmap_set]. case_bool_decide as Hk.
    + subst k0. rewrite !jsmap_get_cons. by rewrite !decide_False.
    + rewrite !jsmap_get_cons. by rewrite IH.
Qed.

Lemma elem_of_jsmap_keys_set {V : Type} (k x : ObjectId) (v : V)
    (m : list (ObjectId * V)) :
  x ∈ fst <$> jsmap_set k v m ↔ x = k ∨ x ∈ fst <$> m.
Proof.
  induction m as [|[k0 v0] m IH]; cbn [jsmap_set].
  - rewrite fmap_cons, elem_of_cons. simpl. tauto.
  - case_bool_decide as Hk.
    + subst k0. rewrite !fmap_cons, !elem_of_cons. simpl. tauto.
    + rewrite !fmap_cons, !elem_of_cons, IH. simpl. tauto.
Qed.

Lemma NoDup_jsmap_set {V : Type} (k : ObjectId) (v : V)
    (m : list (ObjectId * V)) :
  NoDup (fst <$> m) → NoDup (fst <$> jsmap_set k v m).
Proof.
  induction m as [|[k0 v0] m IH]; cbn [jsmap_set].
  - intros _. apply NoDup_singleton.
  - rewrite fmap_cons, NoDup_cons. simpl. intros [Hk0 Hnd].
    case_bool_decide as Hk.
    + subst k0. rewrite fmap_cons, NoDup_cons. done.
    + rewrite fmap_cons, NoDup_cons. simpl. split; [|auto].
      rewrite elem_of_jsmap_keys_set. intros [?|?]; done.
Qed.

Lemma jsmap_get_Some_elem {V : Type} (k : ObjectId) (v : V)
    (m : list (ObjectId * V)) :
  jsmap_get k m = Some v → (k, v) ∈ m.
Proof.
  induction m as [|[k0 v0] m IH]; [done|]. rewrite jsmap_get_cons.
  case_decide as Hk.
  - intros [= ->]. subst k0. by left.
  - intros H. right. auto.
Qed.

Lemma jsmap_elem_get {V : Type} (k : ObjectId) (v : V)
    (m : list (ObjectId * V)) :
  NoDup (fst <$> m) → (k, v) ∈ m → jsmap_get k m = Some v.
Proof.
  induction m as [|[k0 v0] m IH]; [by intros _ ?%elem_of_nil|].
  rewrite fmap_cons, NoDup_cons. simpl. intros [Hk0 Hnd].
  rewrite elem_of_cons, jsmap_get_cons. intros [[= -> ->]|Hin].
  - by rewrite decide_True.
  - case_decide as Hk; [|auto]. subst k0. exfalso. apply Hk0.
    apply list_elem_of_fmap. by exists (k, v).
Qed.

(** ** The conversation list *)

Lemma partnerOf_None_add (w : World) (u : ObjectId)
    (map : list (ObjectId * Conversation)) (m : Message) :
  partnerOf w u m = None → addToConversations w u map m = map.
Proof.
  unfold partnerOf, addToConversations.
  destruct (receiver m) as [rcv|]; [|done].
  destruct (users w !! rcv); [|done].
  destruct (users w !! sender m); [|done].
  by destruct (negb _ && negb _).
Qed.

Lemma partnerOf_Some_add (w : World) (u : ObjectId)
    (map : list (ObjectId * Conversation)) (m : Message) (k : ObjectId) :
  partnerOf w u m = Some k →
  ∃ name,
    addToConversations w u map m
    = jsmap_set k
        (summarize u m
           (default (mkConversation k name None 0) (jsmap_get k map)))
        map.
Proof.
  unfold partnerOf, addToConversations.
  destruct (receiver m) as [rcv|]; [|done].
  destruct (users w !! rcv); [|done].
  destruct (users w !! sender m); [|done].
  destruct (negb _ && negb _); [done|].
  intros [= <-]. by eexists.
Qed.

Lemma partnerOf_Some (w : World) (u : ObjectId) (m : Message) (k : ObjectId) :
  partnerOf w u m = Some k →
  is_Some (users w !! k)
  ∧ ((sender m = u ∧ receiver m = Some k)
     ∨ (sender m = k ∧ receiver m = Some u)).
Proof.
  unfold partnerOf, otherUserId.
  destruct (receiver m) as [rcv|]; [|done].
  destruct (users w !! rcv) eqn:Er; [|done].
  destruct (users w !! sender m) eqn:Es; [|done].
  case_bool_decide as Hs; simpl.
  - intros [= <-]. split; [by rewrite Er|by left].
  - case_bool_decide as Hr; simpl; [|done].
    intros [= <-]. split; [by rewrite Es|]. right. by subst rcv.
Qed.

Lemma partnerOf_between (w : World) (u : ObjectId) (m : Message)
    (k : ObjectId) :
  is_Some (users w !! u) → is_Some (users w !! sender m) →
  is_Some (users w !! k) →
  (sender m = u ∧ receiver m = Some k) ∨ (sender m = k ∧ receiver m = Some u) →
  partnerOf w u m = Some k.
Proof.
  intros [uu Hu] [us Hs] [uk Hk] Hab. unfold partnerOf, otherUserId.
  destruct Hab as [[Hsu ->]|[Hsk ->]].
  - rewrite Hk, Hs. by rewrite (bool_decide_eq_true_2 _ Hsu).
  - rewrite Hu, Hs. rewrite (bool_decide_eq_true_2 (u = u)) by done.
    rewrite andb_false_r. case_bool_decide; congruence.
Qed.

Lemma length_filter_snoc {A : Type} (P : A → Prop) `{!∀ x, Decision (P x)}
    (l : list A) (x : A) :
  length (filter P (l ++ [x]))
  = length (filter P l) + (if decide (P x) then 1 else 0).
Proof.
  rewrite filter_app, length_app. f_equal.
  rewrite filter_cons, filter_nil. by case_decide.
Qed.

Lemma filter_none {A : Type} (P : A → Prop) `{!∀ x, Decision (P x)}
    (l : list A) :
  (∀ x, x ∈ l → ¬ P x) → filter P l = [].
Proof.
  induction l as [|x l IH]; intros Hn; [done|].
  rewrite filter_cons_False by (apply Hn; by left).
  apply IH. intros y Hy. apply Hn. by right.
Qed.

(** What the map of [getConversations] holds after the messages [l]. *)
Lemma conversations_invariant (w : World) (u : ObjectId) (l : list Message) :
  let map := foldl (addToConversations w u) [] l in
  NoDup (fst <$> map)
  ∧ (∀ k, jsmap_get k map = None →
          ∀ m, m ∈ l → partnerOf w u m ≠ Some k)
  ∧ (∀ k c, jsmap_get k map = Some c →
       c_id c = k
       ∧ c_unreadCount c
         = length (filter (λ m, partnerOf w u m = Some k
                                ∧ receiver m = Some u ∧ isRead m = false) l)
       ∧ ∃ m, c_lastMessage c = Some m ∧ m ∈ l ∧ partnerOf w u m = Some k
              ∧ ∀ m', m' ∈ l → partnerOf w u m' = Some k →
                      (createdAt m' ≤ createdAt m)%Z).
Proof.
  induction l as [|m l IH] using rev_ind.
  { simpl. split_and!; [apply NoDup_nil_2|by intros k _ m ?%elem_of_nil|done]. }
  rewrite foldl_snoc. cbn zeta in *.
  set (map := foldl (addToConversations w u) [] l) in *.
  destruct IH as (Hnd & Hnone & Hsome).
  destruct (partnerOf w u m) as [k0|] eqn:Ep.
  2:{ rewrite partnerOf_None_add by done. split_and!; [done| |].
      - intros k Hk x [Hx| ->%list_elem_of_singleton]%elem_of_app.
        + by apply Hnone.
        + by rewrite Ep.
      - intros k c Hc. destruct (Hsome k c Hc) as (Hid & Hun & x & Hl & Hx & Hp & Hmax).
        split_and!; [done| |].
        + rewrite length_filter_snoc, Hun.
          rewrite decide_False; [lia|]. rewrite Ep. by intros [? _].
        + exists x. split_and!; [done|apply elem_of_app; by left|done|].
          intros m' [Hm'| ->%list_elem_of_singleton]%elem_of_app Hp';
            [by apply Hmax|congruence]. }
  destruct (partnerOf_Some_add w u map m k0 Ep) as [name ->].
  set (c0 := default (mkConversation k0 name None 0) (jsmap_get k0 map)).
  split_and!.
  - by apply NoDup_jsmap_set.
  - intros k Hk. destruct (decide (k0 = k)) as [->|Hne].
    { by rewrite jsmap_get_set in Hk. }
    rewrite jsmap_get_set_ne in Hk by done.
    intros x [Hx| ->%list_elem_of_singleton]%elem_of_app.
    + by apply Hnone.
    + congruence.
  - intros k c. destruct (decide (k0 = k)) as [<-|Hne].
    + rewrite jsmap_get_set. intros [= <-].
      assert (c_id c0 = k0
              ∧ c_unreadCount c0
                = length (filter (λ m, partnerOf w u m = Some k0
                                       ∧ receiver m = Some u
                                       ∧ isRead m = false) l)
              ∧ ∀ m', m' ∈ l → partnerOf w u m' = Some k0 →
                  ∃ x, c_lastMessage c0 = Some x ∧ x ∈ l
                       ∧ partnerOf w u x = Some k0
                       ∧ (createdAt m' ≤ createdAt x)%Z) as (Hid & Hun & Hlast).
      { subst c0. destruct (jsmap_get k0 map) as [c|] eqn:Eg; simpl.
        - destruct (Hsome k0 c Eg) as (? & ? & x & ? & ? & ? & Hmax).
          split_and!; [done|done|]. intros m' Hm' Hp'. exists x. auto.
        - split_and!; [done| |].
          + rewrite filter_none; [done|]. intros x Hx [Hp _].
            by apply (Hnone k0 Eg x Hx).
          + intros m' Hm' Hp'. by destruct (Hnone k0 Eg m' Hm'). }
      split_and!.
      * done.
      * rewrite length_filter_snoc. cbn [summarize c_unreadCount].
        rewrite Hun.
        destruct (decide (partnerOf w u m = Some k0 ∧ receiver m = Some u
                          ∧ isRead m = false)) as [(_ & Hr & Hread)|Hn].
        -- rewrite (bool_decide_eq_true_2 _ Hr), Hread. simpl. lia.
        -- case_bool_decide as Hr; simpl; [|lia].
           destruct (isRead m) eqn:Hread; simpl; [lia|].
           exfalso. apply Hn. done.
      * cbn [summarize c_lastMessage].
        destruct (c_lastMessage c0) as [x|] eqn:Ex.
        -- assert (x ∈ l ∧ partnerOf w u x = Some k0
                   ∧ ∀ m', m' ∈ l → partnerOf w u m' = Some k0 →
                           (createdAt m' ≤ createdAt x)%Z) as (Hx & Hpx & Hmax).
           { subst c0. destruct (jsmap_get k0 map) as [c|] eqn:Eg;
               simpl in Ex; [|done].
             destruct (Hsome k0 c Eg) as (_ & _ & y & Hy & ? & ? & ?).
             rewrite Hy in Ex. injection Ex as ->. done. }
           case_bool_decide as Hlt.
           ++ exists m. split_and!; [done|apply elem_of_app; right; by left|done|].
              intros m' [Hm'| ->%list_elem_of_singleton]%elem_of_app Hp'; [|lia].
              specialize (Hmax m' Hm' Hp'). lia.
           ++ exists x. split_and!; [done|apply elem_of_app; by left|done|].
              intros m' [Hm'| ->%list_elem_of_singleton]%elem_of_app Hp'; [|lia].
              by apply Hmax.
        -- exists m. split_and!; [done|apply elem_of_app; right; by left|done|].
           intros m' [Hm'| ->%list_elem_of_singleton]%elem_of_app Hp'; [|lia].
           destruct (Hlast m' Hm' Hp') as (x & Hx & _). congruence.
    + rewrite jsmap_get_set_ne by done. intros Hc.
      destruct (Hsome k c Hc) as (Hid & Hun & x & Hl & Hx & Hp & Hmax).
      split_and!; [done| |].
      * rewrite length_filter_snoc, Hun.
        rewrite decide_False; [lia|]. rewrite Ep. intros [? _]. congruence.
      * exists x. split_and!; [done|apply elem_of_app; by left|done|].
        intros m' [Hm'| ->%list_elem_of_singleton]%elem_of_app Hp';
          [by apply Hmax|congruence].
Qed.

Lemma filter_ext_in {A : Type} (P Q : A → Prop) `{!∀ x, Decision (P x)}
    `{!∀ x, Decision (Q x)} (l : list A) :
  (∀ x, x ∈ l → (P x ↔ Q x)) → filter P l = filter Q l.
Proof.
  induction l as [|x l IH]; intros Hext; [done|].
  rewrite !filter_cons.
  assert (P x ↔ Q x) as Hx by (apply Hext; by left).
  rewrite IH by (intros y Hy; apply Hext; by right).
  destruct (decide (P x)) as [HP|HP].
  - by rewrite decide_True by tauto.
  - by rewrite decide_False by tauto.
Qed.

Lemma insertConversation_perm (c : Conversation) (l : list Conversation) :
  insertConversation c l ≡ₚ c :: l.
Proof.
  induction l as [|d l IH]; simpl; [done|].
  case_bool_decide; [done|]. rewrite IH. apply Permutation_swap.
Qed.

Lemma sortConversations_perm (l : list Conversation) :
  sortConversations l ≡ₚ l.
Proof.
  unfold sortConversations. induction l as [|c l IH] using rev_ind; [done|].
  rewrite foldl_snoc, insertConversation_perm, IH.
  by rewrite Permutation_app_comm.
Qed.

Lemma descendingBy_insertConversation (c : Conversation)
    (l : list Conversation) :
  descendingBy lastTime l → descendingBy lastTime (insertConversation c l).
Proof.
  induction l as [|d l IH]; simpl; [done|]. intros [Hd Hl].
  case_bool_decide as Hlt; simpl.
  - split_and!; [|done|done]. constructor; [lia|].
    eapply Forall_impl; [exact Hd|]. simpl. intros; lia.
  - split; [|auto]. apply Forall_forall. intros x Hx.
    rewrite insertConversation_perm in Hx.
    apply elem_of_cons in Hx as [->|Hx]; [lia|].
    eapply Forall_forall in Hd; [|exact Hx]. exact Hd.
Qed.

Lemma descendingBy_sortConversations (l : list Conversation) :
  descendingBy lastTime (sortConversations l).
Proof.
  unfold sortConversations. induction l as [|c l IH] using rev_ind; [done|].
  rewrite foldl_snoc. by apply descendingBy_insertConversation.
Qed.

(** The conversations of an answer are the entries of the map. *)
Lemma elem_of_getConversations (w : World) (u : ObjectId)
    (cs : list Conversation) :
  getConversations w (Some u) = answer cs →
  (∀ m, m ∈ getConversations_find w u → is_Some (users w !! sender m))
  ∧ cs ≡ₚ filter (λ c, is_Some (c_lastMessage c))
            (jsmap_values
               (foldl (addToConversations w u) [] (getConversations_find w u)))
  ∧ ∀ c, c ∈ cs ↔
         ∃ k, jsmap_get k (foldl (addToConversations w u) []
                             (getConversations_find w u)) = Some c.
Proof.
  unfold getConversations. case_bool_decide as Hall; [|done].
  intros [= <-].
  destruct (conversations_invariant w u (getConversations_find w u))
    as (Hnd & _ & Hsome).
  cbn zeta in *.
  set (map := foldl (addToConversations w u) [] (getConversations_find w u))
    in *.
  split_and!.
  - intros m Hm. by eapply Forall_forall in Hall.
  - apply sortConversations_perm.
  - intros c. rewrite sortConversations_perm, list_elem_of_filter.
    unfold jsmap_values. rewrite list_elem_of_fmap. split.
    + intros (_ & [k c'] & -> & Hkc). exists k. by apply jsmap_elem_get.
    + intros [k Hk]. destruct (Hsome k c Hk) as (_ & _ & m & -> & _).
      split; [done|]. exists (k, c). split; [done|].
      by apply jsmap_get_Some_elem.
Qed.

(** The unread count that [getConversations] shows for a partner. *)
Lemma getConversations_unread (w : World) (u : ObjectId)
    (cs : list Conversation) (c : Conversation) :
  getConversations w (Some u) = answer cs →
  is_Some (users w !! u) → c ∈ cs →
  c_unreadCount c
  = length (filter (unreadFrom u (c_id c)) (getConversations_find w u)).
Proof.
  intros Hans Hu Hc.
  destruct (elem_of_getConversations _ _ _ Hans) as (Hsender & _ & Hin).
  destruct (conversations_invariant w u (getConversations_find w u))
    as (_ & _ & Hsome).
  apply Hin in Hc as [k Hk].
  destruct (Hsome k c Hk) as (Hid & Hun & m & _ & _ & Hp & _).
  rewrite Hid, Hun. destruct (partnerOf_Some _ _ _ _ Hp) as [Hku _].
  f_equal. apply filter_ext_in. intros x Hx. unfold unreadFrom. split.
  - intros (Hpx & Hr & Hread).
    destruct (partnerOf_Some _ _ _ _ Hpx) as [_ [[? ?]|[? ?]]];
      split_and!; congruence.
  - intros (Hs & Hr & Hread). split_and!; [|done|done].
    apply partnerOf_between; [done|by apply Hsender|done|by right].
Qed.

(** X13. What the conversation list shows. In an answer of
    [getConversations] to a user, every partner appears once, the
    conversation with the newest last message first. The unread count of
    a conversation is the number of messages that the partner sent to
    the user, that the user has neither read nor deleted on their own
    side. The last message is a stored message between the two that the
    user has not deleted on their own side, and no such message is
    newer. Every partner with such a message, whose user document
    exists, has a conversation in the list. *)
Theorem getConversations_answer (w : World) (u : ObjectId)
    (cs : list Conversation) :
  getConversations w (Some u) = answer cs →
  is_Some (users w !! u) →
  NoDup (c_id <$> cs)
  ∧ descendingBy lastTime cs
  ∧ (∀ c, c ∈ cs →
       c_unreadCount c
       = length (filter (unreadFrom u (c_id c)) (getConversations_find w u))
       ∧ ∃ m, c_lastMessage c = Some m
              ∧ m ∈ messages w ∧ inConversationsOf u m
              ∧ ((sender m = u ∧ receiver m = Some (c_id c))
                 ∨ (sender m = c_id c ∧ receiver m = Some u))
              ∧ ∀ m', m' ∈ messages w → inConversationsOf u m' →
                      (sender m' = u ∧ receiver m' = Some (c_id c))
                      ∨ (sender m' = c_id c ∧ receiver m' = Some u) →
                      (createdAt m' ≤ createdAt m)%Z)
  ∧ (∀ m k, m ∈ messages w → inConversationsOf u m →
            is_Some (users w !! k) →
            (sender m = u ∧ receiver m = Some k)
            ∨ (sender m = k ∧ receiver m = Some u) →
            k ∈ c_id <$> cs).
Proof.
  intros Hans Hu.
  destruct (elem_of_getConversations _ _ _ Hans) as (Hsender & Hperm & Hin).
  destruct (conversations_invariant w u (getConversations_find w u))
    as (Hnd & Hnone & Hsome).
  cbn zeta in *.
  set (found := getConversations_find w u) in *.
  set (map := foldl (addToConversations w u) [] found) in *.
  split_and!.
  - rewrite Hperm.
    eapply sublist_NoDup; [|apply fmap_sublist, sublist_filter].
    replace (c_id <$> jsmap_values map) with (fst <$> map); [done|].
    unfold jsmap_values. rewrite <- list_fmap_compose.
    apply list_fmap_ext. intros i [k c] Hkc. simpl. symmetry.
    apply (Hsome k c). apply jsmap_elem_get; [done|].
    by eapply list_elem_of_lookup_2.
  - revert Hans. unfold getConversations. case_bool_decide; [|done].
    intros [= <-]. apply descendingBy_sortConversations.
  - intros c Hc. split; [by apply (getConversations_unread w u cs)|].
    apply Hin in Hc as [k Hk].
    destruct (Hsome k c Hk) as (Hid & _ & m & Hlast & Hm & Hp & Hmax).
    rewrite Hid. destruct (partnerOf_Some _ _ _ _ Hp) as [Hku Hab].
    exists m. apply elem_of_getConversations_find in Hm as [Hconv Hstore].
    split_and!; [done|done|done|done|].
    intros m' Hm' Hconv' Hab'. apply Hmax.
    + by apply elem_of_getConversations_find.
    + apply partnerOf_between; [done| |done|done].
      apply Hsender. by apply elem_of_getConversations_find.
  - intros m k Hm Hconv Hk Hab.
    assert (m ∈ found) as Hf by by apply elem_of_getConversations_find.
    assert (partnerOf w u m = Some k) as Hp
      by (apply partnerOf_between; auto).
    destruct (jsmap_get k map) as [c|] eqn:Eg.
    + apply list_elem_of_fmap. exists c. split.
      * symmetry. by apply (Hsome k c).
      * apply Hin. by exists k.
    + by destruct (Hnone k Eg m Hf).
Qed.

Lemma getConversations_answer_witness :
  ∃ cs, getConversations afterHi (Some bob) = answer cs
        ∧ is_Some (users afterHi !! bob)
        ∧ NoDup (c_id <$> cs).
Proof.
  destruct (getConversations afterHi (Some bob)) as [cs|st msg] eqn:E.
  2:{ vm_compute in E. discriminate E. }
  assert (is_Some (users afterHi !! bob)) as Hu
    by (apply (bool_decide_unpack _); vm_compute; exact I).
  exists cs. split; [reflexivity|]. split; [exact Hu|].
  destruct (getConversations_answer afterHi bob cs E Hu) as [Hnd _].
  exact Hnd.
Defined.

(** ** Marking a conversation read *)

Lemma getConversations_find_markRead (w : World) (u k : ObjectId) :
  getConversations_find (set_messages (markRead k u (messages w)) w) u
  = (λ d, if bool_decide (sender d = k ∧ receiver d = Some u
                          ∧ isRead d = false)
          then set_isRead true d else d) <$> getConversations_find w u.
Proof.
  unfold getConversations_find, markRead. cbn [messages set_messages].
  rewrite filter_fmap_stable.
  - apply sortByCreatedAt_fmap. intros d.
    case_bool_decide; [by destruct d|done].
  - intros d _. unfold inConversationsOf. cbn beta.
    case_bool_decide; [by destruct d|done].
Qed.

Lemma markRead_idemp (a b : ObjectId) (store : list Message) :
  markRead a b (markRead a b store) = markRead a b store
  ∧ ∀ x, x ∈ markRead a b store →
         ¬ (sender x = a ∧ receiver x = Some b ∧ isRead x = false).
Proof.
  unfold markRead. split.
  - rewrite <- list_fmap_compose. apply list_fmap_ext. intros i d _.
    cbn [compose]. case_bool_decide as Hd.
    + case_bool_decide as Hd2; [|done]. destruct Hd2 as (_ & _ & Hr).
      by destruct d.
    + by case_bool_decide.
  - intros x (d & -> & _)%list_elem_of_fmap.
    case_bool_decide as Hd; [|done]. intros (_ & _ & Hr). by destruct d.
Qed.

(** X14. Marking a conversation read clears its badge and no other. After
    [markMessagesAsRead] for a sender, the conversation list of the
    reader shows the unread count 0 for that sender and the counts it
    showed before for everybody else; a second call modifies nothing and
    answers the count 0; and the socket handler leaves the same world. *)
Theorem markMessagesAsRead_clears_badge (w : World) (u k : ObjectId)
    (cs : list Conversation) :
  is_Some (users w !! u) →
  let w' := (markMessagesAsRead w (Some u) k).1 in
  getConversations w' (Some u) = answer cs →
  (∀ c, c ∈ cs → c_id c = k → c_unreadCount c = 0)
  ∧ (∀ cs0 c0 c, getConversations w (Some u) = answer cs0 →
       c0 ∈ cs0 → c ∈ cs → c_id c0 = c_id c → c_id c ≠ k →
       c_unreadCount c = c_unreadCount c0)
  ∧ markMessagesAsRead w' (Some u) k = (w', mkResponse 200 (j_modified 0))
  ∧ (∀ socket, s_userId socket = u →
       (handleMarkMessagesAsRead w socket k).1 = w').
Proof.
  intros Hu w' Hans.
  assert (w' = set_messages (markRead k u (messages w)) w) as Hw' by done.
  clearbody w'. subst w'.
  set (g := λ d, if bool_decide (sender d = k ∧ receiver d = Some u
                                 ∧ isRead d = false)
                 then set_isRead true d else d).
  pose proof (getConversations_find_markRead w u k) as Hfind. fold g in Hfind.
  split_and!.
  - intros c Hc Hk. rewrite (getConversations_unread _ _ _ _ Hans Hu Hc).
    rewrite Hfind, Hk.
    rewrite filter_none; [done|].
    intros x (d & -> & _)%list_elem_of_fmap. unfold unreadFrom. subst g.
    simpl. case_bool_decide as Hd; [|done].
    intros (_ & _ & Hr). by destruct d.
  - intros cs0 c0 c Hans0 Hc0 Hc Hid Hne.
    rewrite (getConversations_unread _ _ _ _ Hans Hu Hc).
    rewrite (getConversations_unread _ _ _ _ Hans0 Hu Hc0).
    rewrite Hfind, Hid. rewrite filter_fmap_stable; [by rewrite length_fmap|].
    intros d _. unfold unreadFrom. subst g. simpl.
    case_bool_decide as Hd; [|done].
    destruct Hd as (Hs & _).
    destruct d; simpl in *; split; intros (? & _); congruence.
  - unfold markMessagesAsRead. cbn [messages set_messages].
    destruct (markRead_idemp k u (messages w)) as [-> Hnone].
    by rewrite filter_none.
  - intros socket <-. done.
Qed.

Lemma markMessagesAsRead_clears_badge_witness :
  is_Some (users afterHi !! bob)
  ∧ ∃ cs, getConversations (markMessagesAsRead afterHi (Some bob) alice).1
            (Some bob) = answer cs
          ∧ ∀ c, c ∈ cs → c_id c = alice → c_unreadCount c = 0.
Proof.
  assert (is_Some (users afterHi !! bob)) as Hu
    by (apply (bool_decide_unpack _); vm_compute; exact I).
  split; [exact Hu|].
  destruct (getConversations (markMessagesAsRead afterHi (Some bob) alice).1
              (Some bob)) as [cs|st msg] eqn:E.
  2:{ vm_compute in E. discriminate E. }
  exists cs. split; [reflexivity|].
  destruct (markMessagesAsRead_clears_badge afterHi bob alice cs Hu E)
    as [Hzero _].
  exact Hzero.
Defined.

(** ** The presence registry *)

Lemma findOnline_jsmap_get (w : World) (u : ObjectId) :
  Forall (λ e, o_userId e.2 = e.1) (onlineUsers w) →
  findOnline u w = jsmap_get u (onlineUsers w).
Proof.
  unfold findOnline, jsmap_values. generalize (onlineUsers w). intros m Hm.
  induction Hm as [|[k o] m Hk Hm IH]; [done|].
  rewrite jsmap_get_cons, fmap_cons. simpl in *. subst k.
  case_decide; [done|].
  rewrite <- IH. by destruct (list_find _ (snd <$> m)) as [[i x]|].
Qed.

Lemma elem_of_jsmap_set {V : Type} (k : ObjectId) (v : V)
    (m : list (ObjectId * V)) (e : ObjectId * V) :
  e ∈ jsmap_set k v m → e = (k, v) ∨ e ∈ m.
Proof.
  induction m as [|[k0 v0] m IH]; cbn [jsmap_set].
  - intros ->%list_elem_of_singleton. by left.
  - case_bool_decide.
    + rewrite !elem_of_cons. intros [->|?]; auto.
    + rewrite !elem_of_cons. intros [->|?]; [auto|]. destruct IH; auto.
Qed.

Lemma registryOk_set (w : World) (socket : CustomSocket) :
  registryOk w → registryOk (handleSocketConnection w socket).1.
Proof.
  intros [Hnd Hall]. unfold registryOk, handleSocketConnection.
  cbn [fst onlineUsers set_onlineUsers set_sockets]. split.
  - by apply NoDup_jsmap_set.
  - apply Forall_forall. intros e [->|He]%elem_of_jsmap_set; [done|].
    by eapply Forall_forall in Hall.
Qed.

Lemma registryOk_delete (w : World) (socket : CustomSocket) :
  registryOk w → registryOk (handleDisconnect w socket).1.
Proof.
  intros [Hnd Hall]. unfold registryOk, handleDisconnect, jsmap_delete.
  cbn [fst onlineUsers set_onlineUsers set_sockets set_userRooms]. split.
  - eapply sublist_NoDup; [exact Hnd|]. apply fmap_sublist, sublist_filter.
  - apply Forall_forall. intros e [_ He]%list_elem_of_filter.
    by eapply Forall_forall in Hall.
Qed.

Ltac same_registry :=
  repeat case_match; simpl in *; simplify_eq; done.

Lemma perform_registryOk (a : Action) (w : World) :
  registryOk w → registryOk (perform a w).
Proof.
  intros Hok.
  destruct a; try (by apply registryOk_set); try (by apply registryOk_delete);
    unfold registryOk in *; simpl.
  - unfold handleSendMessage. same_registry.
  - unfold handleSendGroupMessage. same_registry.
  - unfold sendMessage. same_registry.
  - unfold saveSystemMessage. same_registry.
  - unfold handleEditMessage. same_registry.
  - unfold editMessage. same_registry.
  - unfold handleDeleteMessageForMe, handleGroupMessageDeleteForMe,
      handleNormalMessageDeleteForMe. same_registry.
  - unfold deleteMessageForMe. same_registry.
  - unfold handleDeleteMessageForEveryone, handleGroupMessageDeleteForEveryone,
      handleNormalMessageDeleteForEveryone. same_registry.
  - unfold deleteMessageForEveryone. same_registry.
  - unfold handleMarkMessagesAsRead. same_registry.
  - unfold markMessagesAsRead. same_registry.
  - unfold handleMarkGroupMessagesAsRead. same_registry.
  - unfold markGroupMessagesAsRead. same_registry.
  - done.
  - done.
  - unfold handleJoinGroupChat. same_registry.
  - unfold handleLeaveGroupChat. same_registry.
Qed.

(** X15. A user has at most one presence entry. In every world reached
    from one whose registry files each entry once and under the user it
    names, the registry still does; so the scan by user id that the
    handlers use finds the entry filed under the user, and this entry is
    the only one that names the user. *)
Theorem run_registryOk (actions : list Action) (w : World) :
  registryOk w →
  let w' := run actions w in
  registryOk w'
  ∧ ∀ u, findOnline u w' = jsmap_get u (onlineUsers w')
         ∧ length (filter (λ o, o_userId o = u) (jsmap_values (onlineUsers w')))
           ≤ 1.
Proof.
  intros Hok w'.
  assert (registryOk w') as Hok'.
  { subst w'. revert w Hok.
    induction actions as [|a actions IH]; intros w Hok; [exact Hok|].
    simpl. apply IH. by apply perform_registryOk. }
  split; [done|]. destruct Hok' as [Hnd Hall]. intros u. split.
  - by apply findOnline_jsmap_get.
  - unfold jsmap_values. revert Hnd Hall. generalize (onlineUsers w').
    intros m Hnd Hall.
    induction Hall as [|[k o] m Hk Hall IH]; [simpl; lia|].
    rewrite fmap_cons in Hnd. apply NoDup_cons in Hnd as [Hnotin Hnd].
    rewrite fmap_cons, filter_cons. simpl in *. subst k.
    case_decide as Hu; [|auto].
    rewrite filter_none; [simpl; lia|].
    intros x (e & -> & He)%list_elem_of_fmap Hx. apply Hnotin.
    apply list_elem_of_fmap. exists e. split; [|done].
    eapply Forall_forall in Hall; [|exact He]. simpl in Hall. congruence.
Qed.

Lemma run_registryOk_witness :
  registryOk friendly ∧ registryOk (run [Connect aliceSocket2] friendly).
Proof.
  assert (registryOk friendly) as Hok.
  { split.
    - apply (bool_decide_unpack _). vm_compute. exact I.
    - repeat constructor. }
  split; [exact Hok|].
  destruct (run_registryOk [Connect aliceSocket2] friendly Hok) as [H _].
  exact H.
Defined.

(** ** Presence and blocking *)

(** X16. The two presence functions agree. A change of presence of a
    user is announced, in the order of the registry, to the live sockets
    of exactly the other users that [getFilteredOnlineUsers] shows to
    this user; and two users whose documents exist are shown to each
    other or hidden from each other together: a block in either
    direction hides both. *)
Theorem presence_agrees (w : World) (a : ObjectId) (name : string)
    (isOnline : bool) (ua : User) :
  users w !! a = Some ua →
  notifyUserOnlineStatus w a name isOnline
  = (λ o, emitTo (o_socketId o) (if isOnline then userOnline else userOffline)
                 (presence a name))
    <$> filter (λ o, o_userId o ≠ a ∧ is_Some (sockets w !! o_socketId o))
               (getFilteredOnlineUsers w a (jsmap_values (onlineUsers w)))
  ∧ ∀ (b : ObjectId) (ub : User) (oa ob : OnlineUser),
      users w !! b = Some ub → o_userId oa = a → o_userId ob = b →
      shownOnline w a ua ob = shownOnline w b ub oa
      ∧ (a ≠ b →
         shownOnline w a ua ob
         = negb (hasBlocked (users w !! a) b) && negb (hasBlocked (users w !! b) a)).
Proof.
  intros Hua. split.
  - unfold notifyUserOnlineStatus, getFilteredOnlineUsers. rewrite Hua.
    induction (jsmap_values (onlineUsers w)) as [|o l IH]; [done|].
    cbn [omap list_omap]. case_bool_decide as Ho.
    { assert (shownOnline w a ua o = true) as Hs
        by (unfold shownOnline; by rewrite bool_decide_eq_true_2).
      rewrite filter_cons_True by exact Hs.
      rewrite filter_cons_False by tauto. exact IH. }
    destruct (users w !! o_userId o) as [uo|] eqn:Euo.
    2:{ rewrite filter_cons_False; [exact IH|].
        unfold shownOnline. rewrite Euo.
        by rewrite bool_decide_eq_false_2. }
    destruct (negb (bool_decide (a ∈ blockedUsers uo))
              && negb (bool_decide (o_userId o ∈ blockedUsers ua))) eqn:Eb.
    2:{ rewrite filter_cons_False; [exact IH|].
        unfold shownOnline. rewrite Euo.
        rewrite bool_decide_eq_false_2 by done.
        rewrite andb_comm, Eb. done. }
    assert (shownOnline w a ua o = true) as Hs.
    { unfold shownOnline. rewrite Euo.
      rewrite bool_decide_eq_false_2 by done. by rewrite andb_comm. }
    rewrite filter_cons_True by exact Hs.
    destruct (sockets w !! o_socketId o) as [s|] eqn:Es.
    + rewrite filter_cons_True by (split; [done|by rewrite Es]).
      rewrite fmap_cons. f_equal. exact IH.
    + rewrite filter_cons_False; [exact IH|].
      intros [_ Hs']. rewrite Es in Hs'. by destruct Hs'.
  - intros b ub oa ob Hub Hoa Hob. unfold shownOnline.
    rewrite Hoa, Hob, Hua, Hub. simpl.
    destruct (decide (a = b)) as [->|Hne].
    + rewrite !bool_decide_eq_true_2 by done. done.
    + rewrite (bool_decide_eq_false_2 (b = a)) by done.
      rewrite (bool_decide_eq_false_2 (a = b)) by done.
      split; [|done].
      by rewrite andb_comm.
Qed.

Lemma presence_agrees_witness :
  users bobBlocksAlice !! alice = Some (mkUser "alice" [])
  ∧ notifyUserOnlineStatus bobBlocksAlice alice "alice" true
    = [emitTo 13%N userOnline (presence alice "alice")].
Proof.
  assert (users bobBlocksAlice !! alice = Some (mkUser "alice" [])) as Hu
    by (vm_compute; reflexivity).
  split; [exact Hu|].
  destruct (presence_agrees bobBlocksAlice alice "alice" true _ Hu) as [-> _].
  vm_compute. reflexivity.
Defined.

(** ** Editing what was deleted for everyone *)

Lemma replaceDoc_ids (m' : Message) (store : list Message) :
  _id <$> replaceDoc m' store = _id <$> store.
Proof.
  unfold replaceDoc. rewrite <- list_fmap_compose. apply list_fmap_ext.
  intros i d _. simpl. by case_bool_decide.
Qed.

(** X17. A message deleted for everyone can still be edited. When the
    sender deletes a text message of theirs for everyone over the socket
    and then edits it, both within 12 hours of sending, the edit is
    accepted: the stored text is the new text instead of the fixed
    "This message was deleted", while the message still carries the
    deletion flag and the date of the deletion. *)
Theorem edit_after_delete_for_everyone (w : World) (socket : CustomSocket)
    (id : ObjectId) (t1 t2 : Date) (newText : JsString) (m : Message) :
  uniqueIds (messages w) → storeOk w →
  findById id (messages w) = Some m →
  sender m = s_userId socket → messageType m = text_t →
  (messageAge t1 m ≤ twelveHoursInMs)%Z →
  (messageAge t2 m ≤ twelveHoursInMs)%Z →
  length (trim newText) ≤ maxlength →
  let w1 := (handleDeleteMessageForEveryone w socket id t1).1 in
  let w2 := (handleEditMessage w1 socket id newText t2).1 in
  ∃ m1 m2,
    findById id (messages w1) = Some m1
    ∧ text m1 = Some tombstone ∧ deletedForEveryone m1 = true
    ∧ findById id (messages w2) = Some m2
    ∧ text m2 = Some (trim newText)
    ∧ deletedForEveryone m2 = true ∧ deletedAt m2 = Some t1.
Proof.
  intros Hnd Hok Hfind Hs Hty Hage1 Hage2 Hlen w1 w2.
  destruct (findById_Some _ _ _ Hfind) as [Hin Hid].
  assert (exactlyOne m) as Hone.
  { unfold storeOk in Hok. by eapply Forall_forall in Hok. }
  assert (findOneByIdAndSender id (s_userId socket) (messages w) = Some m)
    as Hone'.
  { by apply findOne_findById. }
  set (d1 := withDefaults (tombstoned t1 m)).
  assert (messages w1 = replaceDoc d1 (messages w)) as Hw1.
  { apply handleDeleteMessageForEveryone_store; [done|done|].
    by apply preValidate_exactlyOne. }
  assert (storeOk w1) as Hok1.
  { exact (perform_storeOk (SocketDeleteForEveryone socket id t1) w Hok). }
  assert (uniqueIds (messages w1)) as Hnd1.
  { unfold uniqueIds. by rewrite Hw1, replaceDoc_ids. }
  assert (_id d1 = id) as Hid1 by by destruct m.
  assert (findById id (messages w1) = Some d1) as Hfind1.
  { rewrite Hw1, <- Hid1. apply (findById_replaceDoc _ m).
    by rewrite Hid1. }
  clearbody w1.
  destruct (handleEditMessage_spec w1 socket id newText t2 Hnd1 Hok1)
    as (Hyes & _).
  destruct Hyes as (m1 & Hm1 & Hout).
  { exists d1. split_and!; [done| | | |done].
    - by destruct m.
    - by destruct m.
    - unfold messageAge in *. by destruct m. }
  assert (m1 = d1) as -> by congruence.
  exists d1, (withDefaults (edited newText t2 d1)).
  split_and!; [done|by destruct m|by destruct m| |by destruct m..].
  subst w2. rewrite Hout. cbn [fst messages set_messages].
  assert (_id (withDefaults (edited newText t2 d1)) = id) as Hid2
    by by destruct m.
  rewrite <- Hid2 at 1. apply (findById_replaceDoc _ d1).
  by rewrite Hid2.
Qed.

Lemma edit_after_delete_for_everyone_witness :
  ∃ m2,
    findById 100%N
      (messages
         (handleEditMessage
            (handleDeleteMessageForEveryone afterHi aliceSocket 100%N
               (noon + 1000)%Z).1
            aliceSocket 100%N (js "hi again") (noon + 2000)%Z).1)
    = Some m2
    ∧ text m2 = Some (js "hi again") ∧ deletedForEveryone m2 = true.
Proof.
  destruct (findById 100%N (messages afterHi)) as [m|] eqn:E.
  2:{ vm_compute in E. discriminate E. }
  assert (uniqueIds (messages afterHi)) as Hnd
    by (apply (bool_decide_unpack _); vm_compute; exact I).
  assert (storeOk afterHi) as Hok
    by (apply (bool_decide_unpack _); vm_compute; exact I).
  assert (sender m = s_userId aliceSocket) as Hs
    by (vm_compute in E; injection E as <-; reflexivity).
  assert (messageType m = text_t) as Hty
    by (vm_compute in E; injection E as <-; reflexivity).
  assert (messageAge (noon + 1000) m ≤ twelveHoursInMs)%Z as H1
    by (vm_compute in E; injection E as <-; vm_compute; discriminate).
  assert (messageAge (noon + 2000) m ≤ twelveHoursInMs)%Z as H2
    by (vm_compute in E; injection E as <-; vm_compute; discriminate).
  assert (length (trim (js "hi again")) ≤ maxlength) as Hlen
    by (vm_compute; lia).
  destruct (edit_after_delete_for_everyone afterHi aliceSocket 100%N
              (noon + 1000)%Z (noon + 2000)%Z (js "hi again") m
              Hnd Hok E Hs Hty H1 H2 Hlen)
    as (m1 & m2 & _ & _ & _ & Hf & Ht & Hd & _).
  exists m2. split; [exact Hf|]. split; [|exact Hd].
  rewrite Ht. vm_compute. reflexivity.
Defined.

(** ** Sending into a group and the unread counts *)



(** ** Who may rewrite a message *)

Lemma findOne_other (store : list Message) (id u : ObjectId) (m : Message) :
  uniqueIds store → findById id store = Some m → sender m ≠ u →
  findOneByIdAndSender id u store = None.
Proof.
  intros Hnd Hfind Hne.
  destruct (findOneByIdAndSender id u store) as [m'|] eqn:E; [|done].
  apply findOne_findById in E as [E Hs]; [|done]. congruence.
Qed.

(** X19. Only the sender rewrites a message. For a stored message and a
    user who did not send it, an edit and a deletion for everyone are
    refused over both interfaces, with 404 over HTTP, and leave the
    world as it was; and a deletion on one's own side by a user who is
    neither the sender nor the receiver nor a member of the group of
    the message is refused as well. *)
Theorem only_the_sender_rewrites (w : World) (socket : CustomSocket)
    (id : ObjectId) (m : Message) (newText : JsString) (now : Date) :
  uniqueIds (messages w) →
  findById id (messages w) = Some m →
  sender m ≠ s_userId socket →
  let u := s_userId socket in
  (handleEditMessage w socket id newText now).1 = w
  ∧ (handleDeleteMessageForEveryone w socket id now).1 = w
  ∧ (editMessage w (Some u) (Some id) (Some newText) now).1 = w
  ∧ status (editMessage w (Some u) (Some id) (Some newText) now).2 ≠ 200
  ∧ deleteMessageForEveryone w (Some u) (Some id) now
    = (w, mkResponse 404
            (j_message
               "Message not found or you don't have permission to delete it"))
  ∧ (receiver m ≠ Some u →
     (∀ g, group m = Some g → findActiveGroupOfMember g u w = None) →
     (handleDeleteMessageForMe w socket id now).1 = w
     ∧ deleteMessageForMe w (Some u) (Some id) now
       = (w, mkResponse 403
               (j_message "You don't have permission to delete this message"))).
Proof.
  intros Hnd Hfind Hne u. subst u.
  pose proof (findOne_other _ _ _ _ Hnd Hfind Hne) as Hnone.
  split_and!.
  - unfold handleEditMessage. by rewrite Hnone.
  - unfold handleDeleteMessageForEveryone. by rewrite Hnone.
  - unfold editMessage. rewrite Hnone. by destruct (blankAfterTrim _).
  - unfold editMessage. rewrite Hnone. by destruct (blankAfterTrim _).
  - unfold deleteMessageForEveryone. by rewrite Hnone.
  - intros Hr Hg. split.
    + unfold handleDeleteMessageForMe. rewrite Hfind.
      destruct (group m) as [g|] eqn:Eg.
      * unfold handleGroupMessageDeleteForMe. by rewrite (Hg g eq_refl).
      * unfold handleNormalMessageDeleteForMe.
        rewrite (bool_decide_eq_false_2 _ Hne).
        by rewrite (bool_decide_eq_false_2 _ Hr).
    + unfold deleteMessageForMe. rewrite Hfind.
      rewrite (bool_decide_eq_false_2 _ Hne).
      rewrite (bool_decide_eq_false_2 _ Hr).
      destruct (group m) as [g|] eqn:Eg; [|done].
      rewrite (Hg g eq_refl).
      by rewrite (bool_decide_eq_false_2 (is_Some None)) by by intros [? ?].
Qed.

Lemma only_the_sender_rewrites_witness :
  (handleEditMessage afterHi bobSocket 100%N (js "hacked") (noon + 1)%Z).1
  = afterHi
  ∧ (handleDeleteMessageForEveryone afterHi bobSocket 100%N (noon + 1)%Z).1
    = afterHi.
Proof.
  destruct (findById 100%N (messages afterHi)) as [m|] eqn:E.
  2:{ vm_compute in E. discriminate E. }
  assert (uniqueIds (messages afterHi)) as Hnd
    by (apply (bool_decide_unpack _); vm_compute; exact I).
  assert (sender m ≠ s_userId bobSocket) as Hne
    by (vm_compute in E; injection E as <-; discriminate).
  destruct (only_the_sender_rewrites afterHi bobSocket 100%N m (js "hacked")
              (noon + 1)%Z Hnd E Hne) as (H1 & H2 & _).
  split; [exact H1|exact H2].
Defined.

(** ** Opening and closing a chat *)

Lemma filter_ne_id {A : Type} `{EqDecision A} (x : A) (l : list A) :
  x ∉ l → filter (λ y, y ≠ x) l = l.
Proof.
  induction l as [|y l IH]; [done|]. intros [Hy Hl]%not_elem_of_cons.
  rewrite filter_cons_True by done. by rewrite IH.
Qed.

Lemma filter_ne_snoc {A : Type} `{EqDecision A} (x : A) (l : list A) :
  x ∉ l → filter (λ y, y ≠ x) (l ++ [x]) = l.
Proof.
  intros Hx. rewrite filter_app, filter_ne_id by done.
  rewrite filter_cons_False by (intros H; by apply H).
  by rewrite filter_nil, app_nil_r.
Qed.

(** X20. Read-on-send follows the rooms of the registered connection.
    For a live socket of a user who has a presence entry: when the entry
    records this socket, [joinChat] makes the user a viewer of the chat
    with the other party and [leaveChat] ends it; when the entry records
    another socket of the user, neither changes whether the user counts
    as a viewer. Joining twice is joining once, and leaving a chat that
    the socket had not joined before undoes the join exactly. *)
Theorem chat_rooms_and_viewing (w : World) (socket : CustomSocket)
    (other : ObjectId) (entry : OnlineUser) (conn : CustomSocket) :
  findOnline (s_userId socket) w = Some entry →
  sockets w !! s_id socket = Some conn →
  let u := s_userId socket in
  (o_socketId entry = s_id socket →
   receiverViewing (handleJoinChat w socket other) other u = true
   ∧ receiverViewing (handleLeaveChat w socket other) other u = false)
  ∧ (o_socketId entry ≠ s_id socket →
     receiverViewing (handleJoinChat w socket other) other u
     = receiverViewing w other u
     ∧ receiverViewing (handleLeaveChat w socket other) other u
       = receiverViewing w other u)
  ∧ handleJoinChat (handleJoinChat w socket other) socket other
    = handleJoinChat w socket other
  ∧ (chatRoomOf u other ∉ s_rooms conn →
     handleLeaveChat (handleJoinChat w socket other) socket other = w).
Proof.
  intros Hon Hconn u. subst u.
  assert (∀ f, findOnline (s_userId socket)
                 (set_sockets (alter f (s_id socket) (sockets w)) w)
               = Some entry) as Hon' by (intros f; exact Hon).
  split_and!.
  - intros Hid. split.
    + apply receiverViewing_spec.
      apply (handleJoinChat_viewing w socket other entry); [done|done|].
      by rewrite Hconn.
    + unfold receiverViewing, handleLeaveChat. rewrite Hon', Hid.
      cbn [sockets set_sockets]. rewrite lookup_alter_eq, Hconn.
      cbn [fmap option_fmap option_map]. apply bool_decide_eq_false.
      unfold leaveRoom. cbn [s_rooms].
      rewrite (chatRoomOf_comm other).
      intros [H _]%list_elem_of_filter. by apply H.
  - intros Hid. unfold receiverViewing, handleJoinChat, handleLeaveChat.
    rewrite !Hon', Hon. cbn [sockets set_sockets].
    by rewrite !lookup_alter_ne by done.
  - unfold handleJoinChat. cbn [sockets set_sockets].
    apply world_eq; try done. cbn [sockets set_sockets].
    apply map_eq. intros i. destruct (decide (i = s_id socket)) as [->|Hi].
    + rewrite !lookup_alter_eq, Hconn. cbn [fmap option_fmap option_map].
      f_equal. unfold joinRoom. cbn [s_rooms s_id s_userId s_username].
      f_equal. case_bool_decide as Hin; [reflexivity|].
      exfalso. apply Hin. case_bool_decide; [done|].
      apply elem_of_app. right. by left.
    + by rewrite !lookup_alter_ne.
  - intros Hnew. unfold handleLeaveChat, handleJoinChat.
    cbn [sockets set_sockets]. apply world_eq; try done.
    cbn [sockets set_sockets].
    apply map_eq. intros i. destruct (decide (i = s_id socket)) as [->|Hi].
    + rewrite !lookup_alter_eq, Hconn. cbn [fmap option_fmap option_map].
      f_equal. unfold leaveRoom, joinRoom.
      cbn [s_rooms s_id s_userId s_username].
      rewrite bool_decide_eq_false_2 by done.
      rewrite filter_ne_snoc by done. by destruct conn.
    + by rewrite !lookup_alter_ne.
Qed.

Lemma chat_rooms_and_viewing_witness :
  receiverViewing (handleLeaveChat bobViewing bobSocket alice) alice bob = false
  ∧ handleLeaveChat (handleJoinChat friendly bobSocket alice) bobSocket alice
    = friendly.
Proof.
  split.
  - destruct (findOnline (s_userId bobSocket) bobViewing) as [entry|] eqn:E.
    2:{ vm_compute in E. discriminate E. }
    destruct (sockets bobViewing !! s_id bobSocket) as [conn|] eqn:Ec.
    2:{ vm_compute in Ec. discriminate Ec. }
    destruct (chat_rooms_and_viewing bobViewing bobSocket alice entry conn E Ec)
      as [Hreg _].
    apply Hreg. vm_compute in E. injection E as <-. reflexivity.
  - destruct (findOnline (s_userId bobSocket) friendly) as [entry|] eqn:E.
    2:{ vm_compute in E. discriminate E. }
    destruct (sockets friendly !! s_id bobSocket) as [conn|] eqn:Ec.
    2:{ vm_compute in Ec. discriminate Ec. }
    destruct (chat_rooms_and_viewing friendly bobSocket alice entry conn E Ec)
      as (_ & _ & _ & Hundo).
    apply Hundo. vm_compute in Ec. injection Ec as <-. apply not_elem_of_nil.
Defined.

(** ** Sending over HTTP *)

(** X21. What 201 means. When [sendMessage] answers 201, the store has
    grown by exactly the message in the answer: a direct message from
    the caller to the receiver named in the request, dated now, unread
    whether or not the receiver is viewing the chat; neither of the two
    has blocked the other; a text message carries the trimmed text,
    which is not empty and fits the schema, and an image or a video
    carries the data of the request, which starts with [data:image/] or
    [data:video/]. With any other answer the store is as it was. *)
Theorem sendMessage_created (w : World) (u : ObjectId) (body : SendBody)
    (now : Date) :
  let reply := sendMessage w (Some u) body now in
  (status reply.2 = 201 →
   ∃ rcv ty m,
     b_receiverId body = Some rcv ∧ b_messageType body = Some ty
     ∧ json reply.2 = j_doc m
     ∧ messages reply.1 = messages w ++ [m]
     ∧ _id m = nextObjectId w ∧ sender m = u ∧ receiver m = Some rcv
     ∧ group m = None ∧ isRead m = false ∧ createdAt m = now
     ∧ messageType m = kindOf ty
     ∧ hasBlocked (users w !! rcv) u = false
     ∧ hasBlocked (users w !! u) rcv = false
     ∧ match ty with
       | c_text =>
           ∃ t, b_text body = Some t ∧ trim t ≠ []
                ∧ text m = Some (trim t) ∧ length (trim t) ≤ maxlength
       | c_image =>
           ∃ d, b_imageData body = Some d
                ∧ startsWith (js "data:image/") d = true
                ∧ imageUrl m = Some d
       | c_video =>
           ∃ d, b_videoData body = Some d
                ∧ startsWith (js "data:video/") d = true
                ∧ videoUrl m = Some d
       end)
  ∧ (status reply.2 ≠ 201 → messages reply.1 = messages w).
Proof.
  intros reply. subst reply. unfold sendMessage.
  destruct (b_receiverId body) as [rcv|]; [|by split].
  destruct (b_messageType body) as [ty|]; [|by split].
  destruct (match ty with c_text => blankAfterTrim (b_text body) | _ => false end)
    eqn:E1; [by split|].
  destruct (match ty with c_image => blank (b_imageData body) | _ => false end)
    eqn:E2; [by split|].
  destruct (match ty with c_video => blank (b_videoData body) | _ => false end)
    eqn:E3; [by split|].
  destruct (match ty with
            | c_image => negb (startsWith (js "data:image/")
                                          (orEmpty (b_imageData body)))
            | _ => false
            end) eqn:E4; [by split|].
  destruct (match ty with
            | c_video => negb (startsWith (js "data:video/")
                                          (orEmpty (b_videoData body)))
            | _ => false
            end) eqn:E5; [by split|].
  destruct (hasBlocked (users w !! rcv) u) eqn:Hb1; [by split|].
  destruct (hasBlocked (users w !! u) rcv) eqn:Hb2; [by split|].
  set (m := directMessageData (nextObjectId w) u rcv ty (trim <$> b_text body)
              (b_imageData body) (b_videoData body) false now).
  unfold saveNew. destruct (validate m) as [e|] eqn:Ev; [by split|].
  split; [|done].
  intros _. exists rcv, ty, m.
  destruct (directMessageData_fields (nextObjectId w) u rcv ty
              (trim <$> b_text body) (b_imageData body) (b_videoData body)
              false now) as (? & ? & ? & ? & ? & ?).
  split_and!; try done.
  - subst m. by destruct ty.
  - subst m. destruct ty.
    + destruct (b_text body) as [t|] eqn:Et; [|done]. exists t.
      rewrite blankAfterTrim_Some in E1. apply bool_decide_eq_false in E1.
      split_and!; [done|done|done|].
      unfold validate, schemaValidate in Ev. cbn in Ev.
      by case_bool_decide.
    + destruct (b_imageData body) as [d|] eqn:Ed; [|done]. exists d.
      apply negb_false_iff in E4. done.
    + destruct (b_videoData body) as [d|] eqn:Ed; [|done]. exists d.
      apply negb_false_iff in E5. done.
Qed.

Lemma sendMessage_created_witness :
  status (sendMessage friendly (Some alice) hiBody noon).2 = 201
  ∧ ∃ m, messages (sendMessage friendly (Some alice) hiBody noon).1
         = messages friendly ++ [m]
         ∧ text m = Some (js "hi") ∧ isRead m = false.
Proof.
  assert (status (sendMessage friendly (Some alice) hiBody noon).2 = 201)
    as Hst by (vm_compute; reflexivity).
  split; [exact Hst|].
  destruct (sendMessage_created friendly alice hiBody noon) as [Hyes _].
  destruct (Hyes Hst)
    as (rcv & ty & m & _ & Hty & _ & Hstore & _ & _ & _ & _ & Hread & _ & _
        & _ & _ & Hkind).
  exists m. split; [exact Hstore|]. split; [|exact Hread].
  vm_compute in Hty. injection Hty as <-.
  destruct Hkind as (t & Ht & _ & -> & _).
  vm_compute in Ht. injection Ht as <-. vm_compute. reflexivity.
Defined.

(** ** What a member who left still sees *)





(** ** Marking a group read *)




(** ** Group rooms *)

(** X24. The room of a group is joined once per user, not once per
    connection. After a connection of a member has asked to join the
    room of an active group, the user is recorded in the room; when
    another connection of the same user then asks to join, no error is
    reported, and this connection is not put into the room: what is
    sent to the room does not reach it. *)
Theorem group_room_once_per_user (w : World) (a b : CustomSocket)
    (g : ObjectId) (grp : Group) (conn : CustomSocket) :
  s_userId a = s_userId b → s_id a ≠ s_id b →
  findActiveGroupOfMember g (s_userId a) w = Some grp →
  sockets w !! s_id b = Some conn →
  group_room g ∉ s_rooms conn →
  let w1 := (handleJoinGroupChat w a g).1 in
  (∃ rooms, jsmap_get (s_userId a) (userRooms w1) = Some rooms
            ∧ group_room g ∈ rooms)
  ∧ (handleJoinGroupChat w1 b g).2 = []
  ∧ sockets (handleJoinGroupChat w1 b g).1 !! s_id b = Some conn.
Proof.
  intros Hu Hid Hfind Hconn Hout w1.
  assert (∃ rooms, jsmap_get (s_userId a) (userRooms w1) = Some rooms
                   ∧ group_room g ∈ rooms) as Hrec.
  { subst w1. unfold handleJoinGroupChat. rewrite Hfind.
    case_bool_decide as Hin.
    - eexists. cbn [fst userRooms set_userRooms].
      rewrite jsmap_get_set. done.
    - eexists. cbn [fst userRooms set_userRooms set_sockets].
      rewrite jsmap_get_set. split; [done|].
      apply elem_of_app. right. by left. }
  assert (groups w1 = groups w ∧ sockets w1 !! s_id b = Some conn)
    as [Hgroups Hconn1].
  { subst w1. unfold handleJoinGroupChat. rewrite Hfind.
    case_bool_decide; cbn [fst groups sockets set_userRooms set_sockets];
      [done|]. by rewrite lookup_alter_ne. }
  assert (findActiveGroupOfMember g (s_userId b) w1 = Some grp) as Hfind1.
  { rewrite <- Hu. unfold findActiveGroupOfMember in *. by rewrite Hgroups. }
  clearbody w1. split; [done|].
  destruct Hrec as (rooms & Hrooms & Hin).
  unfold handleJoinGroupChat. rewrite Hfind1, <- Hu, Hrooms.
  cbn [default]. rewrite (bool_decide_eq_true_2 _ Hin). done.
Qed.

Lemma group_room_once_per_user_witness :
  sockets (handleJoinGroupChat
             (handleJoinGroupChat reconnected aliceSocket 7%N).1
             aliceSocket2 7%N).1 !! 21%N
  = Some aliceSocket2.
Proof.
  assert (findActiveGroupOfMember 7%N (s_userId aliceSocket) reconnected
          = Some team) as Hf by (vm_compute; reflexivity).
  assert (sockets reconnected !! s_id aliceSocket2 = Some aliceSocket2) as Hc
    by (vm_compute; reflexivity).
  destruct (group_room_once_per_user reconnected aliceSocket aliceSocket2 7%N
              team aliceSocket2 eq_refl) as (_ & _ & H); try done.
  apply not_elem_of_nil.
Defined.

(** ** The cached latest message of a group *)


